(** * timesync-api: the request handler of [functions/api.js] and its variants

    A shallow embedding of the three evolutions of the handler found in the
    repository:

    - [functions/api.js]: the luxon "extended" variant (no structural
      pre-filter, extra calendar fields, [duration_since_utc]);
    - the Intl variant: structural pre-filter and the hand-written calendar
      helpers ([getTimezoneOffsetInMinutes], [getLocalISOString],
      [calculateUTCOffset], [getISOWeekNumber]);
    - the luxon "basic" variant: structural pre-filter, luxon for the
      calendar views and a hand-written [calculateUTCOffset].

    JavaScript numbers that hold integers (timestamps, counters, offsets) are
    modelled as [Z]; this is exact below 2^53.  JavaScript strings are
    modelled as [string], holding the UTF-8 form of the text; the default
    [Array.prototype.sort] compares the UTF-16 code units of its elements,
    which [UTF16.code_units] reads back from the bytes.  The host platform
    (clock, [Intl], [URL], luxon) is taken as a parameter. *)

From Stdlib Require Import ZArith Lia Ascii String List Sorted Permutation.
From stdpp Require Import gmap strings list sorting.

Open Scope Z_scope.

(** ** URLSearchParams and the cache key *)

Module URLSearchParams.

(** The parsed query string of [new URL(url).searchParams]: the
    (name, value) pairs in the order they appear, repeats included. *)
Definition t := list (string * string).

(** [params.keys()]: every name, in order, repeats included. *)
Definition keys (params : t) : list string := params.*1.

(** [params.get(name)]: the first value of [name], or [null]. *)
Fixpoint get (params : t) (name : string) : option string :=
  match params with
  | [] => None
  | (k, v) :: rest => if decide (k = name) then Some v else get rest name
  end.

(** [params.has(name)]. *)
Definition has (params : t) (name : string) : bool :=
  bool_decide (name ∈ keys params).

End URLSearchParams.

(** A [string | null] value inside a template literal. *)
Definition template_of_nullable (v : option string) : string :=
  match v with
  | Some s => s
  | None => "null"
  end.

(** A JavaScript string is a sequence of 16-bit code units, and the
    comparison of strings goes by code units.  A [string] holds the UTF-8
    form of the text, as it travels in a URL. *)
Module UTF16.

Local Open Scope N_scope.

(** A continuation byte, [10xxxxxx]. *)
Definition continuation (b : N) : bool := (0x80 <=? b) && (b <=? 0xBF).

(** The code point of [110xxxxx 10xxxxxx]; overlong forms are no sequence. *)
Definition two_bytes (b0 b1 : N) : option N :=
  let cp := (b0 - 0xC0) * 0x40 + (b1 - 0x80) in
  if (0xC0 <=? b0) && (b0 <=? 0xDF) && continuation b1 && (0x80 <=? cp)
  then Some cp else None.

(** The code point of [1110xxxx 10xxxxxx 10xxxxxx]; overlong forms and the
    surrogate range are no sequence. *)
Definition three_bytes (b0 b1 b2 : N) : option N :=
  let cp := (b0 - 0xE0) * 0x1000 + (b1 - 0x80) * 0x40 + (b2 - 0x80) in
  if (0xE0 <=? b0) && (b0 <=? 0xEF) && continuation b1 && continuation b2
     && (0x800 <=? cp) && negb ((0xD800 <=? cp) && (cp <=? 0xDFFF))
  then Some cp else None.

(** The code point of [11110xxx 10xxxxxx 10xxxxxx 10xxxxxx], from U+10000
    to U+10FFFF. *)
Definition four_bytes (b0 b1 b2 b3 : N) : option N :=
  let cp := (b0 - 0xF0) * 0x40000 + (b1 - 0x80) * 0x1000 + (b2 - 0x80) * 0x40 + (b3 - 0x80) in
  if (0xF0 <=? b0) && (b0 <=? 0xF7) && continuation b1 && continuation b2
     && continuation b3 && (0x10000 <=? cp) && (cp <=? 0x10FFFF)
  then Some cp else None.

(** The code units of a code point above U+FFFF: a surrogate pair. *)
Definition surrogates (cp : N) : list N :=
  [0xD800 + (cp - 0x10000) / 0x400; 0xDC00 + (cp - 0x10000) mod 0x400].

(** A byte that starts no UTF-8 sequence.  The query of a parsed URL holds
    none ([URLSearchParams] decodes them to U+FFFD); it stands for a lone
    code unit of its own, so that different byte strings stay different
    sequences of code units. *)
Definition stray (b : N) : N := 0xDC00 + b.

(** The code units of the text whose UTF-8 form is [s]. *)
Fixpoint code_units (s : string) : list N :=
  match s with
  | EmptyString => []
  | String c0 s1 =>
      let b0 := N_of_ascii c0 in
      if b0 <? 0x80 then b0 :: code_units s1
      else
        match s1 with
        | EmptyString => [stray b0]
        | String c1 s2 =>
            match two_bytes b0 (N_of_ascii c1) with
            | Some cp => cp :: code_units s2
            | None =>
                match s2 with
                | EmptyString => stray b0 :: code_units s1
                | String c2 s3 =>
                    match three_bytes b0 (N_of_ascii c1) (N_of_ascii c2) with
                    | Some cp => cp :: code_units s3
                    | None =>
                        match s3 with
                        | EmptyString => stray b0 :: code_units s1
                        | String c3 s4 =>
                            match four_bytes b0 (N_of_ascii c1) (N_of_ascii c2) (N_of_ascii c3) with
                            | Some cp => surrogates cp ++ code_units s4
                            | None => stray b0 :: code_units s1
                            end
                        end
                    end
                end
            end
        end
  end.

(** The way back: the bytes of a sequence of code units. *)
Fixpoint to_string (u : list N) : string :=
  match u with
  | [] => EmptyString
  | x :: rest =>
      if x <? 0x80 then String (ascii_of_N x) (to_string rest)
      else if x <? 0x800 then
        String (ascii_of_N (0xC0 + x / 0x40))
          (String (ascii_of_N (0x80 + x mod 0x40)) (to_string rest))
      else if (0xD800 <=? x) && (x <=? 0xDBFF) then
        match rest with
        | [] => EmptyString
        | y :: rest' =>
            let cp := 0x10000 + (x - 0xD800) * 0x400 + (y - 0xDC00) in
            String (ascii_of_N (0xF0 + cp / 0x40000))
              (String (ascii_of_N (0x80 + cp / 0x1000 mod 0x40))
                 (String (ascii_of_N (0x80 + cp / 0x40 mod 0x40))
                    (String (ascii_of_N (0x80 + cp mod 0x40)) (to_string rest'))))
        end
      else if (0xDC80 <=? x) && (x <=? 0xDCFF) then
        String (ascii_of_N (x - 0xDC00)) (to_string rest)
      else
        String (ascii_of_N (0xE0 + x / 0x1000))
          (String (ascii_of_N (0x80 + x / 0x40 mod 0x40))
             (String (ascii_of_N (0x80 + x mod 0x40)) (to_string rest)))
  end.

(** [u] comes before [v] or is [v]: the first code unit in which they differ
    is smaller in [u], or [u] is a prefix of [v]. *)
Fixpoint leb (u v : list N) : bool :=
  match u, v with
  | [], _ => true
  | _ :: _, [] => false
  | x :: u', y :: v' => (x <? y) || ((x =? y) && leb u' v')
  end.

End UTF16.

(** The order of the default sort: by UTF-16 code units. *)
Definition code_unit_le (a b : string) : Prop :=
  UTF16.leb (UTF16.code_units a) (UTF16.code_units b) = true.

#[export] Instance code_unit_le_dec : RelDecision code_unit_le :=
  λ a b, decide (UTF16.leb (UTF16.code_units a) (UTF16.code_units b) = true).

(** [Array.prototype.sort()] without a comparator, on an array of strings. *)
Definition js_sort (l : list string) : list string := merge_sort code_unit_le l.

(** [Array.prototype.join(sep)]. *)
Definition js_join (sep : string) (l : list string) : string :=
  String.concat sep l.

(** [generateCacheKey(url)], on the parsed query of [url]. *)
Definition generateCacheKey (params : URLSearchParams.t) : string :=
  let sortedKeys := js_sort (URLSearchParams.keys params) in
  js_join "&"
    ((λ key, key +:+ "=" +:+ template_of_nullable (URLSearchParams.get params key))
       <$> sortedKeys).

(** ** JavaScript numbers, number-to-string conversion and padding *)

(** The numbers the handler computes with are integers or [NaN]
    (the time value of an invalid [Date] and what is derived from it). *)
Inductive number :=
  | NaN
  | Num (z : Z).

#[global] Instance number_eq_dec : EqDecision number.
Proof. solve_decision. Defined.

Definition num_map (f : Z → Z) (x : number) : number :=
  match x with
  | Num a => Num (f a)
  | NaN => NaN
  end.

Definition num_map2 (f : Z → Z → Z) (x y : number) : number :=
  match x, y with
  | Num a, Num b => Num (f a b)
  | _, _ => NaN
  end.

(** [x >= y]: false as soon as one side is [NaN]. *)
Definition num_geb (x y : number) : bool :=
  match x, y with
  | Num a, Num b => bool_decide (b ≤ a)
  | _, _ => false
  end.

Definition digit_char (d : Z) : ascii := ascii_of_nat (48 + Z.to_nat d).

Fixpoint decimal_digits (fuel : nat) (n : Z) (acc : string) : string :=
  match fuel with
  | O => acc
  | S fuel' =>
      let acc' := String (digit_char (n `mod` 10)) acc in
      if bool_decide (n < 10) then acc' else decimal_digits fuel' (n `div` 10) acc'
  end.

(** The decimal numeral of a non-negative integer. *)
Definition decimal (n : Z) : string :=
  decimal_digits (S (Z.to_nat (Z.log2 n))) n "".

(** [String(x)] on an integer or [NaN]. *)
Definition js_String (x : number) : string :=
  match x with
  | NaN => "NaN"
  | Num z => if bool_decide (z < 0) then "-" +:+ decimal (- z) else decimal z
  end.

Fixpoint string_repeat_to (fuel : nat) (filler : string) (n : nat) : string :=
  match fuel with
  | O => ""
  | S fuel' =>
      if bool_decide (String.length filler < n)%nat
      then filler +:+ string_repeat_to fuel' filler (n - String.length filler)
      else String.substring 0 n filler
  end.

(** [s.padStart(targetLength, padString)]. *)
Definition padStart (s : string) (targetLength : nat) (padString : string) : string :=
  if bool_decide (targetLength ≤ String.length s)%nat then s
  else if bool_decide (padString = "") then s
  else
    let fillLen := (targetLength - String.length s)%nat in
    string_repeat_to (S fillLen) padString fillLen +:+ s.

(** [Math.abs], [Math.floor(x / d)] and [x % d] on integers ([d] positive). *)
Definition Math_abs (x : number) : number := num_map Z.abs x.
Definition Math_floor_div (x : number) (d : Z) : number := num_map (λ a, a `div` d) x.
Definition js_rem (x : number) (d : Z) : number := num_map (λ a, a `rem` d) x.

(** [Math.round(p / q)] for integers [p] and [q > 0]: the nearest integer,
    halves rounded up. *)
Definition Math_round_div (p : number) (q : Z) : number :=
  num_map (λ a, (2 * a + q) `div` (2 * q)) p.

(** ** The offset display string *)

(** The common body of [calculateUTCOffset] in the two variants that
    define it, from the offset in minutes onwards. *)
Definition formatUTCOffset (offsetInMinutes : number) : string :=
  let sign := if num_geb offsetInMinutes (Num 0) then "+" else "-" in
  let absOffset := Math_abs offsetInMinutes in
  let hours := padStart (js_String (Math_floor_div absOffset 60)) 2 "0" in
  let minutes := padStart (js_String (js_rem absOffset 60)) 2 "0" in
  "UTC" +:+ sign +:+ hours +:+ ":" +:+ minutes.

(** ** ECMAScript [Date]: time values and the UTC calendar *)

Module JSDate.

Definition msPerDay : Z := 86400000.
Definition msPerHour : Z := 3600000.
Definition msPerMinute : Z := 60000.
Definition msPerSecond : Z := 1000.

Definition Day (t : Z) : Z := t `div` msPerDay.
Definition TimeWithinDay (t : Z) : Z := t `mod` msPerDay.

(** Day number (days since 1970-01-01) of a proleptic Gregorian date;
    [m] is 1-based. *)
Definition days_from_civil (y m d : Z) : Z :=
  let y' := if bool_decide (m ≤ 2) then y - 1 else y in
  let era := y' `div` 400 in
  let yoe := y' - era * 400 in
  let mp := if bool_decide (2 < m) then m - 3 else m + 9 in
  let doy := (153 * mp + 2) `div` 5 + d - 1 in
  let doe := yoe * 365 + yoe `div` 4 - yoe `div` 100 + doy in
  era * 146097 + doe - 719468.

(** The (year, 1-based month, day of month) of a day number. *)
Definition civil_from_days (z : Z) : Z * Z * Z :=
  let z' := z + 719468 in
  let era := z' `div` 146097 in
  let doe := z' - era * 146097 in
  let yoe := (doe - doe `div` 1460 + doe `div` 36524 - doe `div` 146096) `div` 365 in
  let doy := doe - (365 * yoe + yoe `div` 4 - yoe `div` 100) in
  let mp := (5 * doy + 2) `div` 153 in
  let d := doy - (153 * mp + 2) `div` 5 + 1 in
  let m := if bool_decide (mp < 10) then mp + 3 else mp - 9 in
  (if bool_decide (m ≤ 2) then yoe + era * 400 + 1 else yoe + era * 400, m, d).

Definition YearFromTime (t : Z) : Z := (civil_from_days (Day t)).1.1.
(** 0-based, as in ECMAScript. *)
Definition MonthFromTime (t : Z) : Z := (civil_from_days (Day t)).1.2 - 1.
Definition DateFromTime (t : Z) : Z := (civil_from_days (Day t)).2.
(** 0 is Sunday. *)
Definition WeekDay (t : Z) : Z := (Day t + 4) `mod` 7.
Definition HourFromTime (t : Z) : Z := (t `div` msPerHour) `mod` 24.
Definition MinFromTime (t : Z) : Z := (t `div` msPerMinute) `mod` 60.
Definition SecFromTime (t : Z) : Z := (t `div` msPerSecond) `mod` 60.
Definition msFromTime (t : Z) : Z := t `mod` msPerSecond.

(** [MakeDay(year, month, date)] with a 0-based, possibly out-of-range
    [month] and any integer [date]. *)
Definition MakeDay (year month date : Z) : Z :=
  let ym := year + month `div` 12 in
  let mn := month `mod` 12 in
  days_from_civil ym (mn + 1) 1 + date - 1.

Definition MakeTime (hour min sec ms : Z) : Z :=
  hour * msPerHour + min * msPerMinute + sec * msPerSecond + ms.

Definition MakeDate (day time : Z) : Z := day * msPerDay + time.

Definition TimeClip (t : Z) : number :=
  if bool_decide (Z.abs t ≤ 8640000000000000) then Num t else NaN.

(** A [Date] object is its time value. *)
Definition t := number.

(** [new Date(value)] on a number. *)
Definition of_number (v : number) : t :=
  match v with
  | Num z => TimeClip z
  | NaN => NaN
  end.

(** [Date.UTC(year, month, date)]. *)
Definition UTC (year : number) (month date : Z) : number :=
  match year with
  | Num y =>
      let yr := if bool_decide (0 ≤ y ≤ 99) then 1900 + y else y in
      TimeClip (MakeDate (MakeDay yr month date) 0)
  | NaN => NaN
  end.

Definition getTime (d : t) : number := d.
Definition getUTCFullYear (d : t) : number := num_map YearFromTime d.
Definition getUTCMonth (d : t) : number := num_map MonthFromTime d.
Definition getUTCDate (d : t) : number := num_map DateFromTime d.
Definition getUTCDay (d : t) : number := num_map WeekDay d.
Definition getUTCHours (d : t) : number := num_map HourFromTime d.
Definition getUTCMinutes (d : t) : number := num_map MinFromTime d.
Definition getUTCSeconds (d : t) : number := num_map SecFromTime d.

(** [d.setUTCDate(dt)]: the new time value of [d]. *)
Definition setUTCDate (d : t) (dt : number) : t :=
  match d, dt with
  | Num tv, Num n =>
      TimeClip (MakeDate (MakeDay (YearFromTime tv) (MonthFromTime tv) n) (TimeWithinDay tv))
  | _, _ => NaN
  end.

(** [a - b] on two dates. *)
Definition diff (a b : t) : number := num_map2 Z.sub a b.

Definition digit_value (c : ascii) : option Z :=
  let n := nat_of_ascii c in
  if bool_decide (48 ≤ n ≤ 57)%nat then Some (Z.of_nat n - 48) else None.

(** Reads exactly [n] decimal digits. *)
Fixpoint take_digits (n : nat) (s : string) (acc : Z) : option (Z * string) :=
  match n with
  | O => Some (acc, s)
  | S n' =>
      match s with
      | String c rest => v ← digit_value c; take_digits n' rest (10 * acc + v)
      | EmptyString => None
      end
  end.

Definition expect (c : ascii) (s : string) : option string :=
  match s with
  | String c' rest => if decide (c' = c) then Some rest else None
  | EmptyString => None
  end.

(** The UTC offset suffix, in minutes: [Z] or [+HH:mm] or [-HH:mm],
    up to the end of the string. *)
Definition parse_zone (s : string) : option Z :=
  match s with
  | String "Z" EmptyString => Some 0
  | String c rest =>
      sgn ← (if decide (c = "+"%char) then Some 1
             else if decide (c = "-"%char) then Some (-1) else None);
      '(h, rest) ← take_digits 2 rest 0;
      rest ← expect ":" rest;
      '(mi, rest) ← take_digits 2 rest 0;
      guard (rest = "");;
      guard (h ≤ 23 ∧ mi ≤ 59);;
      Some (sgn * (h * 60 + mi))
  | EmptyString => None
  end.

(** [new Date(string)] on the date-time strings the handler builds,
    [YYYY-MM-DDTHH:mm:ss] followed by [Z] or a numeric offset (the
    ECMAScript date-time string format without fraction).  Any other
    string is an invalid date here. *)
Definition parse (s : string) : t :=
  let parsed : option Z :=
    '(y, s) ← take_digits 4 s 0;
    s ← expect "-" s;
    '(mo, s) ← take_digits 2 s 0;
    s ← expect "-" s;
    '(d, s) ← take_digits 2 s 0;
    s ← expect "T" s;
    '(h, s) ← take_digits 2 s 0;
    s ← expect ":" s;
    '(mi, s) ← take_digits 2 s 0;
    s ← expect ":" s;
    '(sec, s) ← take_digits 2 s 0;
    off ← parse_zone s;
    guard (1 ≤ mo ≤ 12 ∧ 1 ≤ d ≤ 31 ∧ mi ≤ 59 ∧ sec ≤ 59);;
    guard (h ≤ 23 ∨ (h = 24 ∧ mi = 0 ∧ sec = 0));;
    Some (MakeDate (MakeDay y (mo - 1) d) (MakeTime h mi sec 0) - off * msPerMinute)
  in
  match parsed with
  | Some tv => TimeClip tv
  | None => NaN
  end.

Definition pad (width : nat) (n : Z) : string :=
  padStart (decimal n) width "0".

(** [d.toISOString()]; [None] is the [RangeError] of an invalid date. *)
Definition toISOString (d : t) : option string :=
  match d with
  | NaN => None
  | Num tv =>
      let y := YearFromTime tv in
      let year :=
        if bool_decide (0 ≤ y ≤ 9999) then pad 4 y
        else if bool_decide (y < 0) then "-" +:+ pad 6 (- y)
        else "+" +:+ pad 6 y in
      Some (year +:+ "-" +:+ pad 2 (MonthFromTime tv + 1) +:+ "-" +:+ pad 2 (DateFromTime tv)
            +:+ "T" +:+ pad 2 (HourFromTime tv) +:+ ":" +:+ pad 2 (MinFromTime tv)
            +:+ ":" +:+ pad 2 (SecFromTime tv) +:+ "." +:+ pad 3 (msFromTime tv) +:+ "Z")
  end.

End JSDate.

(** ** JSON values and [JSON.stringify] *)

Module JSON.

(** The payloads of the handler are flat objects of strings, numbers and
    booleans, in property insertion order. *)
Inductive value :=
  | JStr (s : string)
  | JNum (n : number)
  | JBool (b : bool).

Definition object := list (string * value).

Definition quote_char : ascii := "034"%char.
Definition newline : string := String "010"%char "".

Definition hex_digit (n : nat) : ascii :=
  if bool_decide (n < 10)%nat then ascii_of_nat (48 + n) else ascii_of_nat (87 + n).

(** The escape of one character inside a JSON string. *)
Definition escape_char (c : ascii) : string :=
  let n := nat_of_ascii c in
  if decide (c = quote_char) then String "\" (String quote_char "")
  else if decide (c = "\"%char) then "\\"
  else if decide (n = 8)%nat then "\b"
  else if decide (n = 9)%nat then "\t"
  else if decide (n = 10)%nat then "\n"
  else if decide (n = 12)%nat then "\f"
  else if decide (n = 13)%nat then "\r"
  else if bool_decide (n < 32)%nat
       then "\u00" +:+ String (hex_digit (n / 16)) (String (hex_digit (n mod 16)) "")
  else String c "".

Fixpoint escape (s : string) : string :=
  match s with
  | EmptyString => ""
  | String c rest => escape_char c +:+ escape rest
  end.

Definition quote (s : string) : string :=
  String quote_char (escape s +:+ String quote_char "").

Definition stringify_value (v : value) : string :=
  match v with
  | JStr s => quote s
  | JNum NaN => "null"
  | JNum n => js_String n
  | JBool true => "true"
  | JBool false => "false"
  end.

(** [JSON.stringify(obj)]. *)
Definition stringify (obj : object) : string :=
  "{" +:+ js_join "," ((λ kv, quote kv.1 +:+ ":" +:+ stringify_value kv.2) <$> obj) +:+ "}".

(** [JSON.stringify(obj, null, 2)]. *)
Definition stringify_indent2 (obj : object) : string :=
  match obj with
  | [] => "{}"
  | _ =>
      "{" +:+ newline
      +:+ js_join ("," +:+ newline)
            ((λ kv, "  " +:+ quote kv.1 +:+ ": " +:+ stringify_value kv.2) <$> obj)
      +:+ newline +:+ "}"
  end.

End JSON.

(** ** The host's [Intl] and the calendar helpers of the Intl variant *)

(** What the Intl variant asks of the host.  A [None] result is a thrown
    exception. *)
Record IntlHost := {
  (** [Intl.supportedValuesOf('timeZone')] *)
  supportedTimeZones : list string;
  (** [new Intl.DateTimeFormat('en-US', { timeZone, hour12: false,
      year: 'numeric', month: '2-digit', day: '2-digit', hour: '2-digit',
      minute: '2-digit', second: '2-digit' }).formatToParts(date)]:
      the (type, value) parts *)
  formatToParts_datetime : string → Z → option (list (string * string));
  (** [new Intl.DateTimeFormat('en-US', { timeZone, timeZoneName: 'short' })
      .formatToParts(date)] *)
  formatToParts_zoneName : string → Z → option (list (string * string));
  (** [new Intl.DateTimeFormat('en-US', { timeZone, weekday: 'long' })
      .format(date)] *)
  format_weekday : string → Z → option string;
}.

(** A property read inside a template literal. *)
Definition template_of_property (v : option string) : string :=
  match v with
  | Some s => s
  | None => "undefined"
  end.

Module IntlVariant.

Section Helpers.

Variable host : IntlHost.

(** [getTimezoneOffsetInMinutes(date, timezone)]. *)
Definition getTimezoneOffsetInMinutes (date : Z) (timezone : string) : option number :=
  parts ← formatToParts_datetime host timezone date;
  let values : gmap string string :=
    foldl (λ acc part, <[part.1 := part.2]> acc) ∅ parts in
  let tzDate :=
    JSDate.parse
      (template_of_property (values !! "year") +:+ "-"
       +:+ template_of_property (values !! "month") +:+ "-"
       +:+ template_of_property (values !! "day") +:+ "T"
       +:+ template_of_property (values !! "hour") +:+ ":"
       +:+ template_of_property (values !! "minute") +:+ ":"
       +:+ template_of_property (values !! "second") +:+ "Z") in
  let offsetInMinutes := Math_round_div (JSDate.diff tzDate (Num date)) 60000 in
  Some offsetInMinutes.

(** [calculateUTCOffset(date, timezone)]. *)
Definition calculateUTCOffset (date : Z) (timezone : string) : option string :=
  offsetInMinutes ← getTimezoneOffsetInMinutes date timezone;
  Some (formatUTCOffset offsetInMinutes).

(** [getTimezoneAbbreviation(date, timezone)]. *)
Definition getTimezoneAbbreviation (date : Z) (timezone : string) : option string :=
  parts ← formatToParts_zoneName host timezone date;
  let timeZoneName := list_find (λ part, part.1 = "timeZoneName") parts in
  Some (match timeZoneName with
        | Some (_, part) => part.2
        | None => ""
        end).

(** [getLocalISOString(date, timezone)]. *)
Definition getLocalISOString (date : Z) (timezone : string) : option string :=
  offsetInMinutes ← getTimezoneOffsetInMinutes date timezone;
  let sign := if num_geb offsetInMinutes (Num 0) then "+" else "-" in
  let absOffset := Math_abs offsetInMinutes in
  let hours := padStart (js_String (Math_floor_div absOffset 60)) 2 "0" in
  let minutes := padStart (js_String (js_rem absOffset 60)) 2 "0" in
  let localTimestamp := num_map2 Z.add (Num date) (num_map (λ o, o * 60000) offsetInMinutes) in
  let localDate := JSDate.of_number localTimestamp in
  let year := JSDate.getUTCFullYear localDate in
  let month := padStart (js_String (num_map (λ m, m + 1) (JSDate.getUTCMonth localDate))) 2 "0" in
  let day := padStart (js_String (JSDate.getUTCDate localDate)) 2 "0" in
  let hour := padStart (js_String (JSDate.getUTCHours localDate)) 2 "0" in
  let minuteStr := padStart (js_String (JSDate.getUTCMinutes localDate)) 2 "0" in
  let second := padStart (js_String (JSDate.getUTCSeconds localDate)) 2 "0" in
  Some (js_String year +:+ "-" +:+ month +:+ "-" +:+ day +:+ "T" +:+ hour +:+ ":"
        +:+ minuteStr +:+ ":" +:+ second +:+ sign +:+ hours +:+ ":" +:+ minutes).

(** [getDayOfWeek(date, timezone)]. *)
Definition getDayOfWeek (date : Z) (timezone : string) : option string :=
  format_weekday host timezone date.

(** [(d.getUTCDay() + 6) % 7]. *)
Definition mondayBasedDay (d : JSDate.t) : number :=
  num_map (λ wd, (wd + 6) `rem` 7) (JSDate.getUTCDay d).

(** [getISOWeekNumber(date, timezone)].  The two [Date] objects are
    mutated in place by [setUTCDate]; each mutation is a new binding. *)
Definition getISOWeekNumber (date : Z) (timezone : string) : option number :=
  localISOString ← getLocalISOString date timezone;
  let localDate := JSDate.parse localISOString in
  let dayNumber := mondayBasedDay localDate in
  let localDate :=
    JSDate.setUTCDate localDate
      (num_map2 Z.sub (num_map (λ d, d + 4) (JSDate.getUTCDate localDate)) dayNumber) in
  let week1 := JSDate.of_number (JSDate.UTC (JSDate.getUTCFullYear localDate) 0 4) in
  let week1 :=
    JSDate.setUTCDate week1
      (num_map2 Z.sub (num_map (λ d, d + 3) (JSDate.getUTCDate week1)) (mondayBasedDay week1)) in
  (* ((localDate - week1) / 86400000 - 3 + w) / 7, as one exact quotient *)
  let numerator :=
    num_map2 (λ ms w, ms + (w - 3) * 86400000) (JSDate.diff localDate week1) (mondayBasedDay week1) in
  let weekNumber := num_map (λ r, 1 + r) (Math_round_div numerator (7 * 86400000)) in
  Some weekNumber.

End Helpers.

End IntlVariant.

(** ** Regular expressions and the structural pattern *)

Module Regex.

(** The fragment of the pattern language the handler uses, closed under
    derivatives. *)
Inductive t :=
  | Void
  | Eps
  | Class (p : ascii → bool)
  | Alt (r1 r2 : t)
  | Seq (r1 r2 : t)
  | Star (r : t).

(** [r+] *)
Definition Plus (r : t) : t := Seq r (Star r).

(** A literal character. *)
Definition Chr (c : ascii) : t := Class (λ x, bool_decide (x = c)).

Fixpoint nullable (r : t) : bool :=
  match r with
  | Void => false
  | Eps => true
  | Class _ => false
  | Alt r1 r2 => nullable r1 || nullable r2
  | Seq r1 r2 => nullable r1 && nullable r2
  | Star _ => true
  end.

Fixpoint deriv (c : ascii) (r : t) : t :=
  match r with
  | Void => Void
  | Eps => Void
  | Class p => if p c then Eps else Void
  | Alt r1 r2 => Alt (deriv c r1) (deriv c r2)
  | Seq r1 r2 =>
      if nullable r1 then Alt (Seq (deriv c r1) r2) (deriv c r2)
      else Seq (deriv c r1) r2
  | Star r1 => Seq (deriv c r1) (Star r1)
  end.

(** [/^r$/.test(s)]: the whole of [s] is in the language of [r]. *)
Fixpoint test (r : t) (s : string) : bool :=
  match s with
  | EmptyString => nullable r
  | String c rest => test (deriv c r) rest
  end.

(** The language of an expression. *)
Inductive Lang : t → string → Prop :=
  | LEps : Lang Eps ""
  | LClass p c : p c = true → Lang (Class p) (String c "")
  | LAltL r1 r2 s : Lang r1 s → Lang (Alt r1 r2) s
  | LAltR r1 r2 s : Lang r2 s → Lang (Alt r1 r2) s
  | LSeq r1 r2 s1 s2 : Lang r1 s1 → Lang r2 s2 → Lang (Seq r1 r2) (s1 +:+ s2)
  | LStarNil r : Lang (Star r) ""
  | LStarCons r s1 s2 : Lang r s1 → Lang (Star r) s2 → Lang (Star r) (s1 +:+ s2).

End Regex.

(** [[A-Za-z_]] *)
Definition letter_or_underscore (c : ascii) : bool :=
  let n := nat_of_ascii c in
  bool_decide (65 ≤ n ≤ 90)%nat || bool_decide (97 ≤ n ≤ 122)%nat || bool_decide (n = 95)%nat.

(** [/^[A-Za-z_]+\/[A-Za-z_]+(?:\/[A-Za-z_]+)*$/] *)
Definition timezonePattern : Regex.t :=
  let word := Regex.Plus (Regex.Class letter_or_underscore) in
  let slash := Regex.Chr "/" in
  Regex.Seq word (Regex.Seq slash (Regex.Seq word (Regex.Star (Regex.Seq slash word)))).

(** ** The request handler *)

Record Request := {
  method : string;
  (** the parsed query of [request.url] *)
  searchParams : URLSearchParams.t;
  (** [request.headers.get('CF-Connecting-IP')] *)
  cfConnectingIP : option string;
}.

Record Response := {
  status : Z;
  body : option string;
  headers : list (string * string);
}.

Record RateData := { count : Z; last : Z }.

Record CacheEntry := { response : JSON.object; timestamp : Z }.

(** The module-level maps, and what was written to the console. *)
Record State := {
  responseCache : gmap string CacheEntry;
  rateLimitMap : gmap string RateData;
  console : list string;
}.

Definition initial : State :=
  {| responseCache := ∅; rateLimitMap := ∅; console := [] |}.

Definition RATE_LIMIT_WINDOW_MS : Z := 60 * 1000.
Definition RATE_LIMIT_MAX_REQUESTS : Z := 100.

Definition corsHeaders : list (string * string) :=
  [("Access-Control-Allow-Origin", "*");
   ("Access-Control-Allow-Methods", "GET, OPTIONS");
   ("Access-Control-Allow-Headers", "Content-Type")].

Definition jsonHeaders : list (string * string) :=
  ("Content-Type", "application/json") :: corsHeaders.

Definition successHeaders : list (string * string) :=
  ("Content-Type", "application/json") :: ("Cache-Control", "public, max-age=1") :: corsHeaders.

(** [new Response(JSON.stringify({ error: message }), { status, ... })] *)
Definition errorResponse (code : Z) (message : string) : Response :=
  {| status := code;
     body := Some (JSON.stringify [("error", JSON.JStr message)]);
     headers := jsonHeaders |}.

(** [new Response(JSON.stringify(response, null, 2), { status: 200, ... })] *)
Definition successResponse (payload : JSON.object) : Response :=
  {| status := 200;
     body := Some (JSON.stringify_indent2 payload);
     headers := successHeaders |}.

Definition preflightResponse : Response :=
  {| status := 204; body := None; headers := corsHeaders |}.

Definition rateLimitedResponse : Response :=
  errorResponse 429 "Rate limit exceeded. Please try again later.".

Definition missingTimezoneResponse : Response :=
  errorResponse 400 "Missing 'timezone' query parameter.".

Definition invalidFormatResponse : Response :=
  errorResponse 400 "Invalid timezone format. Please provide a valid IANA timezone identifier.".

Definition invalidTimezoneResponse (timezone : string) : Response :=
  errorResponse 400
    ("Invalid timezone '" +:+ timezone +:+ "'. Please provide a valid IANA timezone identifier.").

Definition internalErrorResponse : Response :=
  errorResponse 500 "Internal Server Error. Please try again later.".

(** The cache lookup at the head of the handler: the stored payload when
    an entry exists for the key and is at most 1000 ms old. *)
Definition cacheLookup (cache : gmap string CacheEntry) (cacheKey : string) (currentTime : Z)
  : option JSON.object :=
  match cache !! cacheKey with
  | Some entry =>
      if bool_decide (currentTime - timestamp entry ≤ 1000) then Some (response entry) else None
  | None => None
  end.

(** [request.headers.get('CF-Connecting-IP') || 'unknown'] *)
Definition clientIp (req : Request) : string :=
  match cfConnectingIP req with
  | Some ip => if decide (ip = "") then "unknown" else ip
  | None => "unknown"
  end.

(** The rate limiter block.  [rateData] is the object stored in the map
    when there is one, so assignments to its fields are seen through the
    map at once, also on the path that returns before
    [rateLimitMap.set]; a fresh object reaches the map only through
    [set].  The boolean tells whether the request is rejected. *)
Definition rateLimit (limits : gmap string RateData) (ip : string) (currentTime : Z)
  : gmap string RateData * bool :=
  let stored := limits !! ip in
  let rateData := default {| count := 0; last := currentTime |} stored in
  let assign (updated : RateData) : gmap string RateData :=
    match stored with
    | Some _ => <[ip := updated]> limits
    | None => limits
    end in
  if bool_decide (currentTime - last rateData < RATE_LIMIT_WINDOW_MS) then
    let rateData := {| count := count rateData + 1; last := last rateData |} in
    let limits := assign rateData in
    if bool_decide (count rateData > RATE_LIMIT_MAX_REQUESTS) then (limits, true)
    else (<[ip := rateData]> limits, false)
  else
    let rateData := {| count := 1; last := currentTime |} in
    (<[ip := rateData]> (assign rateData), false).

(** What distinguishes the three evolutions of the handler. *)
Record Variant := {
  (** [Intl.supportedValuesOf('timeZone')] *)
  validTimezones : list string;
  (** whether the [timezonePattern] test precedes the membership test *)
  structuralPrefilter : bool;
  (** the body of the [try] block up to the [response] object, given the
      clock reading taken inside it; [None] is a thrown exception *)
  compute : Z → string → option JSON.object;
}.

(** [onRequest(context)]: [currentTime] is the reading of [Date.now()],
    [tryTime] the later reading taken inside the [try] block.  What follows
    [responseCache.set] inside the [try] block, the serialization of a flat
    object of strings, numbers and booleans and the construction of the
    response, does not throw, so an exception leaves the cache as it was. *)
Definition onRequest (v : Variant) (st : State) (req : Request) (currentTime tryTime : Z)
  : State * Response :=
  if decide (method req = "OPTIONS") then (st, preflightResponse)
  else
    let cacheKey := generateCacheKey (searchParams req) in
    match cacheLookup (responseCache st) cacheKey currentTime with
    | Some payload => (st, successResponse payload)
    | None =>
        let ip := clientIp req in
        let '(limits, rejected) := rateLimit (rateLimitMap st) ip currentTime in
        let st := {| responseCache := responseCache st;
                     rateLimitMap := limits;
                     console := console st |} in
        if rejected then (st, rateLimitedResponse)
        else
          match URLSearchParams.get (searchParams req) "timezone" with
          | None => (st, missingTimezoneResponse)
          | Some timezone =>
              if decide (timezone = "") then (st, missingTimezoneResponse)
              else if structuralPrefilter v && negb (Regex.test timezonePattern timezone)
              then (st, invalidFormatResponse)
              else if negb (bool_decide (timezone ∈ validTimezones v))
              then (st, invalidTimezoneResponse timezone)
              else
                match compute v tryTime timezone with
                | Some payload =>
                    let entry := {| response := payload; timestamp := currentTime |} in
                    ({| responseCache := <[cacheKey := entry]> (responseCache st);
                        rateLimitMap := rateLimitMap st;
                        console := console st |},
                     successResponse payload)
                | None =>
                    ({| responseCache := responseCache st;
                        rateLimitMap := rateLimitMap st;
                        console :=
                          console st ++ ["Error processing request for key '" +:+ cacheKey +:+ "':"] |},
                     internalErrorResponse)
                end
          end
    end.

(** ** The Intl variant *)

Module IntlHandler.

Section WithHost.

Variable host : IntlHost.

(** The [try] block: [utcDate] is [new Date()]. *)
Definition tryBlock (utcDate : Z) (timezone : string) : option JSON.object :=
  localISOString ← IntlVariant.getLocalISOString host utcDate timezone;
  offset ← IntlVariant.calculateUTCOffset host utcDate timezone;
  offsetInMinutes ← IntlVariant.getTimezoneOffsetInMinutes host utcDate timezone;
  let offsetMilliseconds := num_map (λ o, o * 60000) offsetInMinutes in
  tzAbbreviation ← IntlVariant.getTimezoneAbbreviation host utcDate timezone;
  dayOfWeek ← IntlVariant.getDayOfWeek host utcDate timezone;
  isoWeekNumber ← IntlVariant.getISOWeekNumber host utcDate timezone;
  utc_time ← JSDate.toISOString (Num utcDate);
  Some [("local_time", JSON.JStr localISOString);
        ("utc_time", JSON.JStr utc_time);
        ("timezone", JSON.JStr timezone);
        ("offset", JSON.JStr offset);
        ("offset_milliseconds", JSON.JNum offsetMilliseconds);
        ("timezone_abbreviation", JSON.JStr tzAbbreviation);
        ("day_of_week", JSON.JStr dayOfWeek);
        ("iso_week_number", JSON.JNum isoWeekNumber);
        ("timestamp_milliseconds", JSON.JNum (JSDate.getTime (Num utcDate)))].

Definition variant : Variant :=
  {| validTimezones := supportedTimeZones host;
     structuralPrefilter := true;
     compute := tryBlock |}.

End WithHost.

End IntlHandler.

(** ** luxon, as far as the handler uses it *)

Module Luxon.

(** A [DateTime] is an instant together with the zone it is viewed in. *)
Record DateTime := { ts : Z; zone : string }.

(** A [Duration] held in milliseconds. *)
Record Duration := { milliseconds : Z }.

(** [DateTime.utc()], at the clock reading [now]. *)
Definition utc (now : Z) : DateTime := {| ts := now; zone := "UTC" |}.

(** [dt.setZone(zone)]: the same instant in another zone. *)
Definition setZone (dt : DateTime) (z : string) : DateTime := {| ts := ts dt; zone := z |}.

(** [DateTime.fromJSDate(date, { zone })]. *)
Definition fromJSDate (date : Z) (z : string) : DateTime := {| ts := date; zone := z |}.

(** [dt.toMillis()]. *)
Definition toMillis (dt : DateTime) : Z := ts dt.

(** [a.diff(b)], in the default unit, milliseconds. *)
Definition diff (a b : DateTime) : Duration := {| milliseconds := ts a - ts b |}.

(** [dur.toMillis()]. *)
Definition durationToMillis (d : Duration) : Z := milliseconds d.

(** [Duration.fromObject({ milliseconds })]. *)
Definition fromObject (ms : Z) : Duration := {| milliseconds := ms |}.

(** The renderings that depend on the timezone database and on locale
    data, which the handler takes from the library as they are. *)
Record Views := {
  toISO : DateTime → string;
  offsetNameShort : DateTime → string;
  offset : DateTime → number;
  toFormat : DateTime → string → string;
  weekNumber : DateTime → number;
  weekYear : DateTime → number;
  daysInMonth : DateTime → number;
  daysInYear : DateTime → number;
  isInLeapYear : DateTime → bool;
  startOfDay : DateTime → DateTime;
  endOfDay : DateTime → DateTime;
  toHuman : Duration → string;
}.

End Luxon.

(** ** The extended luxon variant, [functions/api.js] *)

Module ExtendedHandler.

Section WithLuxon.

Variable supported : list string.
Variable lx : Luxon.Views.

Definition tryBlock (now : Z) (timezone : string) : option JSON.object :=
  let utcNow := Luxon.utc now in
  let localNow := Luxon.setZone utcNow timezone in
  Some [("local_time", JSON.JStr (Luxon.toISO lx localNow));
        ("utc_time", JSON.JStr (Luxon.toISO lx utcNow));
        ("timezone", JSON.JStr timezone);
        ("offset", JSON.JStr (Luxon.offsetNameShort lx localNow));
        ("offset_minutes", JSON.JNum (Luxon.offset lx localNow));
        ("timezone_abbreviation", JSON.JStr (Luxon.toFormat lx localNow "ZZZ"));
        ("day_of_week", JSON.JStr (Luxon.toFormat lx localNow "EEEE"));
        ("ordinal_date", JSON.JStr (Luxon.toFormat lx localNow "o"));
        ("iso_week", JSON.JNum (Luxon.weekNumber lx localNow));
        ("iso_year", JSON.JNum (Luxon.weekYear lx localNow));
        ("days_in_month", JSON.JNum (Luxon.daysInMonth lx localNow));
        ("days_in_year", JSON.JNum (Luxon.daysInYear lx localNow));
        ("is_leap_year", JSON.JBool (Luxon.isInLeapYear lx localNow));
        ("start_of_day", JSON.JStr (Luxon.toISO lx (Luxon.startOfDay lx localNow)));
        ("end_of_day", JSON.JStr (Luxon.toISO lx (Luxon.endOfDay lx localNow)));
        ("duration_since_utc",
         JSON.JStr
           (Luxon.toHuman lx
              (Luxon.fromObject (Luxon.durationToMillis (Luxon.diff localNow utcNow)))));
        ("timestamp_milliseconds", JSON.JNum (Num (Luxon.toMillis localNow)))].

Definition variant : Variant :=
  {| validTimezones := supported;
     structuralPrefilter := false;
     compute := tryBlock |}.

End WithLuxon.

End ExtendedHandler.

(** ** The basic luxon variant *)

Module BasicHandler.

Section WithLuxon.

Variable supported : list string.
Variable lx : Luxon.Views.

Definition getLocalISOString (date : Z) (timezone : string) : string :=
  Luxon.toISO lx (Luxon.fromJSDate date timezone).

Definition calculateUTCOffset (date : Z) (timezone : string) : string :=
  let offset := Luxon.offset lx (Luxon.fromJSDate date timezone) in
  formatUTCOffset offset.

Definition getTimezoneAbbreviation (date : Z) (timezone : string) : string :=
  Luxon.toFormat lx (Luxon.fromJSDate date timezone) "ZZZ".

Definition getDayOfWeek (date : Z) (timezone : string) : string :=
  Luxon.toFormat lx (Luxon.fromJSDate date timezone) "EEEE".

Definition getISOWeekNumber (date : Z) (timezone : string) : number :=
  Luxon.weekNumber lx (Luxon.fromJSDate date timezone).

Definition tryBlock (utcDate : Z) (timezone : string) : option JSON.object :=
  let localISOString := getLocalISOString utcDate timezone in
  let offset := calculateUTCOffset utcDate timezone in
  let tzAbbreviation := getTimezoneAbbreviation utcDate timezone in
  let dayOfWeek := getDayOfWeek utcDate timezone in
  let isoWeekNumber := getISOWeekNumber utcDate timezone in
  utc_time ← JSDate.toISOString (Num utcDate);
  Some [("local_time", JSON.JStr localISOString);
        ("utc_time", JSON.JStr utc_time);
        ("timezone", JSON.JStr timezone);
        ("offset", JSON.JStr offset);
        ("timezone_abbreviation", JSON.JStr tzAbbreviation);
        ("day_of_week", JSON.JStr dayOfWeek);
        ("iso_week_number", JSON.JNum isoWeekNumber);
        ("timestamp_milliseconds", JSON.JNum (JSDate.getTime (Num utcDate)))].

Definition variant : Variant :=
  {| validTimezones := supported;
     structuralPrefilter := true;
     compute := tryBlock |}.

End WithLuxon.

End BasicHandler.

(** ** A sample host

    A host whose timezone database is a table of fixed offsets, with the
    part layout of the en-US locale.  It serves to run the helpers on
    concrete instants. *)

Module SampleHost.

Record zone := { zoneName : string; offsetMinutes : Z; shortName : string }.

Definition weekday_names : list string :=
  ["Sunday"; "Monday"; "Tuesday"; "Wednesday"; "Thursday"; "Friday"; "Saturday"].

Definition find_zone (zones : list zone) (timezone : string) : option zone :=
  snd <$> list_find (λ z, zoneName z = timezone) zones.

Definition wallClock (z : zone) (date : Z) : Z :=
  date + offsetMinutes z * JSDate.msPerMinute.

Definition host (zones : list zone) : IntlHost := {|
  supportedTimeZones := zoneName <$> zones;
  formatToParts_datetime timezone date :=
    z ← find_zone zones timezone;
    let w := wallClock z date in
    Some [("month", JSDate.pad 2 (JSDate.MonthFromTime w + 1)); ("literal", "/");
          ("day", JSDate.pad 2 (JSDate.DateFromTime w)); ("literal", "/");
          ("year", decimal (JSDate.YearFromTime w)); ("literal", ", ");
          ("hour", JSDate.pad 2 (JSDate.HourFromTime w)); ("literal", ":");
          ("minute", JSDate.pad 2 (JSDate.MinFromTime w)); ("literal", ":");
          ("second", JSDate.pad 2 (JSDate.SecFromTime w))];
  formatToParts_zoneName timezone date :=
    z ← find_zone zones timezone;
    let w := wallClock z date in
    Some [("month", decimal (JSDate.MonthFromTime w + 1)); ("literal", "/");
          ("day", decimal (JSDate.DateFromTime w)); ("literal", "/");
          ("year", decimal (JSDate.YearFromTime w)); ("literal", ", ");
          ("timeZoneName", shortName z)];
  format_weekday timezone date :=
    z ← find_zone zones timezone;
    weekday_names !! Z.to_nat (JSDate.WeekDay (wallClock z date));
|}.

(** New Zealand daylight time and UTC as the only zones. *)
Definition summer : IntlHost :=
  host [ {| zoneName := "Pacific/Auckland"; offsetMinutes := 780; shortName := "GMT+13" |};
         {| zoneName := "UTC"; offsetMinutes := 0; shortName := "UTC" |} ].

(** Renderings for the luxon variants that only name the view asked for. *)
Definition views : Luxon.Views := {|
  Luxon.toISO dt := "iso@" +:+ Luxon.zone dt;
  Luxon.offsetNameShort dt := "offset@" +:+ Luxon.zone dt;
  Luxon.offset dt := Num 0;
  Luxon.toFormat dt fmt := fmt +:+ "@" +:+ Luxon.zone dt;
  Luxon.weekNumber dt := Num 1;
  Luxon.weekYear dt := Num 1970;
  Luxon.daysInMonth dt := Num 31;
  Luxon.daysInYear dt := Num 365;
  Luxon.isInLeapYear dt := false;
  Luxon.startOfDay dt := dt;
  Luxon.endOfDay dt := dt;
  Luxon.toHuman d := decimal (Luxon.milliseconds d) +:+ " milliseconds";
|}.

End SampleHost.

(** ** The words of the specification, for comparison with the code *)

Module Spec.

(** Monday is 0; day number 0, 1970-01-01, is a Thursday. *)
Definition weekdayFromMonday (dayNumber : Z) : Z := (dayNumber + 3) `mod` 7.

(** ISO 8601: weeks run Monday to Sunday and belong to the year that holds
    their Thursday; week 1 is the week of the year's first Thursday.  The
    result is (week-year, week number) of the calendar date [y]-[m]-[d]. *)
Definition isoWeek (y m d : Z) : Z * Z :=
  let dayNumber := JSDate.days_from_civil y m d in
  let thursday := dayNumber - weekdayFromMonday dayNumber + 3 in
  let weekYear := (JSDate.civil_from_days thursday).1.1 in
  let january1 := JSDate.days_from_civil weekYear 1 1 in
  (weekYear, (thursday - january1) `div` 7 + 1).

(** Zero-padding to two digits. *)
Definition twoDigits (n : Z) : string :=
  if bool_decide (n < 10) then "0" +:+ decimal n else decimal n.

(** [UTC±HH:MM]. *)
Definition utcOffsetDisplay (offset : Z) : string :=
  "UTC" +:+ (if bool_decide (0 ≤ offset) then "+" else "-")
  +:+ twoDigits (Z.abs offset `div` 60) +:+ ":" +:+ twoDigits (Z.abs offset `mod` 60).

(** A nonempty run of letters and underscores. *)
Definition isSegment (s : string) : Prop :=
  s ≠ "" ∧ Forall (λ c, letter_or_underscore c = true) (String.list_ascii_of_string s).

(** [Region/City(/Subregion)*]: at least two segments separated by [/]. *)
Definition wellFormed (timezone : string) : Prop :=
  ∃ region city subregions,
    isSegment region ∧ isSegment city ∧ Forall isSegment subregions ∧
    timezone = js_join "/" (region :: city :: subregions).

End Spec.

(** ** Sample inputs and the relations the properties are stated with *)

(** The two URLs of the counterexample: [?a=1] and [?a=1&a=2]. *)
Definition single_a : URLSearchParams.t := [("a", "1")].
Definition repeated_a : URLSearchParams.t := [("a", "1"); ("a", "2")].

(** U+FF5E (fullwidth tilde) and U+1F600 (grinning face), in UTF-8, and the
    query [?%EF%BD%9E=1&%F0%9F%98%80=2] that names its parameters so. *)
Definition fullwidth_tilde : string :=
  String "239" (String "189" (String "158" EmptyString)).
Definition grinning_face : string :=
  String "240" (String "159" (String "152" (String "128" EmptyString))).
Definition tilde_and_face : URLSearchParams.t :=
  [(fullwidth_tilde, "1"); (grinning_face, "2")].

(** The relation between two queries that the specification names: the
    same set of parameter names, each with the same first value. *)
Definition sameNamesAndFirstValues (params1 params2 : URLSearchParams.t) : Prop :=
  (∀ name, name ∈ URLSearchParams.keys params1 ↔ name ∈ URLSearchParams.keys params2) ∧
  (∀ name, URLSearchParams.get params1 name = URLSearchParams.get params2 name).


(** The concatenation of [/segment] for each segment. *)
Definition slashed (segments : list string) : string :=
  foldr (λ segment acc, "/" +:+ segment +:+ acc) "" segments.

(** A request that is not a preflight and finds no fresh entry under its
    cache key: the path that reaches the rate limiter. *)
Definition reachesRateLimiter (st : State) (req : Request) (currentTime : Z) : Prop :=
  method req ≠ "OPTIONS" ∧
  ∀ entry,
    responseCache st !! generateCacheKey (searchParams req) = Some entry →
    1000 < currentTime - timestamp entry.

(** The window of a client at [currentTime]: the stored one, or the one a
    first request opens. *)
Definition windowOf (st : State) (ip : string) (currentTime : Z) : RateData :=
  default {| count := 0; last := currentTime |} (rateLimitMap st !! ip).

(** The rate limiter run over a series of request times of one client:
    the final map and, per request, whether it was rejected. *)
Fixpoint rateLimitSeries (limits : gmap string RateData) (ip : string) (times : list Z)
  : gmap string RateData * list bool :=
  match times with
  | [] => (limits, [])
  | currentTime :: rest =>
      let '(limits', rejected) := rateLimit limits ip currentTime in
      let '(final, verdicts) := rateLimitSeries limits' ip rest in
      (final, rejected :: verdicts)
  end.

(** [obj[name]] on a payload. *)
Fixpoint field (obj : JSON.object) (name : string) : option JSON.value :=
  match obj with
  | [] => None
  | (k, x) :: rest => if decide (k = name) then Some x else field rest name
  end.

(** The handler answered from the cache: the stored payload of the
    request's key, and no state touched. *)
Definition servedFromCache (st : State) (req : Request) (result : State * Response) : Prop :=
  ∃ entry,
    responseCache st !! generateCacheKey (searchParams req) = Some entry ∧
    result = (st, successResponse (response entry)).

(** The state with the cache entry of one key removed. *)
Definition withoutEntry (st : State) (key : string) : State :=
  {| responseCache := delete key (responseCache st);
     rateLimitMap := rateLimitMap st;
     console := console st |}.

(** The states the handler can be in: the maps start empty and change
    through requests only. *)
Inductive reachable (v : Variant) : State → Prop :=
  | reachable_initial : reachable v initial
  | reachable_request st req currentTime tryTime :
      reachable v st → reachable v (onRequest v st req currentTime tryTime).1.

(** A body of the shape [{"error": message}]. *)
Definition isErrorBody (b : option string) : Prop :=
  ∃ message, b = Some (JSON.stringify [("error", JSON.JStr message)]).

(** A GET request with the given query from the given client. *)
Definition get_request (query : URLSearchParams.t) (ip : string) : Request :=
  {| method := "GET"; searchParams := query; cfConnectingIP := Some ip |}.

(** A state in which client 203.0.113.9 is far over the limit and a
    payload is cached under [timezone=Pacific/Auckland] at time 5000. *)
Definition busy : State :=
  {| responseCache :=
       {[ "timezone=Pacific/Auckland" :=
            {| response := [("timezone", JSON.JStr "Pacific/Auckland")]; timestamp := 5000 |} ]};
     rateLimitMap := {[ "203.0.113.9" := {| count := 500; last := 4000 |} ]};
     console := [] |}.

(** A request that passed the cache lookup and the rate limiter. *)
Definition admitted (st : State) (req : Request) (currentTime : Z) : Prop :=
  reachesRateLimiter st req currentTime ∧
  (rateLimit (rateLimitMap st) (clientIp req) currentTime).2 = false.

(** 2024-12-29T23:00:00Z, 2024-12-31T23:00:00Z and 2020-12-30T12:00:00Z
    as time values. *)
Definition sunday_evening_utc : Z := 1735513200000.
Definition new_years_eve_utc : Z := 1735686000000.
Definition late_december_2020 : Z := 1609329600000.

(** The parts of 12/30/2024, 12:00:00: the wall clock of
    [sunday_evening_utc] in Pacific/Auckland. *)
Definition monday_noon_parts : list (string * string) :=
  [("month", "12"); ("literal", "/"); ("day", "30"); ("literal", "/");
   ("year", "2024"); ("literal", ", "); ("hour", "12"); ("literal", ":");
   ("minute", "00"); ("literal", ":"); ("second", "00")].

(** The handlers the examples run: the Intl variant on the sample host and
    the extended variant on the sample renderings. *)
Definition intl_handler : Variant := IntlHandler.variant SampleHost.summer.
Definition extended_handler : Variant :=
  ExtendedHandler.variant ["Pacific/Auckland"; "UTC"] SampleHost.views.

Definition auckland_request : Request :=
  get_request [("timezone", "Pacific/Auckland")] "203.0.113.9".
Definition phobos_request : Request :=
  get_request [("timezone", "Mars/Phobos")] "203.0.113.9".
Definition utc_request : Request :=
  get_request [("timezone", "UTC")] "198.51.100.7".
(** [?timezone=]: the parameter is there, with the empty string as value. *)
Definition empty_request : Request :=
  get_request [("timezone", "")] "198.51.100.7".

(** The state after one successful request at time 5000. *)
Definition warm : State := (onRequest intl_handler initial auckland_request 5000 5001).1.

(** The handler over a series of requests, each with its two clock
    readings: the final state and the responses in order. *)
Fixpoint onRequests (v : Variant) (st : State) (calls : list (Request * Z * Z))
  : State * list Response :=
  match calls with
  | [] => (st, [])
  | (req, currentTime, tryTime) :: rest =>
      let '(st', resp) := onRequest v st req currentTime tryTime in
      let '(final, resps) := onRequests v st' rest in
      (final, resp :: resps)
  end.

(** The number a decimal numeral denotes, read left to right from [acc]. *)
Fixpoint numeral_value (s : string) (acc : Z) : Z :=
  match s with
  | EmptyString => acc
  | String c rest => numeral_value rest (10 * acc + (Z.of_nat (nat_of_ascii c) - 48))
  end.

(** ** Vocabulary of the further properties *)

(** Day number of January 1 of a year. *)
Definition january1 (y : Z) : Z := JSDate.days_from_civil y 1 1.

(** The year of a day number. *)
Definition yearOfDay (dayNumber : Z) : Z := (JSDate.civil_from_days dayNumber).1.1.

(** The week number [getISOWeekNumber] arrives at, as a function of the
    UTC instant alone: the ISO 8601 week of the UTC date, except in a week
    whose Friday is in the year after its Thursday, where it is 0. *)
Definition weekOfUtcDate (date : Z) : Z :=
  let dayNumber := JSDate.Day date in
  let thursday := dayNumber - Spec.weekdayFromMonday dayNumber + 3 in
  if bool_decide (yearOfDay (thursday + 1) = yearOfDay thursday)
  then (Spec.isoWeek (JSDate.YearFromTime date) (JSDate.MonthFromTime date + 1)
          (JSDate.DateFromTime date)).2
  else 0.

(** The string [getLocalISOString] builds for the wall-clock time value
    [w] and the offset [o] in minutes. *)
Definition localString (w o : Z) : string :=
  js_String (Num (JSDate.YearFromTime w)) +:+ "-"
  +:+ Spec.twoDigits (JSDate.MonthFromTime w + 1) +:+ "-"
  +:+ Spec.twoDigits (JSDate.DateFromTime w) +:+ "T"
  +:+ Spec.twoDigits (JSDate.HourFromTime w) +:+ ":"
  +:+ Spec.twoDigits (JSDate.MinFromTime w) +:+ ":"
  +:+ Spec.twoDigits (JSDate.SecFromTime w)
  +:+ (if bool_decide (0 ≤ o) then "+" else "-") +:+ Spec.twoDigits (Z.abs o `div` 60)
  +:+ ":" +:+ Spec.twoDigits (Z.abs o `mod` 60).

(** The [values] object [getTimezoneOffsetInMinutes] collects from the
    parts: the last value of each part type. *)
Definition partValues (parts : list (string * string)) : gmap string string :=
  foldl (λ acc part, <[part.1 := part.2]> acc) ∅ parts.

(** The parts carry the wall-clock reading [w], a time value, in the
    numeric two-digit style the formatter is asked for. *)
Definition rendersWallClock (parts : list (string * string)) (w : Z) : Prop :=
  partValues parts !! "year" = Some (decimal (JSDate.YearFromTime w)) ∧
  partValues parts !! "month" = Some (JSDate.pad 2 (JSDate.MonthFromTime w + 1)) ∧
  partValues parts !! "day" = Some (JSDate.pad 2 (JSDate.DateFromTime w)) ∧
  partValues parts !! "hour" = Some (JSDate.pad 2 (JSDate.HourFromTime w)) ∧
  partValues parts !! "minute" = Some (JSDate.pad 2 (JSDate.MinFromTime w)) ∧
  partValues parts !! "second" = Some (JSDate.pad 2 (JSDate.SecFromTime w)).

(** Requests for the further examples: a query without [timezone], the
    query [timezone=Pacific/Auckland&x=1], and the query whose one
    parameter [timezone] has the value [Pacific/Auckland&x=1]. *)
Definition bare_request : Request := get_request [] "203.0.113.9".
Definition two_parameter_request : Request :=
  get_request [("timezone", "Pacific/Auckland"); ("x", "1")] "203.0.113.9".
Definition ampersand_request : Request :=
  get_request [("timezone", "Pacific/Auckland&x=1")] "198.51.100.7".

(** 2024-12-29T23:00:00.123Z. *)
Definition sunday_evening_utc_123 : Z := 1735513200123.

(** The Friday of the Monday-to-Sunday week of a day is January 1: it is
    in the year after the week's Thursday. *)
Definition fridayStartsYear (dayNumber : Z) : Prop :=
  let thursday := dayNumber - Spec.weekdayFromMonday dayNumber + 3 in
  yearOfDay (thursday + 1) ≠ yearOfDay thursday.

(** Linear arithmetic with division and remainder by constants. *)
Ltac div_lia := Z.to_euclidean_division_equations; lia.

(** Comparisons of [N] computed as booleans, read as propositions. *)
Ltac conditions :=
  repeat match goal with
  | H : _ = true |- _ =>
      progress rewrite ?andb_true_iff, ?negb_true_iff, ?andb_false_iff,
        ?N.leb_le, ?N.leb_gt, ?N.ltb_lt, ?N.ltb_ge in H
  | H : _ = false |- _ =>
      progress rewrite ?andb_true_iff, ?negb_true_iff, ?andb_false_iff,
        ?N.leb_le, ?N.leb_gt, ?N.ltb_lt, ?N.ltb_ge in H
  end.
(** * Properties *)

(** ** Strings as code units *)

Module UTF16Facts.

Import UTF16.

Local Open Scope N_scope.

Lemma leb_refl (u : list N) : leb u u = true.
Proof.
  induction u as [|x u IH]; [done|]. cbn [leb].
  by rewrite N.eqb_refl, IH, orb_true_r.
Qed.

Lemma leb_cons (x y : N) (u v : list N) :
  leb (x :: u) (y :: v) = true ↔ x < y ∨ (x = y ∧ leb u v = true).
Proof.
  cbn [leb]. rewrite orb_true_iff, andb_true_iff, N.ltb_lt, N.eqb_eq. tauto.
Qed.

Lemma leb_total (u v : list N) : leb u v = true ∨ leb v u = true.
Proof.
  revert v. induction u as [|x u IH]; intros [|y v]; try (by left); try (by right).
  rewrite !leb_cons. destruct (IH v); destruct (N.lt_trichotomy x y) as [?|[?|?]]; auto.
Qed.

Lemma leb_trans (u v w : list N) : leb u v = true → leb v w = true → leb u w = true.
Proof.
  revert v w. induction u as [|x u IH]; intros [|y v] [|z w]; try done.
  rewrite !leb_cons. intros [?|[-> ?]] [?|[-> ?]]; [left; lia..|]. right. eauto.
Qed.

Lemma leb_antisym (u v : list N) : leb u v = true → leb v u = true → u = v.
Proof.
  revert v. induction u as [|x u IH]; intros [|y v]; try done.
  rewrite !leb_cons. intros [?|[-> ?]] [?|[? ?]]; try lia. f_equal. eauto.
Qed.

Lemma to_string_ascii (c : ascii) (rest : list N) :
  N_of_ascii c < 0x80 → to_string (N_of_ascii c :: rest) = String c (to_string rest).
Proof.
  intros Hc. cbn [to_string]. apply N.ltb_lt in Hc. rewrite Hc.
  by rewrite ascii_N_embedding.
Qed.

Lemma to_string_stray (c : ascii) (rest : list N) :
  0x80 ≤ N_of_ascii c →
  to_string (stray (N_of_ascii c) :: rest) = String c (to_string rest).
Proof.
  intros Hc. pose proof (N_ascii_bounded c) as Hbound. unfold stray. cbn [to_string].
  repeat (case_match; conditions; try lia).
  assert (0xDC00 + N_of_ascii c - 0xDC00 = N_of_ascii c) as -> by lia.
  by rewrite ascii_N_embedding.
Qed.

Lemma split_at (a b q r : N) : r < b → a = b * q + r → a / b = q ∧ a mod b = r.
Proof.
  intros Hr Ha. split; symmetry.
  - by apply (N.div_unique a b q r).
  - by apply (N.mod_unique a b q r).
Qed.

Lemma two_bytes_back (b0 b1 : N) :
  0xC0 ≤ b0 → 0x80 ≤ b1 ≤ 0xBF →
  let cp := (b0 - 0xC0) * 0x40 + (b1 - 0x80) in
  0xC0 + cp / 0x40 = b0 ∧ 0x80 + cp mod 0x40 = b1.
Proof.
  intros H0 H1 cp.
  destruct (split_at cp 0x40 (b0 - 0xC0) (b1 - 0x80)) as [-> ->]; unfold cp; lia.
Qed.

Lemma three_bytes_back (b0 b1 b2 : N) :
  0xE0 ≤ b0 → 0x80 ≤ b1 ≤ 0xBF → 0x80 ≤ b2 ≤ 0xBF →
  let cp := (b0 - 0xE0) * 0x1000 + (b1 - 0x80) * 0x40 + (b2 - 0x80) in
  0xE0 + cp / 0x1000 = b0 ∧ 0x80 + cp / 0x40 mod 0x40 = b1 ∧ 0x80 + cp mod 0x40 = b2.
Proof.
  intros H0 H1 H2 cp.
  destruct (split_at cp 0x1000 (b0 - 0xE0) ((b1 - 0x80) * 0x40 + (b2 - 0x80)))
    as [-> _]; [unfold cp; lia..|].
  destruct (split_at cp 0x40 ((b0 - 0xE0) * 0x40 + (b1 - 0x80)) (b2 - 0x80))
    as [-> ->]; [unfold cp; lia..|].
  destruct (split_at ((b0 - 0xE0) * 0x40 + (b1 - 0x80)) 0x40 (b0 - 0xE0) (b1 - 0x80))
    as [_ ->]; lia.
Qed.

Lemma four_bytes_back (b0 b1 b2 b3 : N) :
  0xF0 ≤ b0 → 0x80 ≤ b1 ≤ 0xBF → 0x80 ≤ b2 ≤ 0xBF → 0x80 ≤ b3 ≤ 0xBF →
  let cp := (b0 - 0xF0) * 0x40000 + (b1 - 0x80) * 0x1000 + (b2 - 0x80) * 0x40 + (b3 - 0x80) in
  0xF0 + cp / 0x40000 = b0 ∧ 0x80 + cp / 0x1000 mod 0x40 = b1 ∧
  0x80 + cp / 0x40 mod 0x40 = b2 ∧ 0x80 + cp mod 0x40 = b3.
Proof.
  intros H0 H1 H2 H3 cp.
  destruct (split_at cp 0x40000 (b0 - 0xF0)
              ((b1 - 0x80) * 0x1000 + (b2 - 0x80) * 0x40 + (b3 - 0x80)))
    as [-> _]; [unfold cp; lia..|].
  destruct (split_at cp 0x1000 ((b0 - 0xF0) * 0x40 + (b1 - 0x80))
              ((b2 - 0x80) * 0x40 + (b3 - 0x80)))
    as [-> _]; [unfold cp; lia..|].
  destruct (split_at cp 0x40
              ((b0 - 0xF0) * 0x1000 + (b1 - 0x80) * 0x40 + (b2 - 0x80)) (b3 - 0x80))
    as [-> ->]; [unfold cp; lia..|].
  destruct (split_at ((b0 - 0xF0) * 0x40 + (b1 - 0x80)) 0x40 (b0 - 0xF0) (b1 - 0x80))
    as [_ ->]; [lia..|].
  destruct (split_at ((b0 - 0xF0) * 0x1000 + (b1 - 0x80) * 0x40 + (b2 - 0x80)) 0x40
              ((b0 - 0xF0) * 0x40 + (b1 - 0x80)) (b2 - 0x80))
    as [_ ->]; lia.
Qed.

Lemma surrogates_back (cp : N) :
  0x10000 ≤ cp ≤ 0x10FFFF →
  let hi := 0xD800 + (cp - 0x10000) / 0x400 in
  let lo := 0xDC00 + (cp - 0x10000) mod 0x400 in
  0xD800 ≤ hi ≤ 0xDBFF ∧ 0xDC00 ≤ lo ≤ 0xDFFF ∧
  0x10000 + (hi - 0xD800) * 0x400 + (lo - 0xDC00) = cp.
Proof.
  intros Hcp hi lo. unfold hi, lo. clear hi lo.
  pose proof (N.div_mod (cp - 0x10000) 0x400 ltac:(done)) as Hsplit.
  pose proof (N.mod_lt (cp - 0x10000) 0x400 ltac:(done)) as Hlow.
  set (q := (cp - 0x10000) / 0x400) in *. set (r := (cp - 0x10000) mod 0x400) in *.
  lia.
Qed.

Lemma to_string_two (c0 c1 : ascii) (cp : N) (rest : list N) :
  two_bytes (N_of_ascii c0) (N_of_ascii c1) = Some cp →
  to_string (cp :: rest) = String c0 (String c1 (to_string rest)).
Proof.
  unfold two_bytes, continuation. cbv zeta. intros Htwo.
  case_match; [|done]. injection Htwo as <-. conditions.
  destruct (two_bytes_back (N_of_ascii c0) (N_of_ascii c1)) as [Hb0 Hb1]; [lia..|].
  pose proof (N_ascii_bounded c1).
  set (cp := (N_of_ascii c0 - 0xC0) * 0x40 + (N_of_ascii c1 - 0x80)) in *.
  assert (cp < 0x800) by (unfold cp; lia).
  cbn [to_string].
  repeat (case_match; conditions; try lia).
  by rewrite Hb0, Hb1, !ascii_N_embedding.
Qed.

Lemma to_string_three (c0 c1 c2 : ascii) (cp : N) (rest : list N) :
  three_bytes (N_of_ascii c0) (N_of_ascii c1) (N_of_ascii c2) = Some cp →
  to_string (cp :: rest) = String c0 (String c1 (String c2 (to_string rest))).
Proof.
  unfold three_bytes, continuation. cbv zeta. intros Hthree.
  case_match; [|done]. injection Hthree as <-. conditions.
  destruct (three_bytes_back (N_of_ascii c0) (N_of_ascii c1) (N_of_ascii c2))
    as (Hb0 & Hb1 & Hb2); [lia..|].
  set (cp := (N_of_ascii c0 - 0xE0) * 0x1000 + (N_of_ascii c1 - 0x80) * 0x40
             + (N_of_ascii c2 - 0x80)) in *.
  cbn [to_string].
  repeat (case_match; conditions; try lia).
  all: by rewrite Hb0, Hb1, Hb2, !ascii_N_embedding.
Qed.

Lemma to_string_four (c0 c1 c2 c3 : ascii) (cp : N) (rest : list N) :
  four_bytes (N_of_ascii c0) (N_of_ascii c1) (N_of_ascii c2) (N_of_ascii c3) = Some cp →
  to_string (surrogates cp ++ rest)
  = String c0 (String c1 (String c2 (String c3 (to_string rest)))).
Proof.
  unfold four_bytes, continuation. cbv zeta. intros Hfour.
  case_match; [|done]. injection Hfour as <-. conditions.
  destruct (four_bytes_back (N_of_ascii c0) (N_of_ascii c1) (N_of_ascii c2) (N_of_ascii c3))
    as (Hb0 & Hb1 & Hb2 & Hb3); [lia..|].
  set (cp := (N_of_ascii c0 - 0xF0) * 0x40000 + (N_of_ascii c1 - 0x80) * 0x1000
             + (N_of_ascii c2 - 0x80) * 0x40 + (N_of_ascii c3 - 0x80)) in *.
  destruct (surrogates_back cp) as (Hhi & Hlo & Hcp); [lia|].
  unfold surrogates. cbn [app to_string]. cbv zeta.
  set (hi := 0xD800 + (cp - 0x10000) / 0x400) in *.
  set (lo := 0xDC00 + (cp - 0x10000) mod 0x400) in *.
  repeat (case_match; conditions; try lia).
  by rewrite Hcp, Hb0, Hb1, Hb2, Hb3, !ascii_N_embedding.
Qed.

(** Reading the code units and writing them back gives the bytes again. *)
Lemma to_string_code_units_bounded (n : nat) (s : string) :
  (String.length s ≤ n)%nat → to_string (code_units s) = s.
Proof.
  revert s. induction n as [|n IH]; intros s Hlen.
  { destruct s; [done|]. simpl in Hlen. lia. }
  destruct s as [|c0 s1]; [done|]. cbn [String.length] in Hlen.
  cbn [UTF16.code_units]. cbv zeta.
  destruct (N.ltb_spec (N_of_ascii c0) 0x80) as [Hlow|Hhigh].
  { rewrite to_string_ascii by done. rewrite IH; [done|lia]. }
  assert (to_string (stray (N_of_ascii c0) :: code_units s1) = String c0 s1) as Hstray.
  { rewrite to_string_stray by done. rewrite IH; [done|lia]. }
  destruct s1 as [|c1 s2]; [by rewrite to_string_stray|].
  cbn [String.length] in Hlen.
  destruct (two_bytes _ _) as [cp|] eqn:Htwo.
  { rewrite (to_string_two _ _ _ _ Htwo). rewrite IH; [done|lia]. }
  destruct s2 as [|c2 s3]; [done|]. cbn [String.length] in Hlen.
  destruct (three_bytes _ _ _) as [cp|] eqn:Hthree.
  { rewrite (to_string_three _ _ _ _ _ Hthree). rewrite IH; [done|lia]. }
  destruct s3 as [|c3 s4]; [done|]. cbn [String.length] in Hlen.
  destruct (four_bytes _ _ _ _) as [cp|] eqn:Hfour; [|done].
  rewrite (to_string_four _ _ _ _ _ _ Hfour). rewrite IH; [done|lia].
Qed.

Lemma to_string_code_units (s : string) : to_string (code_units s) = s.
Proof. by apply (to_string_code_units_bounded (String.length s)). Qed.

Lemma code_units_inj (a b : string) : code_units a = code_units b → a = b.
Proof.
  intros Heq. by rewrite <-(to_string_code_units a), <-(to_string_code_units b), Heq.
Qed.

(** A byte of 0x80 and above is read as a code unit of 0x80 and above. *)
Lemma code_units_high (c : ascii) (s : string) :
  0x80 ≤ N_of_ascii c →
  ∃ x rest, code_units (String c s) = x :: rest ∧ 0x80 ≤ x.
Proof.
  intros Hhigh. cbn [UTF16.code_units]. cbv zeta.
  rewrite (proj2 (N.ltb_ge _ _)) by done.
  assert (0x80 ≤ stray (N_of_ascii c)) by (unfold stray; lia).
  destruct s as [|c1 s2]; [by eauto|].
  destruct (two_bytes _ _) as [cp|] eqn:Htwo.
  { unfold two_bytes in Htwo. cbv zeta in Htwo. case_match; [|done].
    injection Htwo as <-. conditions. eexists _, _. split; [done|]. lia. }
  destruct s2 as [|c2 s3]; [by eauto|].
  destruct (three_bytes _ _ _) as [cp|] eqn:Hthree.
  { unfold three_bytes in Hthree. cbv zeta in Hthree. case_match; [|done].
    injection Hthree as <-. conditions. eexists _, _. split; [done|]. lia. }
  destruct s3 as [|c3 s4]; [by eauto|].
  destruct (four_bytes _ _ _ _) as [cp|] eqn:Hfour; [|by eauto].
  unfold surrogates. cbn [app]. eexists _, _. split; [done|].
  etrans; [|apply N.le_add_r]. lia.
Qed.

End UTF16Facts.

#[export] Instance code_unit_le_total : Total code_unit_le.
Proof. intros a b. apply UTF16Facts.leb_total. Qed.

#[export] Instance code_unit_le_trans : Transitive code_unit_le.
Proof. intros a b c. apply UTF16Facts.leb_trans. Qed.

#[export] Instance code_unit_le_antisym : AntiSymm (=) code_unit_le.
Proof. intros a b Hab Hba. by apply UTF16Facts.code_units_inj, UTF16Facts.leb_antisym. Qed.

(** Against a text of ASCII characters the order by bytes and the order by
    code units agree. *)
Lemma code_unit_le_ascii (s k : string) :
  Forall (λ c, (N_of_ascii c < 0x80)%N) (String.list_ascii_of_string s) →
  String.le s k → code_unit_le s k.
Proof.
  unfold code_unit_le, String.le, String.leb.
  revert k. induction s as [|a s IH]; intros k Hascii Hle; [done|].
  cbn [String.list_ascii_of_string] in Hascii.
  apply Forall_cons in Hascii as [Ha Hascii].
  destruct k as [|c k]; [done|].
  cbn [String.compare] in Hle.
  unfold Ascii.compare in Hle.
  destruct (N.ltb_spec (N_of_ascii c) 0x80) as [Hc|Hc].
  - cbn [UTF16.code_units]. cbv zeta.
    rewrite !(proj2 (N.ltb_lt _ _)) by done.
    apply UTF16Facts.leb_cons.
    destruct (N.compare_spec (N_of_ascii a) (N_of_ascii c)) as [Heq|Hlt|Hgt]; [|by left|done].
    right. split; [done|]. by apply IH.
  - destruct (UTF16Facts.code_units_high c k Hc) as (x & rest & -> & Hx).
    cbn [UTF16.code_units]. cbv zeta. rewrite (proj2 (N.ltb_lt _ _)) by done.
    apply UTF16Facts.leb_cons. left. lia.
Qed.

(** ** The cache key *)

Section CacheKey.

Implicit Types params : URLSearchParams.t.

Lemma js_sort_permutation (l1 l2 : list string) :
  l1 ≡ₚ l2 → js_sort l1 = js_sort l2.
Proof.
  intros Hperm. unfold js_sort.
  apply (Sorted_unique code_unit_le); try apply Sorted_merge_sort; try apply _.
  by rewrite !merge_sort_Permutation.
Qed.

Lemma js_sort_sorted (l : list string) :
  StronglySorted code_unit_le (js_sort l) ∧ js_sort l ≡ₚ l.
Proof.
  split; [apply StronglySorted_merge_sort; apply _ | apply merge_sort_Permutation].
Qed.

(** U+FF5E is one code unit, U+1F600 a surrogate pair; by code units
    the second comes first, by bytes the first. *)
Example code_units_tilde_and_face :
  UTF16.code_units fullwidth_tilde = [0xFF5E%N] ∧
  UTF16.code_units grinning_face = [0xD83D%N; 0xDE00%N] ∧
  code_unit_le grinning_face fullwidth_tilde ∧
  ¬ code_unit_le fullwidth_tilde grinning_face ∧
  String.le fullwidth_tilde grinning_face.
Proof. split_and!; [by vm_compute..| |done]. by vm_compute. Qed.

(** The key of [?%EF%BD%9E=1&%F0%9F%98%80=2] lists U+1F600 first. *)
Example generateCacheKey_tilde_and_face :
  generateCacheKey tilde_and_face = grinning_face +:+ "=2&" +:+ fullwidth_tilde +:+ "=1".
Proof. by vm_compute. Qed.

Lemma get_is_Some params (name : string) :
  name ∈ URLSearchParams.keys params → is_Some (URLSearchParams.get params name).
Proof.
  induction params as [|[k v] rest IH]; simpl.
  - by intros ?%elem_of_nil.
  - intros [->|Hin]%elem_of_cons; case_decide; eauto; done.
Qed.

(** C5, as stated, fails: [?a=1] and [?a=1&a=2] carry the same set of
    parameter names with the same first values, yet their keys differ,
    because a repeated name is listed once per occurrence. *)
Lemma generateCacheKey_repeated_name_counterexample :
  sameNamesAndFirstValues single_a repeated_a ∧
  generateCacheKey single_a = "a=1" ∧
  generateCacheKey repeated_a = "a=1&a=1" ∧
  generateCacheKey single_a ≠ generateCacheKey repeated_a.
Proof.
  split; [split|].
  - intros name. unfold single_a, repeated_a. simpl.
    rewrite !elem_of_cons, elem_of_nil. tauto.
  - intros name. unfold single_a, repeated_a. simpl. by case_decide.
  - by vm_compute.
Qed.

Lemma generateCacheKey_permutation params1 params2 :
  URLSearchParams.keys params1 ≡ₚ URLSearchParams.keys params2 →
  (∀ name, URLSearchParams.get params1 name = URLSearchParams.get params2 name) →
  generateCacheKey params1 = generateCacheKey params2.
Proof.
  intros Hperm Hget.
  unfold generateCacheKey. rewrite (js_sort_permutation _ _ Hperm).
  f_equal. apply list_fmap_ext. intros _ key _. by rewrite Hget.
Qed.

(** C5, amended: for every two queries whose lists of parameter names are
    permutations of one another (the same names, each as many times) and
    that give every name the same first value, [generateCacheKey] produces
    identical keys; the key is the names, repeats included, sorted
    lexicographically (by UTF-16 code units, the order of the default
    sort), each joined to its first value as [name=value], concatenated
    with [&]. *)
Theorem generateCacheKey_order_independent params1 params2 :
  URLSearchParams.keys params1 ≡ₚ URLSearchParams.keys params2 →
  (∀ name, URLSearchParams.get params1 name = URLSearchParams.get params2 name) →
  generateCacheKey params1 = generateCacheKey params2 ∧
  ∃ names values,
    names ≡ₚ URLSearchParams.keys params1 ∧
    StronglySorted code_unit_le names ∧
    Forall2 (λ name value, URLSearchParams.get params1 name = Some value) names values ∧
    generateCacheKey params1
    = js_join "&" (zip_with (λ name value, name +:+ "=" +:+ value) names values).
Proof.
  intros Hperm Hget. split.
  - by apply generateCacheKey_permutation.
  - destruct (js_sort_sorted (URLSearchParams.keys params1)) as [Hsorted Hsame].
    exists (js_sort (URLSearchParams.keys params1)),
      ((λ key, template_of_nullable (URLSearchParams.get params1 key))
         <$> js_sort (URLSearchParams.keys params1)).
    split; [done|]. split; [done|]. split.
    + rewrite Forall2_fmap_r. apply Forall_Forall2_diag, Forall_forall.
      intros key Hkey. rewrite Hsame in Hkey.
      destruct (get_is_Some _ _ Hkey) as [value Hvalue].
      simpl. by rewrite Hvalue.
    + unfold generateCacheKey. f_equal.
      generalize (js_sort (URLSearchParams.keys params1)) as l.
      induction l as [|key l IH]; simpl; [done|]. by f_equal.
Qed.

(** The theorem at [?timezone=A&format=B] and [?format=B&timezone=A]. *)
Lemma generateCacheKey_order_independent_witness :
  generateCacheKey [("timezone", "A"); ("format", "B")]
  = generateCacheKey [("format", "B"); ("timezone", "A")].
Proof.
  apply (generateCacheKey_order_independent
           [("timezone", "A"); ("format", "B")] [("format", "B"); ("timezone", "A")]).
  - simpl. apply Permutation_swap.
  - intros name. simpl. repeat case_decide; congruence.
Defined.

(** Without repeated names, the same set of names suffices. *)
Lemma generateCacheKey_same_set params1 params2 :
  NoDup (URLSearchParams.keys params1) →
  NoDup (URLSearchParams.keys params2) →
  sameNamesAndFirstValues params1 params2 →
  generateCacheKey params1 = generateCacheKey params2.
Proof.
  intros Hnd1 Hnd2 [Hnames Hvalues].
  apply generateCacheKey_permutation; [|done].
  by apply NoDup_Permutation.
Qed.

End CacheKey.

(** ** Decimal numerals and padding *)

Section Numerals.

Lemma decimal_digits_length_ge (fuel : nat) (n : Z) (acc : string) :
  (String.length acc ≤ String.length (decimal_digits fuel n acc))%nat.
Proof.
  revert n acc. induction fuel as [|fuel IH]; intros n acc; simpl; [lia|].
  case_bool_decide; simpl; [lia|].
  etrans; [|apply IH]. simpl. lia.
Qed.

Lemma digit_char_value (d : Z) :
  0 ≤ d < 10 → Z.of_nat (nat_of_ascii (digit_char d)) - 48 = d.
Proof.
  intros Hd. unfold digit_char. rewrite nat_ascii_embedding by lia. lia.
Qed.

(** The fuel of [decimal] is enough: the numeral denotes the number. *)
Lemma decimal_digits_value (fuel : nat) :
  ∀ (n : Z) (acc : string) (a : Z),
    0 ≤ n < 2 ^ Z.of_nat fuel →
    ∃ k, 0 ≤ k ∧
         numeral_value (decimal_digits fuel n acc) a = numeral_value acc (a * 10 ^ k + n).
Proof.
  induction fuel as [|fuel IH]; intros n acc a Hn.
  - exists 0. split; [done|]. simpl in *. f_equal. lia.
  - simpl decimal_digits. case_bool_decide as Hsmall.
    + exists 1. split; [lia|]. simpl numeral_value.
      rewrite Z.mod_small, digit_char_value by lia. f_equal. lia.
    + destruct (IH (n `div` 10) (String (digit_char (n `mod` 10)) acc) a) as (k & Hk & ->).
      { split; [apply Z.div_pos; lia|].
        apply Z.div_lt_upper_bound; [lia|].
        rewrite Nat2Z.inj_succ, Z.pow_succ_r in Hn by lia. lia. }
      exists (k + 1). split; [lia|]. simpl numeral_value.
      rewrite digit_char_value by (apply Z.mod_pos_bound; lia).
      f_equal. rewrite Z.pow_add_r by lia.
      pose proof (Z.div_mod n 10). lia.
Qed.

Lemma decimal_value (n : Z) : 0 ≤ n → numeral_value (decimal n) 0 = n.
Proof.
  intros Hn. unfold decimal.
  destruct (decimal_digits_value (S (Z.to_nat (Z.log2 n))) n "" 0) as (k & _ & ->).
  - split; [done|]. destruct (decide (n = 0)) as [->|Hne]; [done|].
    rewrite Nat2Z.inj_succ, Z2Nat.id by apply Z.log2_nonneg.
    apply Z.log2_spec. lia.
  - simpl. lia.
Qed.

Lemma decimal_digits_step (fuel : nat) (n : Z) (acc : string) :
  decimal_digits (S fuel) n acc
  = if bool_decide (n < 10) then String (digit_char (n `mod` 10)) acc
    else decimal_digits fuel (n `div` 10) (String (digit_char (n `mod` 10)) acc).
Proof. done. Qed.

Lemma decimal_digits_length_gt (fuel : nat) (n : Z) (acc : string) :
  (S (String.length acc) ≤ String.length (decimal_digits (S fuel) n acc))%nat.
Proof.
  rewrite decimal_digits_step. case_bool_decide; simpl; [lia|].
  etrans; [|apply decimal_digits_length_ge]. simpl. lia.
Qed.

Lemma decimal_one_digit (n : Z) :
  0 ≤ n < 10 → decimal n = String (digit_char n) "".
Proof.
  intros Hn. unfold decimal. simpl.
  rewrite bool_decide_eq_true_2 by lia.
  by rewrite Z.mod_small by lia.
Qed.

Lemma decimal_two_digits (n : Z) :
  10 ≤ n < 100 →
  decimal n = String (digit_char (n `div` 10)) (String (digit_char (n `mod` 10)) "").
Proof.
  intros Hn. unfold decimal.
  assert (3 ≤ Z.log2 n) as Hlog by (apply Z.log2_le_pow2; lia).
  destruct (Z.to_nat (Z.log2 n)) as [|fuel] eqn:Hfuel; [lia|].
  simpl. rewrite bool_decide_eq_false_2 by lia.
  rewrite bool_decide_eq_true_2 by (apply Z.div_lt_upper_bound; lia).
  rewrite (Z.mod_small (n `div` 10)); [done|].
  split; [apply Z.div_pos; lia | apply Z.div_lt_upper_bound; lia].
Qed.

Lemma decimal_long (n : Z) :
  10 ≤ n → (2 ≤ String.length (decimal n))%nat.
Proof.
  intros Hn. unfold decimal.
  assert (3 ≤ Z.log2 n) as Hlog by (apply Z.log2_le_pow2; lia).
  destruct (Z.to_nat (Z.log2 n)) as [|fuel] eqn:Hfuel; [lia|].
  rewrite decimal_digits_step, bool_decide_eq_false_2 by lia.
  etrans; [|apply decimal_digits_length_gt]. simpl. lia.
Qed.

Lemma padStart_two_zero (n : Z) :
  0 ≤ n → padStart (decimal n) 2 "0" = Spec.twoDigits n.
Proof.
  intros Hn. unfold Spec.twoDigits. case_bool_decide as Hsmall.
  - by rewrite decimal_one_digit by lia.
  - unfold padStart. by rewrite bool_decide_eq_true_2 by (apply decimal_long; lia).
Qed.

Lemma js_String_nonneg (n : Z) : 0 ≤ n → js_String (Num n) = decimal n.
Proof. intros Hn. unfold js_String. by rewrite bool_decide_eq_false_2 by lia. Qed.

(** Below a hundred, zero-padding to two digits is the tens digit followed
    by the units digit. *)
Lemma twoDigits_below_hundred (n : Z) :
  0 ≤ n < 100 →
  Spec.twoDigits n
  = String (digit_char (n `div` 10)) (String (digit_char (n `mod` 10)) "").
Proof.
  intros Hn. unfold Spec.twoDigits. case_bool_decide.
  - rewrite decimal_one_digit by lia.
    by rewrite Z.div_small, Z.mod_small by lia.
  - apply decimal_two_digits. lia.
Qed.

End Numerals.

(** ** The offset display string *)

(** C6: for every integer offset in minutes, [calculateUTCOffset] returns
    [UTC], then [+] when the offset is at least 0 and [-] otherwise, then
    floor(|offset| / 60) zero-padded to two digits, a colon, and
    |offset| mod 60 zero-padded to two digits; in the Intl variant, where
    the offset comes from [getTimezoneOffsetInMinutes], and in the basic
    luxon variant, where it is the [offset] of the zoned [DateTime]. *)
Theorem calculateUTCOffset_display (offset : Z) :
  formatUTCOffset (Num offset) = Spec.utcOffsetDisplay offset ∧
  (∀ host date timezone,
     IntlVariant.getTimezoneOffsetInMinutes host date timezone = Some (Num offset) →
     IntlVariant.calculateUTCOffset host date timezone = Some (Spec.utcOffsetDisplay offset)) ∧
  (∀ lx date timezone,
     Luxon.offset lx (Luxon.fromJSDate date timezone) = Num offset →
     BasicHandler.calculateUTCOffset lx date timezone = Spec.utcOffsetDisplay offset).
Proof.
  assert (formatUTCOffset (Num offset) = Spec.utcOffsetDisplay offset) as Hformat.
  { unfold formatUTCOffset, Spec.utcOffsetDisplay.
    unfold Math_abs, Math_floor_div, js_rem, num_map, num_geb.
    rewrite Z.rem_mod_nonneg by lia.
    rewrite !js_String_nonneg
      by (try apply Z.div_pos; try apply Z.mod_pos_bound; lia).
    rewrite !padStart_two_zero
      by (try apply Z.div_pos; try apply Z.mod_pos_bound; lia).
    done. }
  split; [done|]. split.
  - intros host date timezone Hoffset.
    unfold IntlVariant.calculateUTCOffset. rewrite Hoffset. simpl. by rewrite Hformat.
  - intros lx date timezone Hoffset.
    unfold BasicHandler.calculateUTCOffset. by rewrite Hoffset.
Qed.

(** Thirteen hours east and nine and a half hours west. *)
Example calculateUTCOffset_samples :
  IntlVariant.calculateUTCOffset SampleHost.summer 1735513200000 "Pacific/Auckland"
  = Some "UTC+13:00" ∧
  formatUTCOffset (Num (-570)) = "UTC-09:30".
Proof. by vm_compute. Qed.

(** ** The derivative matcher decides the language *)

Module RegexFacts.

Import Regex.

Lemma app_nil_l (s : string) : "" +:+ s = s.
Proof. done. Qed.

Lemma app_cons (c : ascii) (s1 s2 : string) :
  String c s1 +:+ s2 = String c (s1 +:+ s2).
Proof. done. Qed.

Lemma app_nil_r (s : string) : s +:+ "" = s.
Proof. induction s as [|c s IH]; [done|]. by rewrite app_cons, IH. Qed.

Lemma app_assoc (s1 s2 s3 : string) : (s1 +:+ s2) +:+ s3 = s1 +:+ (s2 +:+ s3).
Proof. induction s1 as [|c s1 IH]; [done|]. by rewrite !app_cons, IH. Qed.

Lemma app_eq_nil (s1 s2 : string) : s1 +:+ s2 = "" → s1 = "" ∧ s2 = "".
Proof. destruct s1; [done|]. by rewrite app_cons. Qed.

Lemma Lang_Void s : Lang Void s ↔ False.
Proof. split; [inversion 1 | done]. Qed.

Lemma Lang_Eps s : Lang Eps s ↔ s = "".
Proof. split; [by inversion 1 | intros ->; constructor]. Qed.

Lemma Lang_Class p s : Lang (Class p) s ↔ ∃ c, s = String c "" ∧ p c = true.
Proof.
  split.
  - inversion 1; subst. eauto.
  - intros (c & -> & Hc). by constructor.
Qed.

Lemma Lang_Alt r1 r2 s : Lang (Alt r1 r2) s ↔ Lang r1 s ∨ Lang r2 s.
Proof.
  split.
  - inversion 1; subst; auto.
  - intros [H|H]; [by apply LAltL | by apply LAltR].
Qed.

Lemma Lang_Seq r1 r2 s :
  Lang (Seq r1 r2) s ↔ ∃ s1 s2, s = s1 +:+ s2 ∧ Lang r1 s1 ∧ Lang r2 s2.
Proof.
  split.
  - inversion 1; subst. eauto.
  - intros (s1 & s2 & -> & H1 & H2). by constructor.
Qed.

Lemma Lang_Star_cons r c s :
  Lang (Star r) (String c s) ↔
  ∃ s1 s2, s = s1 +:+ s2 ∧ Lang r (String c s1) ∧ Lang (Star r) s2.
Proof.
  split.
  - intros H. remember (Star r) as sr eqn:Hsr. remember (String c s) as w eqn:Hw.
    revert s Hw Hsr.
    induction H as [| | | | | |r' s1 s2 H1 _ H2 IH2]; intros w Hw Hsr; try done.
    simplify_eq. destruct s1 as [|c1 s1].
    + rewrite app_nil_l in Hw. by apply IH2.
    + rewrite app_cons in Hw. simplify_eq. eauto.
  - intros (s1 & s2 & -> & H1 & H2). rewrite <-app_cons. by constructor.
Qed.

Lemma nullable_Lang r : nullable r = true ↔ Lang r "".
Proof.
  induction r as [| |p|r1 IH1 r2 IH2|r1 IH1 r2 IH2|r IH]; simpl.
  - by rewrite Lang_Void.
  - by rewrite Lang_Eps.
  - rewrite Lang_Class. split; [done|]. by intros (c & ? & _).
  - rewrite orb_true_iff, Lang_Alt. tauto.
  - rewrite andb_true_iff, Lang_Seq, IH1, IH2. split.
    + intros [H1 H2]. exists "", "". done.
    + intros (s1 & s2 & Hs & H1 & H2).
      symmetry in Hs. apply app_eq_nil in Hs as [-> ->]. done.
  - split; [constructor | done].
Qed.

Lemma deriv_Lang c r s : Lang (deriv c r) s ↔ Lang r (String c s).
Proof.
  revert s. induction r as [| |p|r1 IH1 r2 IH2|r1 IH1 r2 IH2|r IH]; intros s; simpl.
  - by rewrite !Lang_Void.
  - rewrite Lang_Void, Lang_Eps. done.
  - rewrite Lang_Class. destruct (p c) eqn:Hp.
    + rewrite Lang_Eps. split.
      * intros ->. eauto.
      * intros (c' & ? & _). by simplify_eq.
    + rewrite Lang_Void. split; [done|].
      intros (c' & ? & Hp'). simplify_eq. congruence.
  - by rewrite !Lang_Alt, IH1, IH2.
  - assert (Lang (Seq (deriv c r1) r2) s ↔
            ∃ s1 s2, s = s1 +:+ s2 ∧ Lang r1 (String c s1) ∧ Lang r2 s2) as Hleft.
    { rewrite Lang_Seq. by setoid_rewrite IH1. }
    rewrite (Lang_Seq r1 r2). destruct (nullable r1) eqn:Hnull.
    + rewrite Lang_Alt, Hleft, IH2. split.
      * intros [(s1 & s2 & -> & H1 & H2)|H2].
        -- exists (String c s1), s2. done.
        -- apply nullable_Lang in Hnull. exists "", (String c s). done.
      * intros (s1 & s2 & Hs & H1 & H2). destruct s1 as [|c1 s1].
        -- rewrite app_nil_l in Hs. subst s2. by right.
        -- rewrite app_cons in Hs. simplify_eq. left. eauto.
    + rewrite Hleft. split.
      * intros (s1 & s2 & -> & H1 & H2). exists (String c s1), s2. done.
      * intros (s1 & s2 & Hs & H1 & H2). destruct s1 as [|c1 s1].
        -- apply nullable_Lang in H1. congruence.
        -- rewrite app_cons in Hs. simplify_eq. eauto.
  - rewrite Lang_Star_cons, Lang_Seq. by setoid_rewrite IH.
Qed.

(** [test] accepts exactly the language of the expression. *)
Lemma test_Lang r s : test r s = true ↔ Lang r s.
Proof.
  revert r. induction s as [|c s IH]; intros r; simpl.
  - apply nullable_Lang.
  - by rewrite IH, deriv_Lang.
Qed.

End RegexFacts.

(** ** The structural pattern accepts [Region/City(/Subregion)*] *)

Module PatternFacts.

Import Regex RegexFacts.

Lemma Lang_Star r s :
  Lang (Star r) s ↔ ∃ parts, Forall (Lang r) parts ∧ s = foldr String.append "" parts.
Proof.
  split.
  - intros H. remember (Star r) as sr eqn:Hsr. revert Hsr.
    induction H as [| | | | |r'|r' s1 s2 H1 _ H2 IH2]; intros Hsr; try done.
    + by exists [].
    + simplify_eq. destruct IH2 as (parts & Hparts & ->); [done|].
      exists (s1 :: parts). split; [by constructor | done].
  - intros (parts & Hparts & ->).
    induction Hparts as [|part parts Hpart _ IH]; simpl; [constructor|].
    by constructor.
Qed.

Lemma Lang_Star_Class p s :
  Lang (Star (Class p)) s ↔
  Forall (λ c, p c = true) (String.list_ascii_of_string s).
Proof.
  rewrite Lang_Star. split.
  - intros (parts & Hparts & ->).
    induction Hparts as [|part parts Hpart _ IH]; simpl; [constructor|].
    apply Lang_Class in Hpart as (c & -> & Hc). rewrite app_cons, app_nil_l.
    simpl. by constructor.
  - induction s as [|c s IH]; simpl.
    + intros _. by exists [].
    + intros [Hc Hs]%Forall_cons. destruct (IH Hs) as (parts & Hparts & ->).
      exists (String c "" :: parts). split; [|done].
      constructor; [|done]. apply Lang_Class. eauto.
Qed.

Lemma Lang_word s :
  Lang (Plus (Class letter_or_underscore)) s ↔ Spec.isSegment s.
Proof.
  unfold Plus, Spec.isSegment. rewrite Lang_Seq. split.
  - intros (s1 & s2 & -> & (c & -> & Hc)%Lang_Class & Hs2%Lang_Star_Class).
    rewrite app_cons, app_nil_l. split; [done|]. simpl. by constructor.
  - intros [Hne Hall]. destruct s as [|c s]; [done|].
    simpl in Hall. apply Forall_cons in Hall as [Hc Hs].
    exists (String c ""), s. split; [done|]. split.
    + apply Lang_Class. eauto.
    + by apply Lang_Star_Class.
Qed.

Lemma Lang_slash s : Lang (Chr "/") s ↔ s = "/".
Proof.
  unfold Chr. rewrite Lang_Class. split.
  - intros (c & -> & Hc). apply bool_decide_eq_true in Hc. by subst.
  - intros ->. exists "/"%char. split; [done|]. by apply bool_decide_eq_true.
Qed.

Lemma Lang_subregions s :
  Lang (Star (Seq (Chr "/") (Plus (Class letter_or_underscore)))) s ↔
  ∃ segments, Forall Spec.isSegment segments ∧ s = slashed segments.
Proof.
  rewrite Lang_Star. split.
  - intros (parts & Hparts & ->).
    induction Hparts as [|part parts Hpart _ (segments & Hsegments & IH)]; simpl.
    + by exists [].
    + apply Lang_Seq in Hpart as (s1 & s2 & -> & ->%Lang_slash & Hs2%Lang_word).
      exists (s2 :: segments). split; [by constructor|].
      simpl. by rewrite IH, app_assoc.
  - intros (segments & Hsegments & ->).
    induction Hsegments as [|segment segments Hsegment _ (parts & Hparts & IH)]; simpl.
    + by exists [].
    + exists (("/" +:+ segment) :: parts). split.
      * constructor; [|done]. apply Lang_Seq. exists "/", segment.
        split; [done|]. split; [by apply Lang_slash | by apply Lang_word].
      * simpl. by rewrite IH, app_assoc.
Qed.

Lemma js_join_slashed (segment : string) (segments : list string) :
  js_join "/" (segment :: segments) = segment +:+ slashed segments.
Proof.
  unfold js_join. revert segment.
  induction segments as [|next segments IH]; intros segment.
  - simpl. by rewrite app_nil_r.
  - change (String.concat "/" (segment :: next :: segments))
      with (segment +:+ "/" +:+ String.concat "/" (next :: segments)).
    by rewrite IH.
Qed.

(** The pattern of the pre-filter accepts exactly the identifiers made of
    two or more nonempty runs of letters and underscores separated by
    slashes. *)
Lemma timezonePattern_wellFormed (timezone : string) :
  Regex.test timezonePattern timezone = true ↔ Spec.wellFormed timezone.
Proof.
  rewrite test_Lang. unfold timezonePattern, Spec.wellFormed.
  rewrite Lang_Seq. split.
  - intros (region & rest & -> & Hregion%Lang_word & Hrest).
    apply Lang_Seq in Hrest as (slash & rest' & -> & ->%Lang_slash & Hrest).
    apply Lang_Seq in Hrest
        as (city & tail & -> & Hcity%Lang_word & (subregions & Hsub & ->)%Lang_subregions).
    exists region, city, subregions. split_and!; [done..|].
    by rewrite !js_join_slashed.
  - intros (region & city & subregions & Hregion & Hcity & Hsub & ->).
    rewrite js_join_slashed. exists region, (slashed (city :: subregions)).
    split; [done|]. split; [by apply Lang_word|].
    apply Lang_Seq. exists "/", (city +:+ slashed subregions).
    split; [done|]. split; [by apply Lang_slash|].
    apply Lang_Seq. exists city, (slashed subregions).
    split; [done|]. split; [by apply Lang_word|].
    apply Lang_subregions. eauto.
Qed.

End PatternFacts.

(** ** The rate limiter *)

Section RateLimiter.

Implicit Types limits : gmap string RateData.

(** One pass through the limiter block: the client's record after it, and
    the verdict. *)
Lemma rateLimit_unfold limits (ip : string) (now : Z) :
  let window := default {| count := 0; last := now |} (limits !! ip) in
  rateLimit limits ip now =
  if bool_decide (now - last window < RATE_LIMIT_WINDOW_MS)
  then (<[ip := {| count := count window + 1; last := last window |}]> limits,
        bool_decide (count window + 1 > RATE_LIMIT_MAX_REQUESTS))
  else (<[ip := {| count := 1; last := now |}]> limits, false).
Proof.
  unfold rateLimit. destruct (limits !! ip) as [stored|] eqn:Hstored; simpl.
  - repeat case_bool_decide; simpl; by rewrite ?insert_insert_eq.
  - unfold RATE_LIMIT_WINDOW_MS, RATE_LIMIT_MAX_REQUESTS.
    repeat case_bool_decide; simpl; try done; lia.
Qed.

Lemma cacheLookup_None (cache : gmap string CacheEntry) (key : string) (now : Z) :
  cacheLookup cache key now = None ↔
  ∀ entry, cache !! key = Some entry → 1000 < now - timestamp entry.
Proof.
  unfold cacheLookup. destruct (cache !! key) as [entry|].
  - case_bool_decide; split; try done.
    + intros Hstale. specialize (Hstale entry eq_refl). lia.
    + intros _ entry' [= <-]. lia.
  - split; [by intros _ entry' ? | done].
Qed.

Lemma cacheLookup_Some (cache : gmap string CacheEntry) (key : string) (now : Z) payload :
  cacheLookup cache key now = Some payload ↔
  ∃ entry, cache !! key = Some entry ∧ now - timestamp entry ≤ 1000 ∧ payload = response entry.
Proof.
  unfold cacheLookup. destruct (cache !! key) as [entry|].
  - case_bool_decide; split.
    + intros [= <-]. eauto.
    + by intros (entry' & [= <-] & _ & ->).
    + done.
    + intros (entry' & [= <-] & ? & _). lia.
  - split; [done | by intros (entry' & ? & _)].
Qed.

End RateLimiter.

(** ** The request handler *)

Section Handler.

Variable v : Variant.

Implicit Types (st : State) (req : Request).

(** A request that reaches the rate limiter leaves the limiter's map as
    the limiter block leaves it, and is answered 429 exactly when the block
    rejects it. *)
Lemma onRequest_rate_limited st req (now tryTime : Z) :
  reachesRateLimiter st req now →
  let verdict := rateLimit (rateLimitMap st) (clientIp req) now in
  let result := onRequest v st req now tryTime in
  rateLimitMap result.1 = verdict.1 ∧
  (verdict.2 = true → result = (result.1, rateLimitedResponse)) ∧
  (verdict.2 = false → status result.2 ≠ 429).
Proof.
  intros [Hmethod Hmiss%cacheLookup_None]. simpl. unfold onRequest.
  rewrite decide_False by done. rewrite Hmiss.
  destruct (rateLimit (rateLimitMap st) (clientIp req) now) as [limits rejected].
  simpl. destruct rejected; [done|].
  split; [|split; [done|intros _]];
    repeat (case_match || case_decide); simpl; done.
Qed.

(** C1: on the path that reaches the rate limiter, for every client: while
    less than 60000 ms have passed since the client's window start the count
    is incremented, and the request is answered 429, rate limit exceeded,
    exactly when the incremented count exceeds 100; once 60000 ms or more
    have passed the count is reset to 1, the window restarts at the request
    time, and the request is not rejected whatever the count was.  Other
    clients' windows are untouched. *)
Theorem rate_limit_fixed_window st req (now tryTime : Z) :
  reachesRateLimiter st req now →
  let window := windowOf st (clientIp req) now in
  let result := onRequest v st req now tryTime in
  (now - last window < 60000 →
     rateLimitMap result.1 !! clientIp req
     = Some {| count := count window + 1; last := last window |} ∧
     (result.2 = rateLimitedResponse ↔ 100 < count window + 1) ∧
     (status result.2 = 429 ↔ 100 < count window + 1)) ∧
  (60000 ≤ now - last window →
     rateLimitMap result.1 !! clientIp req = Some {| count := 1; last := now |} ∧
     status result.2 ≠ 429) ∧
  (∀ other, other ≠ clientIp req →
     rateLimitMap result.1 !! other = rateLimitMap st !! other).
Proof.
  intros Hpath. simpl.
  destruct (onRequest_rate_limited st req now tryTime Hpath) as (Hmap & Hreject & Hadmit).
  rewrite Hmap. rewrite rateLimit_unfold in Hreject, Hadmit |- *.
  fold (windowOf st (clientIp req) now) in Hreject, Hadmit |- *.
  unfold RATE_LIMIT_WINDOW_MS, RATE_LIMIT_MAX_REQUESTS in *.
  split_and!.
  - intros Hin. rewrite bool_decide_eq_true_2 in Hreject, Hadmit |- * by lia.
    simpl in *. rewrite lookup_insert_eq. split; [done|].
    destruct (decide (100 < count (windowOf st (clientIp req) now) + 1)) as [Hover|Hunder].
    + rewrite bool_decide_eq_true_2 in Hreject by lia.
      rewrite Hreject by done. simpl. done.
    + rewrite bool_decide_eq_false_2 in Hadmit by lia.
      specialize (Hadmit eq_refl). split; split; try done.
      intros Heq. by rewrite Heq in Hadmit.
  - intros Hout. rewrite bool_decide_eq_false_2 in Hadmit |- * by lia.
    simpl in *. rewrite lookup_insert_eq. auto.
  - intros other Hother. case_bool_decide; simpl; by rewrite lookup_insert_ne.
Qed.

Lemma rateLimit_changes (limits : gmap string RateData) (ip : string) (now : Z) :
  (rateLimit limits ip now).1 ≠ limits.
Proof.
  rewrite rateLimit_unfold. simpl. intros Heq.
  apply (f_equal (λ m : gmap string RateData, m !! ip)) in Heq.
  destruct (limits !! ip) as [[c l]|] eqn:Hstored; simpl in *.
  - unfold RATE_LIMIT_WINDOW_MS in *. case_bool_decide; simpl in Heq;
      rewrite lookup_insert_eq in Heq; simplify_eq; lia.
  - case_bool_decide; simpl in Heq; by rewrite lookup_insert_eq in Heq.
Qed.

(** A request that finds a fresh entry is answered from it at once. *)
Lemma onRequest_hit st req (now tryTime : Z) entry :
  method req ≠ "OPTIONS" →
  responseCache st !! generateCacheKey (searchParams req) = Some entry →
  now - timestamp entry ≤ 1000 →
  onRequest v st req now tryTime = (st, successResponse (response entry)).
Proof.
  intros Hmethod Hentry Hfresh. unfold onRequest.
  rewrite decide_False by done.
  assert (cacheLookup (responseCache st) (generateCacheKey (searchParams req)) now
          = Some (response entry)) as ->; [|done].
  apply cacheLookup_Some. eauto.
Qed.

(** What a request can do to a cache entry: leave it, or, when it is the
    entry of the request's own key and the computation succeeded, replace
    it by the new payload stamped with the request time. *)
Lemma cache_entry_persists st req (now tryTime : Z) (key : string) entry :
  responseCache st !! key = Some entry →
  let result := onRequest v st req now tryTime in
  responseCache result.1 !! key = Some entry ∨
  (key = generateCacheKey (searchParams req) ∧
   ∃ timezone payload,
     compute v tryTime timezone = Some payload ∧
     result.2 = successResponse payload ∧
     responseCache result.1 !! key = Some {| response := payload; timestamp := now |}).
Proof.
  intros Hentry. simpl. unfold onRequest.
  case_decide; [by left|].
  destruct (cacheLookup _ _ _); [by left|].
  destruct (rateLimit _ _ _) as [limits rejected].
  destruct rejected; [by left|].
  destruct (URLSearchParams.get _ _) as [timezone|]; [|by left].
  case_decide; [by left|].
  destruct (_ && _); [by left|].
  destruct (negb _); [by left|].
  destruct (compute v tryTime timezone) as [payload|] eqn:Hcompute; [|by left].
  simpl. destruct (decide (key = generateCacheKey (searchParams req))) as [->|Hne].
  - right. split; [done|]. exists timezone, payload.
    by rewrite lookup_insert_eq.
  - left. by rewrite lookup_insert_ne.
Qed.

(** The response never depends on a stale entry, nor on the rest of what
    the cache holds under the request's key. *)
Lemma onRequest_stale st req (now tryTime : Z) :
  reachesRateLimiter st req now →
  let key := generateCacheKey (searchParams req) in
  let result := onRequest v st req now tryTime in
  let result' := onRequest v (withoutEntry st key) req now tryTime in
  result.2 = result'.2 ∧
  rateLimitMap result.1 = rateLimitMap result'.1 ∧
  rateLimitMap result.1 = (rateLimit (rateLimitMap st) (clientIp req) now).1.
Proof.
  intros [Hmethod Hmiss%cacheLookup_None]. simpl. unfold onRequest.
  rewrite !decide_False by done. rewrite Hmiss.
  assert (cacheLookup (responseCache (withoutEntry st (generateCacheKey (searchParams req))))
            (generateCacheKey (searchParams req)) now = None) as ->.
  { unfold cacheLookup, withoutEntry. simpl. by rewrite lookup_delete_eq. }
  simpl. destruct (rateLimit _ _ _) as [limits rejected]. simpl.
  repeat (case_match || case_decide); simpl; done.
Qed.

(** C2: the cache lookup is a hit exactly when an entry exists for the key
    and the request time minus its creation timestamp is at most 1000 ms; a
    hit answers 200 with the serialization of the stored payload; an older
    entry is neither returned nor deleted: the request is handled as if the
    entry were absent, and the entry stays in the map until a successful
    request for the same key overwrites it. *)
Theorem cache_freshness st req (now tryTime : Z) :
  method req ≠ "OPTIONS" →
  let key := generateCacheKey (searchParams req) in
  let result := onRequest v st req now tryTime in
  (servedFromCache st req result ↔
   ∃ entry, responseCache st !! key = Some entry ∧ now - timestamp entry ≤ 1000) ∧
  (∀ entry,
     responseCache st !! key = Some entry → now - timestamp entry ≤ 1000 →
     result.1 = st ∧
     result.2 = {| status := 200;
                   body := Some (JSON.stringify_indent2 (response entry));
                   headers := successHeaders |}) ∧
  (∀ entry,
     responseCache st !! key = Some entry → 1000 < now - timestamp entry →
     result.2 = (onRequest v (withoutEntry st key) req now tryTime).2 ∧
     rateLimitMap result.1 = (rateLimit (rateLimitMap st) (clientIp req) now).1 ∧
     (responseCache result.1 !! key = Some entry ∨
      ∃ timezone payload,
        compute v tryTime timezone = Some payload ∧
        result.2 = successResponse payload ∧
        responseCache result.1 !! key = Some {| response := payload; timestamp := now |})) ∧
  (∀ other entry,
     other ≠ key → responseCache st !! other = Some entry →
     responseCache result.1 !! other = Some entry).
Proof.
  intros Hmethod. simpl. split_and!.
  - split.
    + intros (entry & Hentry & Hresult).
      destruct (decide (now - timestamp entry ≤ 1000)) as [Hfresh|Hstale]; [eauto|].
      exfalso. assert (reachesRateLimiter st req now) as Hpath.
      { split; [done|]. intros entry' Hentry'. simplify_eq. lia. }
      destruct (onRequest_stale st req now tryTime Hpath) as (_ & _ & Hlimits).
      rewrite Hresult in Hlimits. simpl in Hlimits.
      by apply (rateLimit_changes (rateLimitMap st) (clientIp req) now).
    + intros (entry & Hentry & Hfresh). exists entry. split; [done|].
      by apply onRequest_hit.
  - intros entry Hentry Hfresh. by rewrite (onRequest_hit _ _ _ _ entry).
  - intros entry Hentry Hstale.
    assert (reachesRateLimiter st req now) as Hpath.
    { split; [done|]. intros entry' Hentry'. simplify_eq. lia. }
    destruct (onRequest_stale st req now tryTime Hpath) as (Hresp & _ & Hlimits).
    split; [done|]. split; [done|].
    destruct (cache_entry_persists st req now tryTime _ entry Hentry)
      as [Hkept|(_ & timezone & payload & Hcomputed)]; [by left|].
    right. by exists timezone, payload.
  - intros other entry Hother Hentry.
    by destruct (cache_entry_persists st req now tryTime _ entry Hentry)
      as [Hkept|(? & _)].
Qed.

(** C3: a request that is not a preflight and whose cache key has a fresh
    entry is answered with the cached payload before the rate limiter and
    the timezone validation run: the rate-limit map is left as it was and
    the answer is the 200 response, never 429, whatever the client's count
    and whatever the query says. *)
Theorem cache_hit_bypasses_rate_limit st req (now tryTime : Z) entry :
  method req ≠ "OPTIONS" →
  responseCache st !! generateCacheKey (searchParams req) = Some entry →
  now - timestamp entry ≤ 1000 →
  let result := onRequest v st req now tryTime in
  rateLimitMap result.1 = rateLimitMap st ∧
  result.1 = st ∧
  result.2 = successResponse (response entry) ∧
  status result.2 = 200 ∧
  status result.2 ≠ 429.
Proof.
  intros Hmethod Hentry Hfresh. simpl.
  by rewrite (onRequest_hit _ _ _ _ entry).
Qed.

(** A 200 answer on the path through the rate limiter is a computed one,
    and its payload is in the cache under the request's key, stamped with
    the request time. *)
Lemma onRequest_computed st req (now tryTime : Z) :
  reachesRateLimiter st req now →
  let result := onRequest v st req now tryTime in
  status result.2 = 200 →
  ∃ payload,
    result.2 = successResponse payload ∧
    responseCache result.1 !! generateCacheKey (searchParams req)
    = Some {| response := payload; timestamp := now |}.
Proof.
  intros [Hmethod Hmiss%cacheLookup_None]. simpl. unfold onRequest.
  rewrite decide_False by done. rewrite Hmiss.
  destruct (rateLimit _ _ _) as [limits rejected].
  repeat (case_match || case_decide); simplify_eq/=; try done.
  intros _. eexists. split; [done|]. by rewrite lookup_insert_eq.
Qed.

(** X8: a second identical request within 1000 ms of a computed answer
    gets the very same response, byte for byte, and changes nothing: it is
    not counted by the rate limiter and the clock is not read again. *)
Lemma second_request_identical st req (now tryTime now' tryTime' : Z) :
  reachesRateLimiter st req now →
  let first := onRequest v st req now tryTime in
  status first.2 = 200 →
  now' - now ≤ 1000 →
  onRequest v first.1 req now' tryTime' = (first.1, first.2).
Proof.
  intros Hpath. simpl. intros Hstatus Hsoon.
  destruct (onRequest_computed st req now tryTime Hpath Hstatus) as (payload & -> & Hentry).
  destruct Hpath as [Hmethod _].
  by rewrite (onRequest_hit _ _ _ _ _ Hmethod Hentry).
Qed.

End Handler.

(** ** Validation of the timezone parameter *)

Section Validation.

Variable v : Variant.

Implicit Types (st : State) (req : Request).

(** The handler on an admitted request, from the parameter checks on. *)
Lemma onRequest_admitted st req (now tryTime : Z) :
  admitted st req now →
  (onRequest v st req now tryTime).2 =
  match URLSearchParams.get (searchParams req) "timezone" with
  | None => missingTimezoneResponse
  | Some timezone =>
      if decide (timezone = "") then missingTimezoneResponse
      else if structuralPrefilter v && negb (Regex.test timezonePattern timezone)
      then invalidFormatResponse
      else if negb (bool_decide (timezone ∈ validTimezones v))
      then invalidTimezoneResponse timezone
      else match compute v tryTime timezone with
           | Some payload => successResponse payload
           | None => internalErrorResponse
           end
  end.
Proof.
  intros [[Hmethod Hmiss%cacheLookup_None] Hpass]. unfold onRequest.
  rewrite decide_False by done. rewrite Hmiss.
  destruct (rateLimit _ _ _) as [limits rejected]. simpl in Hpass. subst rejected.
  repeat (case_match || case_decide); simpl; done.
Qed.

(** C7, amended: on an admitted request that missed the cache, a
    [timezone] parameter that is absent or empty is answered 400 with the
    body [{"error": "Missing 'timezone' query parameter."}]; a non-empty
    one that (in the variants with the pre-filter) matches the pattern but is
    not among the supported timezones is answered 400 with the
    invalid-timezone body echoing the value; the checks run in the order
    presence, format, membership, and the first that fails decides. *)
Theorem timezone_validation st req (now tryTime : Z) :
  admitted st req now →
  let result := onRequest v st req now tryTime in
  let parameter := URLSearchParams.get (searchParams req) "timezone" in
  (parameter = None ∨ parameter = Some "" →
     result.2 = missingTimezoneResponse ∧
     status result.2 = 400 ∧
     body result.2
     = Some (JSON.stringify [("error", JSON.JStr "Missing 'timezone' query parameter.")])) ∧
  (∀ timezone,
     parameter = Some timezone → timezone ≠ "" →
     structuralPrefilter v = true → Regex.test timezonePattern timezone = false →
     result.2 = invalidFormatResponse) ∧
  (∀ timezone,
     parameter = Some timezone → timezone ≠ "" →
     (structuralPrefilter v = true → Regex.test timezonePattern timezone = true) →
     timezone ∉ validTimezones v →
     result.2 = invalidTimezoneResponse timezone ∧
     status result.2 = 400 ∧
     body result.2
     = Some (JSON.stringify
               [("error",
                 JSON.JStr ("Invalid timezone '" +:+ timezone
                            +:+ "'. Please provide a valid IANA timezone identifier."))])).
Proof.
  intros Hadmitted. simpl. rewrite onRequest_admitted by done. split_and!.
  - by intros [-> | ->].
  - intros timezone -> Hne Hfilter Hmismatch.
    rewrite decide_False by done. by rewrite Hfilter, Hmismatch.
  - intros timezone -> Hne Hformat Hunknown.
    rewrite decide_False by done.
    assert (structuralPrefilter v && negb (Regex.test timezonePattern timezone) = false) as ->.
    { destruct (structuralPrefilter v); [|done]. by rewrite Hformat. }
    by rewrite bool_decide_eq_false_2.
Qed.

(** An identifier without a slash is not of the form
    [Region/City(/Subregion)*]. *)
Lemma wellFormed_has_slash (timezone : string) :
  Spec.wellFormed timezone → "/"%char ∈ String.list_ascii_of_string timezone.
Proof.
  intros (region & city & subregions & _ & _ & _ & ->).
  rewrite PatternFacts.js_join_slashed. simpl.
  induction region as [|c region IH]; simpl.
  - apply elem_of_cons. by left.
  - apply elem_of_cons. by right.
Qed.

(** C8, amended: in the variants with the structural pre-filter, every
    admitted request whose timezone value is non-empty and is not made of
    two or more nonempty runs of letters and underscores separated by
    slashes is answered with the 400 invalid-format response, whether or
    not the value is a supported timezone; this covers every non-empty
    identifier without a slash, such as UTC and GMT. *)
Theorem structural_prefilter_rejects st req (now tryTime : Z) (timezone : string) :
  structuralPrefilter v = true →
  admitted st req now →
  URLSearchParams.get (searchParams req) "timezone" = Some timezone →
  timezone ≠ "" →
  ¬ Spec.wellFormed timezone ∨ "/"%char ∉ String.list_ascii_of_string timezone →
  let result := onRequest v st req now tryTime in
  result.2 = invalidFormatResponse ∧
  status result.2 = 400 ∧
  body result.2
  = Some (JSON.stringify
            [("error",
              JSON.JStr "Invalid timezone format. Please provide a valid IANA timezone identifier.")]).
Proof.
  intros Hfilter Hadmitted Hparameter Hne Hshape. simpl.
  assert (Regex.test timezonePattern timezone = false) as Hmismatch.
  { apply not_true_is_false. rewrite PatternFacts.timezonePattern_wellFormed.
    destruct Hshape as [Hshape|Hslash]; [done|].
    intros Hwf. by apply Hslash, wellFormed_has_slash. }
  rewrite onRequest_admitted by done. rewrite Hparameter.
  rewrite decide_False by done. by rewrite Hfilter, Hmismatch.
Qed.

End Validation.

(** ** What reaches the response cache *)

Section CacheWrites.

Variable v : Variant.

Implicit Types (st : State) (req : Request).

(** Only the 200 answers leave the cache changed. *)
Lemma cache_unchanged_unless_200 st req (now tryTime : Z) :
  let result := onRequest v st req now tryTime in
  status result.2 ≠ 200 → responseCache result.1 = responseCache st.
Proof.
  simpl. unfold onRequest.
  repeat (case_match || case_decide); simplify_eq/=; done.
Qed.

(** Every entry of a reachable cache was produced by the [try] block. *)
Lemma reachable_cache_computed st :
  reachable v st →
  ∀ key entry,
    responseCache st !! key = Some entry →
    ∃ tryTime timezone, compute v tryTime timezone = Some (response entry).
Proof.
  induction 1 as [|st req now tryTime Hreach IH]; intros key entry Hentry.
  - simpl in Hentry. by rewrite lookup_empty in Hentry.
  - revert Hentry. unfold onRequest.
    repeat (case_match || case_decide); simplify_eq/=; try apply IH.
    destruct (decide (key = generateCacheKey (searchParams req))) as [->|Hne].
    + rewrite lookup_insert_eq. intros [= <-]. simpl. eauto.
    + rewrite lookup_insert_ne by done. apply IH.
Qed.

(** The indented serialization of a payload is never the compact
    serialization of an error object: the second character is a line
    break or a closing brace in the first and a quote in the second. *)
Lemma success_body_not_error payload : ¬ isErrorBody (body (successResponse payload)).
Proof.
  intros [message Hbody]. simpl in Hbody. injection Hbody as Hbody.
  unfold JSON.stringify, JSON.stringify_indent2, JSON.quote, JSON.newline in Hbody.
  destruct payload as [|kv payload]; simpl in Hbody;
    rewrite ?RegexFacts.app_cons, ?RegexFacts.app_nil_l in Hbody;
    injection Hbody as Hbody; discriminate.
Qed.

(** C9: the response cache is written on the success path only.  A request
    answered with the preflight 204, the rate-limit 429, one of the three
    400 responses or the internal-error 500 leaves the cache as it was.
    Hence every entry of the cache holds a payload the [try] block
    computed, and a fresh cache hit is answered 200 with the serialization of
    such a payload, never with an error body. *)
Theorem cache_written_on_success_only st req (now tryTime : Z) :
  reachable v st →
  let result := onRequest v st req now tryTime in
  (status result.2 ≠ 200 → responseCache result.1 = responseCache st) ∧
  (result.2 = preflightResponse ∨ result.2 = rateLimitedResponse ∨
   result.2 = missingTimezoneResponse ∨ result.2 = invalidFormatResponse ∨
   (∃ timezone, result.2 = invalidTimezoneResponse timezone) ∨
   result.2 = internalErrorResponse →
   responseCache result.1 = responseCache st) ∧
  (∀ key entry,
     responseCache result.1 !! key = Some entry →
     ∃ tryTime' timezone, compute v tryTime' timezone = Some (response entry)) ∧
  (∀ entry,
     method req ≠ "OPTIONS" →
     responseCache st !! generateCacheKey (searchParams req) = Some entry →
     now - timestamp entry ≤ 1000 →
     status result.2 = 200 ∧
     ¬ isErrorBody (body result.2) ∧
     ∃ tryTime' timezone,
       compute v tryTime' timezone = Some (response entry) ∧
       body result.2 = Some (JSON.stringify_indent2 (response entry))).
Proof.
  intros Hreach. simpl. split_and!.
  - apply cache_unchanged_unless_200.
  - intros Hkind. apply cache_unchanged_unless_200.
    destruct Hkind as [-> | [-> | [-> | [-> | [[timezone ->] | ->]]]]]; done.
  - apply reachable_cache_computed. by constructor.
  - intros entry Hmethod Hentry Hfresh.
    rewrite (onRequest_hit v st req now tryTime entry) by done. simpl.
    split; [done|]. split; [apply (success_body_not_error (response entry))|].
    destruct (reachable_cache_computed st Hreach _ entry Hentry) as (t & timezone & Hcomputed).
    eauto.
Qed.

End CacheWrites.

(** ** The duration field of the extended variant *)

(** C10: in the extended luxon variant [duration_since_utc] is computed
    from the difference between the zoned and the UTC view of one captured
    instant, so on every valid request it is the human-readable rendering
    of a duration of zero milliseconds, whatever the renderings say about
    the zone's offset. *)
Theorem duration_since_utc_zero (supported : list string) (lx : Luxon.Views)
    (st : State) (req : Request) (now tryTime : Z) (timezone : string) :
  admitted st req now →
  URLSearchParams.get (searchParams req) "timezone" = Some timezone →
  timezone ≠ "" →
  timezone ∈ supported →
  ∃ payload,
    (onRequest (ExtendedHandler.variant supported lx) st req now tryTime).2
    = successResponse payload ∧
    ExtendedHandler.tryBlock lx tryTime timezone = Some payload ∧
    Luxon.durationToMillis
      (Luxon.diff (Luxon.setZone (Luxon.utc tryTime) timezone) (Luxon.utc tryTime)) = 0 ∧
    field payload "duration_since_utc"
    = Some (JSON.JStr (Luxon.toHuman lx {| Luxon.milliseconds := 0 |})).
Proof.
  intros Hadmitted Hparameter Hne Hsupported.
  rewrite onRequest_admitted by done. rewrite Hparameter.
  rewrite decide_False by done. simpl.
  rewrite bool_decide_eq_true_2 by done. simpl.
  eexists. split; [done|]. split; [done|].
  unfold Luxon.durationToMillis, Luxon.diff, Luxon.fromObject. simpl.
  rewrite Z.sub_diag. done.
Qed.

(** ** The ISO week number of the Intl variant *)

(** C4, on the code: on a host that renders 2024-12-29T23:00:00Z in
    Pacific/Auckland as 12/30/2024, 12:00:00, the local date is Monday
    2024-12-30, which ISO 8601 puts in week 1 of 2025, and
    [getISOWeekNumber] returns 52, the week of the UTC date 2024-12-29:
    the local string is parsed back into the UTC instant before the
    weekday and the date are read. *)
Theorem getISOWeekNumber_uses_utc_date (host : IntlHost) :
  formatToParts_datetime host "Pacific/Auckland" sunday_evening_utc = Some monday_noon_parts →
  JSDate.toISOString (Num sunday_evening_utc) = Some "2024-12-29T23:00:00.000Z" ∧
  IntlVariant.getLocalISOString host sunday_evening_utc "Pacific/Auckland"
  = Some "2024-12-30T12:00:00+13:00" ∧
  JSDate.parse "2024-12-30T12:00:00+13:00" = Num sunday_evening_utc ∧
  IntlVariant.getISOWeekNumber host sunday_evening_utc "Pacific/Auckland" = Some (Num 52) ∧
  Spec.isoWeek 2024 12 30 = (2025, 1) ∧
  Spec.isoWeek 2024 12 29 = (2024, 52).
Proof.
  intros Hparts.
  assert (IntlVariant.getLocalISOString host sunday_evening_utc "Pacific/Auckland"
          = Some "2024-12-30T12:00:00+13:00") as Hlocal.
  { unfold IntlVariant.getLocalISOString, IntlVariant.getTimezoneOffsetInMinutes.
    rewrite Hparts. by vm_compute. }
  split_and!; [by vm_compute | done | by vm_compute | | by vm_compute | by vm_compute].
  unfold IntlVariant.getISOWeekNumber. rewrite Hlocal. by vm_compute.
Qed.

(** The sample host is such a host. *)
Lemma getISOWeekNumber_uses_utc_date_witness :
  IntlVariant.getISOWeekNumber SampleHost.summer sunday_evening_utc "Pacific/Auckland"
  = Some (Num 52) ∧
  Spec.isoWeek 2024 12 30 = (2025, 1).
Proof.
  pose proof (getISOWeekNumber_uses_utc_date SampleHost.summer) as H.
  destruct H as (_ & _ & _ & Hweek & Hiso & _); [by vm_compute|].
  split; [exact Hweek | exact Hiso].
Defined.

(** The payload of that request: the weekday, which [Intl] derives from the
    local date, and the week number disagree about the date. *)
Example tryBlock_sunday_evening :
  IntlHandler.tryBlock SampleHost.summer sunday_evening_utc "Pacific/Auckland"
  = Some [("local_time", JSON.JStr "2024-12-30T12:00:00+13:00");
          ("utc_time", JSON.JStr "2024-12-29T23:00:00.000Z");
          ("timezone", JSON.JStr "Pacific/Auckland");
          ("offset", JSON.JStr "UTC+13:00");
          ("offset_milliseconds", JSON.JNum (Num 46800000));
          ("timezone_abbreviation", JSON.JStr "GMT+13");
          ("day_of_week", JSON.JStr "Monday");
          ("iso_week_number", JSON.JNum (Num 52));
          ("timestamp_milliseconds", JSON.JNum (Num 1735513200000))].
Proof. by vm_compute. Qed.

(** On the instant of the specification's own example the UTC date and the
    local date fall in the same ISO week, and the answer is 1. *)
Example getISOWeekNumber_new_year :
  IntlVariant.getLocalISOString SampleHost.summer new_years_eve_utc "Pacific/Auckland"
  = Some "2025-01-01T12:00:00+13:00" ∧
  IntlVariant.getISOWeekNumber SampleHost.summer new_years_eve_utc "Pacific/Auckland"
  = Some (Num 1) ∧
  Spec.isoWeek 2025 1 1 = (2025, 1) ∧
  Spec.isoWeek 2024 12 31 = (2025, 1).
Proof. by vm_compute. Qed.

(** The date is moved to the Friday of its week, not the Thursday, and the
    year is read from there: in a week whose Friday is January 1 the answer
    is 0 where ISO 8601 says 53. *)
Example getISOWeekNumber_week_zero :
  JSDate.toISOString (Num late_december_2020) = Some "2020-12-30T12:00:00.000Z" ∧
  IntlVariant.getISOWeekNumber SampleHost.summer late_december_2020 "UTC" = Some (Num 0) ∧
  Spec.isoWeek 2020 12 30 = (2020, 53).
Proof. by vm_compute. Qed.

(** ** A burst inside one window *)

Section Burst.

Lemma rateLimitSeries_in_window (ip : string) (start : Z) (times : list Z) :
  Forall (λ now, now - start < 60000) times →
  ∀ (limits : gmap string RateData) (c : Z),
    limits !! ip = Some {| count := c; last := start |} →
    length (rateLimitSeries limits ip times).2 = length times ∧
    ∀ (k : nat) (rejected : bool),
      (rateLimitSeries limits ip times).2 !! k = Some rejected →
      rejected = bool_decide (100 < c + Z.of_nat k + 1).
Proof.
  induction 1 as [|now times Hnow _ IH]; intros limits c Hstored; simpl.
  - split; [done|]. intros k rejected Hk. by rewrite lookup_nil in Hk.
  - rewrite rateLimit_unfold, Hstored. simpl.
    unfold RATE_LIMIT_WINDOW_MS, RATE_LIMIT_MAX_REQUESTS.
    rewrite bool_decide_eq_true_2 by lia.
    specialize (IH (<[ip := {| count := c + 1; last := start |}]> limits) (c + 1)).
    destruct (rateLimitSeries _ ip times) as [final verdicts]. simpl in *.
    destruct IH as [Hlen Hverdicts]; [by rewrite lookup_insert_eq|].
    split; [by rewrite Hlen|].
    intros [|k] rejected Hk; simpl in Hk.
    + simplify_eq. apply bool_decide_ext. lia.
    + rewrite (Hverdicts k rejected Hk). apply bool_decide_ext. lia.
Qed.

(** The first hundred requests of a new client inside one window are not
    rejected and the hundred-and-first is. *)
Lemma hundred_and_first_rejected (limits : gmap string RateData) (ip : string)
    (first : Z) (later : list Z) :
  limits !! ip = None →
  Forall (λ now, now - first < 60000) later →
  length later = 100%nat →
  let verdicts := (rateLimitSeries limits ip (first :: later)).2 in
  verdicts !! 100%nat = Some true ∧
  ∀ k, (k < 100)%nat → verdicts !! k = Some false.
Proof.
  intros Hnew Hwindow Hlen. simpl.
  rewrite rateLimit_unfold, Hnew. simpl.
  unfold RATE_LIMIT_WINDOW_MS, RATE_LIMIT_MAX_REQUESTS.
  rewrite bool_decide_eq_true_2 by lia.
  rewrite ?bool_decide_eq_false_2 by lia.
  pose proof (rateLimitSeries_in_window ip first later Hwindow
                (<[ip := {| count := 0 + 1; last := first |}]> limits) (0 + 1)) as Hseries.
  destruct (rateLimitSeries _ ip later) as [final verdicts]. simpl in *.
  destruct Hseries as [Hverdicts_len Hverdicts]; [by rewrite lookup_insert_eq|].
  split.
  - destruct (lookup_lt_is_Some_2 verdicts 99) as [rejected Hk]; [lia|].
    simpl. rewrite Hk. f_equal. rewrite (Hverdicts _ _ Hk).
    by apply bool_decide_eq_true_2.
  - intros [|k] Hlt; [done|]. simpl.
    destruct (lookup_lt_is_Some_2 verdicts k) as [rejected Hk]; [lia|].
    rewrite Hk. f_equal. rewrite (Hverdicts _ _ Hk).
    apply bool_decide_eq_false_2. lia.
Qed.

(** Requests without a [timezone] parameter never reach the cache, so a
    series of them from one client is a series of passes through the rate
    limiter. *)
Lemma onRequests_without_timezone (v : Variant) (ip : string)
    (calls : list (Request * Z * Z)) :
  Forall (λ call, method call.1.1 ≠ "OPTIONS" ∧
                  URLSearchParams.get (searchParams call.1.1) "timezone" = None ∧
                  clientIp call.1.1 = ip) calls →
  ∀ st,
    responseCache st = ∅ →
    (onRequests v st calls).2
    = (λ rejected : bool, if rejected then rateLimitedResponse else missingTimezoneResponse)
        <$> (rateLimitSeries (rateLimitMap st) ip ((λ call, call.1.2) <$> calls)).2.
Proof.
  induction 1 as [|[[req now] tryTime] calls (Hmethod & Hparameter & Hip) _ IH];
    intros st Hcache; simpl in *; [done|].
  unfold onRequest at 1. rewrite decide_False by done.
  unfold cacheLookup. rewrite Hcache, lookup_empty, Hparameter, Hip.
  destruct (rateLimit (rateLimitMap st) ip now) as [limits rejected].
  destruct rejected.
  - specialize (IH {| responseCache := ∅; rateLimitMap := limits;
                      console := console st |} eq_refl).
    simpl in IH. destruct (onRequests v _ calls) as [final resps].
    destruct (rateLimitSeries limits ip _) as [final' verdicts].
    simpl in *. by rewrite IH.
  - specialize (IH {| responseCache := ∅; rateLimitMap := limits;
                      console := console st |} eq_refl).
    simpl in IH. destruct (onRequests v _ calls) as [final resps].
    destruct (rateLimitSeries limits ip _) as [final' verdicts].
    simpl in *. by rewrite IH.
Qed.

(** X7: from the empty maps, of 101 requests without a [timezone]
    parameter that resolve to one client identifier inside 60 seconds, the
    first hundred are answered 400, missing parameter, and the last 429:
    requests that fail validation count against the limit all the same. *)
Lemma burst_101st_is_429 (v : Variant) (ip : string) (first : Request * Z * Z)
    (later : list (Request * Z * Z)) :
  Forall (λ call, method call.1.1 ≠ "OPTIONS" ∧
                  URLSearchParams.get (searchParams call.1.1) "timezone" = None ∧
                  clientIp call.1.1 = ip) (first :: later) →
  Forall (λ call, call.1.2 - first.1.2 < 60000) later →
  length later = 100%nat →
  let responses := (onRequests v initial (first :: later)).2 in
  responses !! 100%nat = Some rateLimitedResponse ∧
  ∀ k, (k < 100)%nat → responses !! k = Some missingTimezoneResponse.
Proof.
  intros Hcalls Hwindow Hlen responses. subst responses.
  rewrite (onRequests_without_timezone v ip _ Hcalls initial) by done.
  assert (Forall (λ now, now - first.1.2 < 60000) ((λ call, call.1.2) <$> later)) as Htimes.
  { by apply Forall_fmap. }
  destruct (hundred_and_first_rejected ∅ ip first.1.2 ((λ call, call.1.2) <$> later))
    as [Hlast Hfirst]; [done | done | by rewrite length_fmap |].
  rewrite fmap_cons. simpl in Hlast, Hfirst |- *.
  split.
  - rewrite list_lookup_fmap, Hlast. done.
  - intros k Hk. rewrite list_lookup_fmap, (Hfirst k Hk). done.
Qed.

End Burst.

(** ** The theorems on concrete requests *)

Section Instances.

Lemma phobos_reaches_limiter : reachesRateLimiter busy phobos_request 6000.
Proof.
  split; [done|]. intros entry Hentry. vm_compute in Hentry. discriminate.
Qed.

(** The 501st request of a window is rejected and counted. *)
Lemma rate_limit_fixed_window_witness :
  rateLimitMap (onRequest intl_handler busy phobos_request 6000 6001).1 !! "203.0.113.9"
  = Some {| count := 501; last := 4000 |} ∧
  (onRequest intl_handler busy phobos_request 6000 6001).2 = rateLimitedResponse.
Proof.
  destruct (rate_limit_fixed_window intl_handler busy phobos_request 6000 6001
              phobos_reaches_limiter) as [Hinside _].
  destruct Hinside as (Hmap & Hrejected & _); [vm_compute; reflexivity|].
  split; [exact Hmap|]. apply Hrejected. vm_compute. reflexivity.
Defined.

(** A second request half a second after the payload was cached. *)
Lemma cache_freshness_witness :
  onRequest intl_handler busy auckland_request 5500 5501
  = (busy,
     {| status := 200;
        body := Some (JSON.stringify_indent2 [("timezone", JSON.JStr "Pacific/Auckland")]);
        headers := successHeaders |}).
Proof.
  assert (method auckland_request ≠ "OPTIONS") as Hmethod by done.
  destruct (cache_freshness intl_handler busy auckland_request 5500 5501 Hmethod)
    as (_ & Hhit & _).
  destruct (Hhit {| response := [("timezone", JSON.JStr "Pacific/Auckland")];
                    timestamp := 5000 |}) as [Hstate Hresponse].
  - vm_compute. reflexivity.
  - simpl. lia.
  - destruct (onRequest intl_handler busy auckland_request 5500 5501) as [st' resp].
    simpl in *. by subst.
Defined.

(** The client is at 500 requests in its window, and is served all the
    same. *)
Lemma cache_hit_bypasses_rate_limit_witness :
  rateLimitMap busy !! "203.0.113.9" = Some {| count := 500; last := 4000 |} ∧
  rateLimitMap (onRequest intl_handler busy auckland_request 5500 5501).1 = rateLimitMap busy ∧
  status (onRequest intl_handler busy auckland_request 5500 5501).2 = 200.
Proof.
  split; [vm_compute; reflexivity|].
  destruct (cache_hit_bypasses_rate_limit intl_handler busy auckland_request 5500 5501
              {| response := [("timezone", JSON.JStr "Pacific/Auckland")]; timestamp := 5000 |})
    as (Hlimits & _ & _ & Hstatus & _).
  - done.
  - vm_compute. reflexivity.
  - simpl. lia.
  - split; [exact Hlimits | exact Hstatus].
Defined.

Lemma fresh_client_admitted (req : Request) (now : Z) :
  method req ≠ "OPTIONS" → admitted initial req now.
Proof.
  intros Hmethod. split; [split; [done|]|].
  - intros entry Hentry. simpl in Hentry. by rewrite lookup_empty in Hentry.
  - rewrite rateLimit_unfold. simpl. rewrite lookup_empty. simpl.
    unfold RATE_LIMIT_WINDOW_MS. by rewrite bool_decide_eq_true_2 by lia.
Qed.

(** C7, as stated, fails: in the extended variant the request
    [?timezone=] carries the parameter, with the empty string as its value;
    the value is not a supported timezone, and the answer is the
    missing-parameter response, not the invalid-timezone one. *)
Lemma empty_timezone_counterexample :
  structuralPrefilter extended_handler = false ∧
  admitted initial empty_request 0 ∧
  URLSearchParams.has (searchParams empty_request) "timezone" = true ∧
  URLSearchParams.get (searchParams empty_request) "timezone" = Some "" ∧
  ("" ∉ validTimezones extended_handler) ∧
  (onRequest extended_handler initial empty_request 0 0).2 = missingTimezoneResponse ∧
  (onRequest extended_handler initial empty_request 0 0).2 ≠ invalidTimezoneResponse "".
Proof.
  split; [done|]. split; [by apply fresh_client_admitted|].
  split; [by vm_compute|]. split; [done|]. split.
  - apply (bool_decide_unpack _). by vm_compute.
  - split; [by vm_compute|]. intros Heq. vm_compute in Heq. discriminate.
Qed.

(** The bytes of the missing-parameter body. *)
Example missingTimezoneResponse_bytes :
  let q := String JSON.quote_char "" in
  body missingTimezoneResponse
  = Some ("{" +:+ q +:+ "error" +:+ q +:+ ":" +:+ q
          +:+ "Missing 'timezone' query parameter." +:+ q +:+ "}").
Proof. by vm_compute. Qed.

(** Mars/Phobos has the shape of an identifier and is not supported. *)
Lemma timezone_validation_witness :
  (onRequest intl_handler initial phobos_request 0 0).2 = invalidTimezoneResponse "Mars/Phobos".
Proof.
  assert (admitted initial phobos_request 0) as Hadmitted.
  { by apply fresh_client_admitted. }
  destruct (timezone_validation intl_handler initial phobos_request 0 0 Hadmitted)
    as (_ & _ & Hunknown).
  destruct (Hunknown "Mars/Phobos") as (Hresponse & _).
  - reflexivity.
  - discriminate.
  - intros _. vm_compute. reflexivity.
  - apply (bool_decide_unpack _). vm_compute. exact I.
  - exact Hresponse.
Defined.

(** C8, as stated, fails: in a variant with the pre-filter the request
    [?timezone=] has a timezone value, the empty string, that does not
    match the pattern, and the answer is the missing-parameter response,
    not the invalid-format one. *)
Lemma empty_timezone_prefilter_counterexample :
  structuralPrefilter intl_handler = true ∧
  admitted initial empty_request 0 ∧
  URLSearchParams.get (searchParams empty_request) "timezone" = Some "" ∧
  Regex.test timezonePattern "" = false ∧
  ¬ Spec.wellFormed "" ∧
  (onRequest intl_handler initial empty_request 0 0).2 = missingTimezoneResponse ∧
  (onRequest intl_handler initial empty_request 0 0).2 ≠ invalidFormatResponse.
Proof.
  split; [done|]. split; [by apply fresh_client_admitted|].
  split; [done|]. split; [done|]. split.
  - rewrite <-PatternFacts.timezonePattern_wellFormed. by vm_compute.
  - split; [by vm_compute|]. intros Heq. vm_compute in Heq. discriminate.
Qed.

(** UTC is supported by the sample host and is turned away for its shape. *)
Lemma structural_prefilter_rejects_witness :
  "UTC" ∈ validTimezones intl_handler ∧
  (onRequest intl_handler initial utc_request 0 0).2 = invalidFormatResponse.
Proof.
  split; [apply (bool_decide_unpack _); vm_compute; exact I|].
  destruct (structural_prefilter_rejects intl_handler initial utc_request 0 0 "UTC")
    as (Hresponse & _).
  - reflexivity.
  - by apply fresh_client_admitted.
  - reflexivity.
  - discriminate.
  - right. apply (bool_decide_unpack _). vm_compute. exact I.
  - exact Hresponse.
Defined.

(** After one successful request the cache holds its payload; a request
    for an unknown zone leaves the cache alone, and a repeat of the first
    within the second is answered 200. *)
Lemma cache_written_on_success_only_witness :
  responseCache (onRequest intl_handler warm phobos_request 5500 5501).1 = responseCache warm ∧
  status (onRequest intl_handler warm auckland_request 5500 5501).2 = 200.
Proof.
  assert (reachable intl_handler warm) as Hwarm by (apply reachable_request; constructor).
  split.
  - destruct (cache_written_on_success_only intl_handler warm phobos_request 5500 5501 Hwarm)
      as (Hunchanged & _).
    apply Hunchanged. vm_compute. discriminate.
  - destruct (cache_written_on_success_only intl_handler warm auckland_request 5500 5501 Hwarm)
      as (_ & _ & _ & Hhit).
    destruct (Hhit (default {| response := []; timestamp := 0 |}
                      (responseCache warm !! "timezone=Pacific/Auckland")))
      as (Hstatus & _).
    + discriminate.
    + vm_compute. reflexivity.
    + vm_compute. discriminate.
    + exact Hstatus.
Defined.

(** With renderings that print a duration as its count of milliseconds. *)
Lemma duration_since_utc_zero_witness :
  ∃ payload,
    (onRequest extended_handler initial auckland_request 5000 5001).2 = successResponse payload ∧
    field payload "duration_since_utc" = Some (JSON.JStr "0 milliseconds").
Proof.
  destruct (duration_since_utc_zero ["Pacific/Auckland"; "UTC"] SampleHost.views
              initial auckland_request 5000 5001 "Pacific/Auckland")
    as (payload & Hresponse & _ & _ & Hfield).
  - by apply fresh_client_admitted.
  - reflexivity.
  - discriminate.
  - apply (bool_decide_unpack _). vm_compute. exact I.
  - exists payload. split; [exact Hresponse | exact Hfield].
Defined.

End Instances.

(** * Further properties *)

(** ** The calendar of [Date] *)

Module CalendarFacts.

Import JSDate.

(** The date of a day number is a calendar date, and it is the date of
    that day. *)
Lemma civil_from_days_spec (z : Z) :
  1 ≤ (civil_from_days z).1.2 ≤ 12 ∧
  1 ≤ (civil_from_days z).2 ≤ 31 ∧
  days_from_civil (civil_from_days z).1.1 (civil_from_days z).1.2 (civil_from_days z).2 = z.
Proof.
  unfold civil_from_days, days_from_civil. simpl.
  repeat case_bool_decide; div_lia.
Qed.

Lemma days_from_civil_day (y m d : Z) :
  days_from_civil y m d = days_from_civil y m 1 + d - 1.
Proof. unfold days_from_civil. lia. Qed.

Lemma year_bounds (z : Z) :
  january1 (yearOfDay z) ≤ z < january1 (yearOfDay z + 1).
Proof.
  unfold january1, yearOfDay, civil_from_days, days_from_civil. simpl.
  repeat case_bool_decide; div_lia.
Qed.

Lemma january1_mono (y1 y2 : Z) : y1 ≤ y2 → january1 y1 ≤ january1 y2.
Proof.
  intros Hle. unfold january1, days_from_civil. simpl. div_lia.
Qed.

Lemma yearOfDay_unique (y z : Z) :
  january1 y ≤ z < january1 (y + 1) → yearOfDay z = y.
Proof.
  intros Hz. pose proof (year_bounds z) as Hbounds.
  destruct (Z.lt_trichotomy (yearOfDay z) y) as [Hlt | [Heq | Hgt]]; [|done|].
  - pose proof (january1_mono (yearOfDay z + 1) y). lia.
  - pose proof (january1_mono (y + 1) (yearOfDay z)). lia.
Qed.

(** January 4 of a year is in that year's January. *)
Lemma civil_of_january4 (y : Z) : civil_from_days (january1 y + 3) = (y, 1, 4).
Proof.
  pose proof (civil_from_days_spec (january1 y + 3)) as (Hm & Hd & Hday).
  assert (yearOfDay (january1 y + 3) = y) as Hyear.
  { apply yearOfDay_unique. split; [lia|].
    unfold january1, days_from_civil. simpl. div_lia. }
  unfold yearOfDay in Hyear.
  destruct (civil_from_days (january1 y + 3)) as [[y' m] d]. simpl in *. subst y'.
  assert (m = 1 ∧ d = 4) as [-> ->]; [|done].
  revert Hday. unfold january1, days_from_civil.
  repeat case_bool_decide; div_lia.
Qed.

End CalendarFacts.

(** ** Reading back the date-time strings *)

Module ParseFacts.

Import JSDate CalendarFacts RegexFacts.

Lemma digit_value_char (d : Z) : 0 ≤ d ≤ 9 → digit_value (digit_char d) = Some d.
Proof.
  intros Hd. unfold digit_value, digit_char.
  rewrite nat_ascii_embedding by lia.
  rewrite bool_decide_eq_true_2 by lia. f_equal. lia.
Qed.

Lemma decimal_four_digits (n : Z) :
  1000 ≤ n ≤ 9999 →
  decimal n
  = String (digit_char (n `div` 1000))
      (String (digit_char ((n `div` 100) `mod` 10))
         (String (digit_char ((n `div` 10) `mod` 10))
            (String (digit_char (n `mod` 10)) ""))).
Proof.
  intros Hn. unfold decimal.
  assert (9 ≤ Z.log2 n) as Hlog by (apply Z.log2_le_pow2; lia).
  destruct (Z.to_nat (Z.log2 n)) as [|[|[|fuel]]] eqn:Hfuel; [lia..|].
  rewrite !decimal_digits_step.
  rewrite (bool_decide_eq_false_2 (n < 10)) by lia.
  rewrite (bool_decide_eq_false_2 (n `div` 10 < 10)) by div_lia.
  rewrite (bool_decide_eq_false_2 ((n `div` 10) `div` 10 < 10)) by div_lia.
  rewrite (bool_decide_eq_true_2 (((n `div` 10) `div` 10) `div` 10 < 10)) by div_lia.
  assert ((((n `div` 10) `div` 10) `div` 10) `mod` 10 = n `div` 1000) as -> by div_lia.
  assert (((n `div` 10) `div` 10) `mod` 10 = (n `div` 100) `mod` 10) as -> by div_lia.
  done.
Qed.

Lemma take_digits_cons (n : nat) (c : ascii) (rest : string) (acc v : Z) :
  digit_value c = Some v →
  take_digits (S n) (String c rest) acc = take_digits n rest (10 * acc + v).
Proof. intros Hv. cbn [take_digits]. by rewrite Hv. Qed.

Lemma take_digits_two (n : Z) (rest : string) :
  0 ≤ n ≤ 99 → take_digits 2 (Spec.twoDigits n +:+ rest) 0 = Some (n, rest).
Proof.
  intros Hn. rewrite twoDigits_below_hundred by lia.
  rewrite !app_cons, app_nil_l.
  rewrite (take_digits_cons _ _ _ _ (n `div` 10)) by (apply digit_value_char; div_lia).
  rewrite (take_digits_cons _ _ _ _ (n `mod` 10)) by (apply digit_value_char; div_lia).
  cbn [take_digits]. f_equal. f_equal. div_lia.
Qed.

Lemma take_digits_four (n : Z) (rest : string) :
  1000 ≤ n ≤ 9999 → take_digits 4 (decimal n +:+ rest) 0 = Some (n, rest).
Proof.
  intros Hn. rewrite decimal_four_digits by lia.
  rewrite !app_cons, app_nil_l.
  rewrite (take_digits_cons _ _ _ _ (n `div` 1000)) by (apply digit_value_char; div_lia).
  rewrite (take_digits_cons _ _ _ _ ((n `div` 100) `mod` 10))
    by (apply digit_value_char; div_lia).
  rewrite (take_digits_cons _ _ _ _ ((n `div` 10) `mod` 10))
    by (apply digit_value_char; div_lia).
  rewrite (take_digits_cons _ _ _ _ (n `mod` 10)) by (apply digit_value_char; div_lia).
  cbn [take_digits]. f_equal. f_equal. div_lia.
Qed.

Lemma expect_cons (c : ascii) (rest : string) : expect c (String c rest) = Some rest.
Proof. unfold expect. by rewrite decide_True. Qed.

Lemma bind_Some {A B} (f : A → option B) (x : A) : (Some x ≫= f) = f x.
Proof. done. Qed.

(** The zone suffix [+HH:mm] or [-HH:mm] reads back as its offset. *)
Lemma parse_zone_offset (positive : bool) (h mi : Z) :
  0 ≤ h ≤ 23 → 0 ≤ mi ≤ 59 →
  parse_zone ((if positive then "+" else "-") +:+ Spec.twoDigits h +:+ ":" +:+ Spec.twoDigits mi)
  = Some ((if positive then 1 else -1) * (h * 60 + mi)).
Proof.
  intros Hh Hmi.
  assert (∀ sign rest, sign = "+"%char ∨ sign = "-"%char →
            parse_zone (String sign rest)
            = sgn ← (if decide (sign = "+"%char) then Some 1
                     else if decide (sign = "-"%char) then Some (-1) else None);
              '(h, rest) ← take_digits 2 rest 0;
              rest ← expect ":" rest;
              '(mi, rest) ← take_digits 2 rest 0;
              guard (rest = "");;
              guard (h ≤ 23 ∧ mi ≤ 59);;
              Some (sgn * (h * 60 + mi))) as Hunfold.
  { intros sign rest [-> | ->]; done. }
  destruct positive; rewrite app_cons, app_nil_l, Hunfold by auto.
  - rewrite decide_True by done. rewrite bind_Some.
    rewrite take_digits_two by lia. rewrite bind_Some.
    rewrite app_cons, app_nil_l, expect_cons, bind_Some.
    rewrite <-(app_nil_r (Spec.twoDigits mi)), take_digits_two by lia.
    rewrite bind_Some. by rewrite !option_guard_True by (done || lia).
  - rewrite decide_False by done. rewrite decide_True by done. rewrite bind_Some.
    rewrite take_digits_two by lia. rewrite bind_Some.
    rewrite app_cons, app_nil_l, expect_cons, bind_Some.
    rewrite <-(app_nil_r (Spec.twoDigits mi)), take_digits_two by lia.
    rewrite bind_Some. by rewrite !option_guard_True by (done || lia).
Qed.

(** A date-time string of the handler's format reads back as the time
    value of its fields, less the offset. *)
Lemma parse_formatted (y mo d h mi s : Z) (zone : string) (off : Z) :
  1000 ≤ y ≤ 9999 → 1 ≤ mo ≤ 12 → 1 ≤ d ≤ 31 →
  0 ≤ h ≤ 23 → 0 ≤ mi ≤ 59 → 0 ≤ s ≤ 59 →
  parse_zone zone = Some off →
  parse (decimal y +:+ "-" +:+ Spec.twoDigits mo +:+ "-" +:+ Spec.twoDigits d +:+ "T"
         +:+ Spec.twoDigits h +:+ ":" +:+ Spec.twoDigits mi +:+ ":" +:+ Spec.twoDigits s
         +:+ zone)
  = TimeClip (MakeDate (MakeDay y (mo - 1) d) (MakeTime h mi s 0) - off * msPerMinute).
Proof.
  intros Hy Hmo Hd Hh Hmi Hs Hzone. unfold parse.
  rewrite take_digits_four, bind_Some by lia.
  rewrite app_cons, app_nil_l, expect_cons, bind_Some.
  rewrite take_digits_two, bind_Some by lia.
  rewrite app_cons, app_nil_l, expect_cons, bind_Some.
  rewrite take_digits_two, bind_Some by lia.
  rewrite app_cons, app_nil_l, expect_cons, bind_Some.
  rewrite take_digits_two, bind_Some by lia.
  rewrite app_cons, app_nil_l, expect_cons, bind_Some.
  rewrite take_digits_two, bind_Some by lia.
  rewrite app_cons, app_nil_l, expect_cons, bind_Some.
  rewrite take_digits_two, bind_Some by lia.
  rewrite Hzone, bind_Some.
  by rewrite !option_guard_True by lia.
Qed.

End ParseFacts.

(** ** The calendar helpers of the Intl variant, in general *)

Module IntlFacts.

Import JSDate CalendarFacts ParseFacts RegexFacts.

(** The calendar fields of a time value put together again give the time
    value, less its milliseconds. *)
Lemma fields_roundtrip (w : Z) :
  MakeDate (MakeDay (YearFromTime w) (MonthFromTime w + 1 - 1) (DateFromTime w))
    (MakeTime (HourFromTime w) (MinFromTime w) (SecFromTime w) 0)
  = w - w `mod` 1000.
Proof.
  pose proof (civil_from_days_spec (Day w)) as (Hm & Hd & Hday).
  unfold MakeDate, MakeDay, MakeTime, YearFromTime, MonthFromTime, DateFromTime,
    HourFromTime, MinFromTime, SecFromTime.
  rewrite days_from_civil_day in Hday.
  replace (((civil_from_days (Day w)).1.2 - 1 + 1 - 1) `mod` 12 + 1)
    with (civil_from_days (Day w)).1.2 by div_lia.
  replace ((civil_from_days (Day w)).1.1 + ((civil_from_days (Day w)).1.2 - 1 + 1 - 1) `div` 12)
    with (civil_from_days (Day w)).1.1 by div_lia.
  rewrite Hday. unfold Day, msPerDay, msPerHour, msPerMinute, msPerSecond. div_lia.
Qed.

Lemma field_ranges (w : Z) :
  1 ≤ MonthFromTime w + 1 ≤ 12 ∧ 1 ≤ DateFromTime w ≤ 31 ∧
  0 ≤ HourFromTime w ≤ 23 ∧ 0 ≤ MinFromTime w ≤ 59 ∧ 0 ≤ SecFromTime w ≤ 59.
Proof.
  pose proof (civil_from_days_spec (Day w)) as (Hm & Hd & _).
  unfold MonthFromTime, DateFromTime, HourFromTime, MinFromTime, SecFromTime.
  split_and!; try lia; div_lia.
Qed.

(** Years and day numbers bound one another. *)
Lemma yearOfDay_range (z lo hi : Z) :
  lo ≤ yearOfDay z ≤ hi ↔ january1 lo ≤ z < january1 (hi + 1).
Proof.
  pose proof (year_bounds z) as Hz. split.
  - intros [Hlo Hhi].
    pose proof (january1_mono lo (yearOfDay z) Hlo).
    pose proof (january1_mono (yearOfDay z + 1) (hi + 1)). lia.
  - intros [Hlo Hhi]. split.
    + destruct (decide (lo ≤ yearOfDay z)) as [|Hlt]; [done|].
      pose proof (january1_mono (yearOfDay z + 1) lo). lia.
    + destruct (decide (yearOfDay z ≤ hi)) as [|Hgt]; [done|].
      pose proof (january1_mono (hi + 1) (yearOfDay z)). lia.
Qed.

Lemma january1_values :
  january1 1000 = -354285 ∧ january1 1001 = -353920 ∧
  january1 9999 = 2932532 ∧ january1 10000 = 2932897.
Proof. by vm_compute. Qed.

Section WithHost.

Variable host : IntlHost.

Lemma TimeClip_in_range (t : Z) : Z.abs t ≤ 8640000000000000 → TimeClip t = Num t.
Proof. intros Ht. unfold TimeClip. by rewrite bool_decide_eq_true_2. Qed.

Lemma getLocalISOString_format (date : Z) (timezone : string) (o : Z) :
  IntlVariant.getTimezoneOffsetInMinutes host date timezone = Some (Num o) →
  Z.abs (date + o * 60000) ≤ 8640000000000000 →
  IntlVariant.getLocalISOString host date timezone = Some (localString (date + o * 60000) o).
Proof.
  intros Hoffset Hclip. unfold IntlVariant.getLocalISOString.
  rewrite Hoffset, bind_Some.
  pose proof (field_ranges (date + o * 60000)) as (Hmo & Hd & Hh & Hmi & Hs).
  cbn [num_geb num_map num_map2 Math_abs Math_floor_div js_rem of_number
       getUTCFullYear getUTCMonth getUTCDate getUTCHours getUTCMinutes getUTCSeconds].
  rewrite TimeClip_in_range by done.
  cbn [num_map getUTCFullYear getUTCMonth getUTCDate getUTCHours getUTCMinutes getUTCSeconds].
  rewrite Z.rem_mod_nonneg by lia.
  set (w := date + o * 60000) in *.
  rewrite (js_String_nonneg (MonthFromTime w + 1)) by lia.
  rewrite (js_String_nonneg (DateFromTime w)) by lia.
  rewrite (js_String_nonneg (HourFromTime w)) by lia.
  rewrite (js_String_nonneg (MinFromTime w)) by lia.
  rewrite (js_String_nonneg (SecFromTime w)) by lia.
  rewrite (js_String_nonneg (Z.abs o `div` 60)) by div_lia.
  rewrite (js_String_nonneg (Z.abs o `mod` 60)) by div_lia.
  rewrite !padStart_two_zero by (lia || div_lia).
  unfold localString. repeat case_bool_decide; try lia; done.
Qed.

Lemma year_range_bounds (w : Z) :
  1000 ≤ YearFromTime w ≤ 9999 →
  -354285 * 86400000 ≤ w < 2932897 * 86400000.
Proof.
  intros Hyear. change (YearFromTime w) with (yearOfDay (Day w)) in Hyear.
  apply yearOfDay_range in Hyear.
  destruct january1_values as (Hlo & _ & _ & Hhi).
  change (9999 + 1) with 10000 in Hyear. rewrite Hlo, Hhi in Hyear.
  unfold Day, msPerDay in Hyear. div_lia.
Qed.

(** The local string reads back as the instant it was made from, less the
    milliseconds. *)
Lemma localString_parse (w o : Z) :
  Z.abs o ≤ 1439 →
  1000 ≤ YearFromTime w ≤ 9999 →
  parse (localString w o) = Num (w - o * 60000 - (w - o * 60000) `mod` 1000).
Proof.
  intros Ho Hyear. pose proof (year_range_bounds w Hyear) as Hw.
  pose proof (field_ranges w) as (Hmo & Hd & Hh & Hmi & Hs).
  unfold localString. rewrite js_String_nonneg by lia.
  rewrite (parse_formatted _ _ _ _ _ _ _
             ((if bool_decide (0 ≤ o) then 1 else -1)
              * (Z.abs o `div` 60 * 60 + Z.abs o `mod` 60))); try lia.
  - rewrite fields_roundtrip. unfold msPerMinute.
    assert ((if bool_decide (0 ≤ o) then 1 else -1)
            * (Z.abs o `div` 60 * 60 + Z.abs o `mod` 60) = o) as ->.
    { case_bool_decide; div_lia. }
    rewrite TimeClip_in_range by div_lia. f_equal. div_lia.
  - rewrite <-(parse_zone_offset (bool_decide (0 ≤ o))) by div_lia.
    by destruct (bool_decide (0 ≤ o)).
Qed.

Lemma mondayBasedDay_value (t : Z) :
  IntlVariant.mondayBasedDay (Num t) = Num (Spec.weekdayFromMonday (Day t)).
Proof.
  unfold IntlVariant.mondayBasedDay, getUTCDay, num_map, WeekDay, Spec.weekdayFromMonday.
  f_equal. div_lia.
Qed.

Lemma setUTCDate_value (t n : Z) :
  setUTCDate (Num t) (Num n)
  = TimeClip ((Day t - DateFromTime t + n) * msPerDay + TimeWithinDay t).
Proof.
  pose proof (civil_from_days_spec (Day t)) as (Hm & Hd & Hday).
  rewrite days_from_civil_day in Hday.
  unfold setUTCDate, MakeDate, MakeDay, YearFromTime, MonthFromTime, DateFromTime.
  replace (((civil_from_days (Day t)).1.2 - 1) `mod` 12 + 1)
    with (civil_from_days (Day t)).1.2 by div_lia.
  replace ((civil_from_days (Day t)).1.1 + ((civil_from_days (Day t)).1.2 - 1) `div` 12)
    with (civil_from_days (Day t)).1.1 by div_lia.
  f_equal. lia.
Qed.

Lemma Day_of_day (dayNumber tod : Z) :
  0 ≤ tod < msPerDay → Day (dayNumber * msPerDay + tod) = dayNumber.
Proof. unfold Day, msPerDay. intros Htod. div_lia. Qed.

Lemma MakeDay_january (y n : Z) : MakeDay y 0 n = january1 y + n - 1.
Proof.
  unfold MakeDay, january1. change (0 `div` 12) with 0. change (0 `mod` 12 + 1) with 1.
  by rewrite Z.add_0_r.
Qed.

Lemma january1_step (y : Z) : 365 ≤ january1 (y + 1) - january1 y ≤ 366.
Proof. unfold january1, days_from_civil. simpl. div_lia. Qed.

Lemma january1_near (z : Z) : z - 366 < january1 (yearOfDay z) ≤ z.
Proof.
  pose proof (year_bounds z). pose proof (january1_step (yearOfDay z)). lia.
Qed.

Lemma yearOfDay_not_two_digits (z : Z) : -354300 ≤ z → ¬ (0 ≤ yearOfDay z ≤ 99).
Proof.
  intros Hz Hyear. pose proof (year_bounds z) as Hbounds.
  pose proof (january1_mono (yearOfDay z + 1) 100) as Hmono.
  assert (january1 100 = -683003) as Hconst by (by vm_compute). lia.
Qed.

Lemma YearFromTime_of_day (dayNumber tod : Z) :
  0 ≤ tod < msPerDay → YearFromTime (dayNumber * msPerDay + tod) = yearOfDay dayNumber.
Proof. intros Htod. unfold YearFromTime. by rewrite Day_of_day. Qed.

Lemma getISOWeekNumber_of_parse (date : Z) (timezone s : string) (t : Z) :
  IntlVariant.getLocalISOString host date timezone = Some s →
  parse s = Num t →
  -354286 * 86400000 ≤ t < 2932898 * 86400000 →
  IntlVariant.getISOWeekNumber host date timezone = Some (Num (weekOfUtcDate t)).
Proof.
  intros Hlocal Hparse Ht. unfold IntlVariant.getISOWeekNumber.
  rewrite Hlocal, bind_Some, Hparse.
  rewrite mondayBasedDay_value.
  cbn [getUTCDate num_map num_map2].
  rewrite setUTCDate_value.
  assert (-354286 ≤ Day t < 2932898) as Hdn by (unfold Day, msPerDay; div_lia).
  assert (0 ≤ TimeWithinDay t < msPerDay) as Htod
    by (unfold TimeWithinDay, msPerDay; div_lia).
  assert (0 ≤ Spec.weekdayFromMonday (Day t) ≤ 6) as Hwd
    by (unfold Spec.weekdayFromMonday; div_lia).
  set (thursday := Day t - Spec.weekdayFromMonday (Day t) + 3).
  replace ((Day t - DateFromTime t + (DateFromTime t + 4 - Spec.weekdayFromMonday (Day t)))
           * msPerDay + TimeWithinDay t)
    with ((thursday + 1) * msPerDay + TimeWithinDay t) by (unfold thursday; lia).
  rewrite TimeClip_in_range by (unfold thursday, msPerDay in *; lia).
  cbn [getUTCFullYear num_map].
  rewrite (YearFromTime_of_day (thursday + 1)) by done.
  set (Y := yearOfDay (thursday + 1)).
  pose proof (january1_near (thursday + 1)) as HJ. fold Y in HJ.
  pose proof (year_bounds (thursday + 1)) as HY. fold Y in HY.
  assert (¬ (0 ≤ Y ≤ 99)) as Hquirk.
  { apply yearOfDay_not_two_digits. unfold thursday. lia. }
  unfold UTC. rewrite bool_decide_eq_false_2 by done.
  rewrite MakeDay_january. unfold MakeDate.
  rewrite TimeClip_in_range by (unfold thursday, msPerDay in *; lia).
  cbn [of_number].
  rewrite TimeClip_in_range by (unfold thursday, msPerDay in *; lia).
  rewrite mondayBasedDay_value. cbn [getUTCDate num_map num_map2].
  rewrite setUTCDate_value.
  replace (january1 Y + 4 - 1) with (january1 Y + 3) by lia.
  rewrite (Day_of_day (january1 Y + 3) 0) by (unfold msPerDay; lia).
  assert (DateFromTime ((january1 Y + 3) * msPerDay + 0) = 4) as ->.
  { unfold DateFromTime. rewrite Day_of_day by (unfold msPerDay; lia).
    by rewrite civil_of_january4. }
  assert (TimeWithinDay ((january1 Y + 3) * msPerDay + 0) = 0) as ->.
  { unfold TimeWithinDay, msPerDay. div_lia. }
  assert (0 ≤ Spec.weekdayFromMonday (january1 Y + 3) ≤ 6) as Hwd4
    by (unfold Spec.weekdayFromMonday; div_lia).
  set (wd4 := Spec.weekdayFromMonday (january1 Y + 3)) in *.
  rewrite TimeClip_in_range by (unfold thursday, msPerDay in *; lia).
  rewrite mondayBasedDay_value.
  cbn [diff num_map2 Math_round_div num_map]. f_equal. f_equal.
  replace ((january1 Y + 3 - 4 + (4 + 3 - wd4)) * msPerDay + 0)
    with ((january1 Y + 6 - wd4) * msPerDay + 0) by lia.
  rewrite Day_of_day by (unfold msPerDay; lia).
  assert (Spec.weekdayFromMonday (january1 Y + 6 - wd4) = 3) as ->.
  { unfold wd4, Spec.weekdayFromMonday. div_lia. }
  assert (Spec.weekdayFromMonday thursday = 3) as Hthursday.
  { unfold thursday, Spec.weekdayFromMonday. div_lia. }
  unfold weekOfUtcDate. fold thursday. fold Y.
  case_bool_decide as Hsame.
  - (* the Thursday is in the Friday's year *)
    pose proof (year_bounds thursday) as Hbounds. rewrite <-Hsame in Hbounds.
    unfold Spec.isoWeek.
    pose proof (civil_from_days_spec (Day t)) as (_ & _ & Hday).
    unfold YearFromTime, MonthFromTime, DateFromTime.
    replace ((civil_from_days (Day t)).1.2 - 1 + 1) with (civil_from_days (Day t)).1.2 by lia.
    rewrite Hday. fold thursday. fold (yearOfDay thursday). rewrite <-Hsame.
    fold (january1 Y). cbn [snd].
    unfold wd4, Spec.weekdayFromMonday, msPerDay in *. div_lia.
  - (* the Friday is January 1 *)
    assert (january1 Y = thursday + 1) as HJ1.
    { destruct (decide (january1 Y ≤ thursday)) as [Hle|]; [|lia].
      exfalso. apply Hsame. symmetry. apply yearOfDay_unique. lia. }
    unfold wd4, Spec.weekdayFromMonday, msPerDay in *. div_lia.
Qed.

Lemma weekOfUtcDate_seconds (date : Z) :
  weekOfUtcDate (date - date `mod` 1000) = weekOfUtcDate date.
Proof.
  assert (Day (date - date `mod` 1000) = Day date) as Hday
    by (unfold Day, msPerDay; div_lia).
  unfold weekOfUtcDate, YearFromTime, MonthFromTime, DateFromTime. by rewrite Hday.
Qed.

Lemma offset_of_parts (date : Z) (timezone : string)
    (parts : list (string * string)) (o : Z) :
  formatToParts_datetime host timezone date = Some parts →
  rendersWallClock parts (date + o * 60000) →
  1000 ≤ YearFromTime (date + o * 60000) ≤ 9999 →
  IntlVariant.getTimezoneOffsetInMinutes host date timezone = Some (Num o).
Proof.
  intros Hparts (Hyear & Hmonth & Hday & Hhour & Hminute & Hsecond) Hrange.
  pose proof (year_range_bounds _ Hrange) as Hw.
  pose proof (field_ranges (date + o * 60000)) as (Hmo & Hd & Hh & Hmi & Hs).
  unfold IntlVariant.getTimezoneOffsetInMinutes. rewrite Hparts, bind_Some.
  fold (partValues parts).
  rewrite Hyear, Hmonth, Hday, Hhour, Hminute, Hsecond.
  cbn [template_of_property]. unfold pad.
  rewrite !padStart_two_zero by lia.
  rewrite (parse_formatted _ _ _ _ _ _ "Z" 0) by (done || lia).
  rewrite fields_roundtrip, TimeClip_in_range by (unfold msPerMinute; div_lia).
  cbn [diff num_map2 Math_round_div num_map]. f_equal. f_equal.
  unfold msPerMinute. div_lia.
Qed.

Lemma local_string_reads_back (date : Z) (timezone : string) (o : Z) :
  IntlVariant.getTimezoneOffsetInMinutes host date timezone = Some (Num o) →
  Z.abs o ≤ 1439 →
  1000 ≤ YearFromTime (date + o * 60000) ≤ 9999 →
  IntlVariant.getLocalISOString host date timezone = Some (localString (date + o * 60000) o) ∧
  parse (localString (date + o * 60000) o) = Num (date - date `mod` 1000) ∧
  -354286 * 86400000 ≤ date - date `mod` 1000 < 2932898 * 86400000.
Proof.
  intros Hoffset Ho Hyear. pose proof (year_range_bounds _ Hyear) as Hw.
  split; [|split].
  - apply getLocalISOString_format; [done|lia].
  - rewrite localString_parse by done.
    by replace (date + o * 60000 - o * 60000) with date by lia.
  - div_lia.
Qed.

End WithHost.

End IntlFacts.

Section IntlVariantProperties.

Import JSDate CalendarFacts ParseFacts IntlFacts.

Variable host : IntlHost.

(** X1: in the Intl variant, when the offset of the zone is a whole number
    of minutes of less than a day and the local year has four digits, the
    string [getLocalISOString] returns is the local wall-clock reading with
    the offset as suffix, and read back as a date it is the instant it was
    made from, less its milliseconds. *)
Theorem getLocalISOString_reads_back (date : Z) (timezone : string) (o : Z) :
  IntlVariant.getTimezoneOffsetInMinutes host date timezone = Some (Num o) →
  Z.abs o ≤ 1439 →
  1000 ≤ YearFromTime (date + o * 60000) ≤ 9999 →
  ∃ s,
    IntlVariant.getLocalISOString host date timezone = Some s ∧
    s = localString (date + o * 60000) o ∧
    parse s = Num (date - date `mod` 1000).
Proof.
  intros Hoffset Ho Hyear.
  destruct (local_string_reads_back host date timezone o) as (Hlocal & Hparse & _); [done..|].
  eauto.
Qed.

(** X2: in the Intl variant, on a host whose formatter renders the instant
    as the wall clock of a zone that is [o] minutes from UTC, with a
    four-digit year, [getTimezoneOffsetInMinutes] returns [o], whatever the
    milliseconds of the instant: the formatter drops them and the rounding
    makes up for it. *)
Theorem getTimezoneOffsetInMinutes_recovers_offset (date : Z) (timezone : string)
    (parts : list (string * string)) (o : Z) :
  formatToParts_datetime host timezone date = Some parts →
  rendersWallClock parts (date + o * 60000) →
  1000 ≤ YearFromTime (date + o * 60000) ≤ 9999 →
  IntlVariant.getTimezoneOffsetInMinutes host date timezone = Some (Num o).
Proof. apply offset_of_parts. Qed.

(** X3: under the same conditions [getISOWeekNumber] is a function of the
    UTC instant alone: it returns the ISO 8601 week of the UTC date, or 0
    when the Friday of the UTC date's week is January 1; the timezone does
    not enter. *)
Theorem getISOWeekNumber_is_utc_week (date : Z) (timezone : string) (o : Z) :
  IntlVariant.getTimezoneOffsetInMinutes host date timezone = Some (Num o) →
  Z.abs o ≤ 1439 →
  1000 ≤ YearFromTime (date + o * 60000) ≤ 9999 →
  IntlVariant.getISOWeekNumber host date timezone = Some (Num (weekOfUtcDate date)).
Proof.
  intros Hoffset Ho Hyear.
  destruct (local_string_reads_back host date timezone o) as (Hlocal & Hparse & Hrange); [done..|].
  rewrite (getISOWeekNumber_of_parse host date timezone _ _ Hlocal Hparse Hrange).
  by rewrite weekOfUtcDate_seconds.
Qed.

End IntlVariantProperties.

(** ** The handler, further *)

Section HandlerProperties.

Variable v : Variant.

Implicit Types (st : State) (req : Request).

Lemma response_kinds st req (now tryTime : Z) :
  let resp := (onRequest v st req now tryTime).2 in
  (method req = "OPTIONS" ∧ resp = preflightResponse) ∨
  (method req ≠ "OPTIONS" ∧
   ((∃ payload, resp = successResponse payload) ∨
    (∃ code message, resp = errorResponse code message ∧ (code = 429 ∨ code = 400 ∨ code = 500)))).
Proof.
  simpl. unfold onRequest.
  repeat (case_match || case_decide); simplify_eq/=;
    first [ by left
          | right; split; [done|]; left; by eexists
          | right; split; [done|]; right; do 2 eexists; split; [reflexivity|]; lia ].
Qed.

(** X4: whatever the request and the state, the response has one of the
    statuses 204, 200, 429, 400 and 500 and carries the three CORS headers;
    it has no body exactly when it is the 204 answer, which is given exactly
    to OPTIONS requests; every other response is declared as JSON, and the
    [Cache-Control] header is present exactly on the 200 responses. *)
Theorem response_shape st req (now tryTime : Z) :
  let resp := (onRequest v st req now tryTime).2 in
  status resp ∈ [204; 200; 429; 400; 500] ∧
  corsHeaders ⊆ headers resp ∧
  (body resp = None ↔ status resp = 204) ∧
  (status resp = 204 ↔ method req = "OPTIONS") ∧
  (status resp ≠ 204 → ("Content-Type", "application/json") ∈ headers resp) ∧
  (("Cache-Control", "public, max-age=1") ∈ headers resp ↔ status resp = 200).
Proof.
  intros resp. subst resp.
  assert (∀ x : string * string, x ∈ corsHeaders → x ∈ jsonHeaders) as Hjson.
  { intros x Hx. by apply list_elem_of_further. }
  assert (∀ x : string * string, x ∈ corsHeaders → x ∈ successHeaders) as Hsuccess.
  { intros x Hx. by do 2 apply list_elem_of_further. }
  assert (("Cache-Control", "public, max-age=1") ∉ corsHeaders) as Hcors.
  { unfold corsHeaders. rewrite !elem_of_cons, elem_of_nil.
    intros [?|[?|[?|[]]]]; simplify_eq. }
  destruct (response_kinds st req now tryTime)
    as [[Hmethod ->] | [Hmethod [[payload ->] | (code & message & -> & Hcode)]]]; simpl.
  - split_and!; [by repeat constructor | done..|].
    split; [done|lia].
  - split_and!; [by repeat constructor | done | done | done | |].
    + intros _. by repeat constructor.
    + split; [done|]. intros _. by repeat constructor.
  - split_and!.
    + destruct Hcode as [-> | [-> | ->]]; by repeat constructor.
    + done.
    + split; [done | lia].
    + split; [lia | done].
    + intros _. by repeat constructor.
    + split; [|lia]. unfold jsonHeaders. rewrite elem_of_cons.
      intros [?|?]; [simplify_eq | done].
Qed.

Lemma rateLimit_dom (limits : gmap string RateData) (ip : string) (now : Z) :
  dom limits ⊆ dom (rateLimit limits ip now).1.
Proof.
  rewrite rateLimit_unfold. simpl. case_bool_decide; simpl; apply dom_insert_subseteq.
Qed.

Lemma onRequest_dom st req (now tryTime : Z) :
  dom (responseCache st) ⊆ dom (responseCache (onRequest v st req now tryTime).1) ∧
  dom (rateLimitMap st) ⊆ dom (rateLimitMap (onRequest v st req now tryTime).1).
Proof.
  pose proof (rateLimit_dom (rateLimitMap st) (clientIp req) now) as Hlimits.
  unfold onRequest.
  destruct (rateLimit (rateLimitMap st) (clientIp req) now) as [limits rejected].
  repeat (case_match || case_decide); simplify_eq/=;
    split; try done; apply dom_insert_subseteq.
Qed.

(** X5: nothing is ever evicted.  Over any series of requests, every key
    of the response cache and every client of the rate-limit map that was
    there before is still there after, stale entries and elapsed windows
    included. *)
Theorem nothing_is_evicted st (calls : list (Request * Z * Z)) :
  dom (responseCache st) ⊆ dom (responseCache (onRequests v st calls).1) ∧
  dom (rateLimitMap st) ⊆ dom (rateLimitMap (onRequests v st calls).1).
Proof.
  revert st. induction calls as [|[[req now] tryTime] calls IH]; intros st; simpl; [done|].
  pose proof (onRequest_dom st req now tryTime) as [Hcache Hlimits].
  destruct (onRequest v st req now tryTime) as [st' resp].
  specialize (IH st'). destruct (onRequests v st' calls) as [final resps].
  simpl in *. destruct IH as [IHcache IHlimits].
  split; etrans; done.
Qed.

(** X10: the [try] block runs on validated input only.  A request that
    reaches the rate limiter and is answered 200 was within the limit and
    carried a non-empty [timezone] that is a supported timezone and, in the
    variants with the pre-filter, of the form [Region/City(/Subregion)*];
    the response is the payload computed for that value. *)
Theorem computed_only_when_valid st req (now tryTime : Z) :
  reachesRateLimiter st req now →
  status (onRequest v st req now tryTime).2 = 200 →
  ∃ timezone payload,
    URLSearchParams.get (searchParams req) "timezone" = Some timezone ∧
    timezone ≠ "" ∧
    timezone ∈ validTimezones v ∧
    (structuralPrefilter v = true → Spec.wellFormed timezone) ∧
    (rateLimit (rateLimitMap st) (clientIp req) now).2 = false ∧
    compute v tryTime timezone = Some payload ∧
    (onRequest v st req now tryTime).2 = successResponse payload.
Proof.
  intros [Hmethod Hmiss%cacheLookup_None]. unfold onRequest.
  rewrite decide_False by done. rewrite Hmiss.
  destruct (rateLimit _ _ _) as [limits rejected]. simpl.
  destruct rejected; [done|].
  destruct (URLSearchParams.get _ _) as [timezone|]; [|done].
  case_decide; [done|].
  destruct (structuralPrefilter v && negb (Regex.test timezonePattern timezone)) eqn:Hfilter;
    [done|].
  destruct (bool_decide (timezone ∈ validTimezones v)) eqn:Hvalid; [|done]. simpl.
  destruct (compute v tryTime timezone) as [payload|] eqn:Hcompute; [|done]. simpl.
  intros _. exists timezone, payload. split_and!; try done.
  - by apply bool_decide_eq_true in Hvalid.
  - intros Hpre. rewrite Hpre in Hfilter. simpl in Hfilter.
    apply negb_false_iff in Hfilter. by apply PatternFacts.timezonePattern_wellFormed.
Qed.

Lemma js_sort_pair (n1 n2 : string) : code_unit_le n1 n2 → js_sort [n1; n2] = [n1; n2].
Proof.
  intros Hle. unfold js_sort.
  apply (Sorted_unique code_unit_le); try apply _.
  - apply Sorted_merge_sort; apply _.
  - by repeat constructor.
  - apply merge_sort_Permutation.
Qed.

Lemma generateCacheKey_unescaped (n1 v1 n2 v2 : string) :
  code_unit_le n1 n2 → n1 ≠ n2 →
  generateCacheKey [(n1, v1 +:+ "&" +:+ n2 +:+ "=" +:+ v2)]
  = generateCacheKey [(n1, v1); (n2, v2)].
Proof.
  intros Hle Hne. unfold generateCacheKey. simpl URLSearchParams.keys.
  rewrite js_sort_pair by done.
  change (js_sort [n1]) with [n1]. simpl.
  rewrite !decide_True by done. rewrite decide_False by done.
  rewrite decide_True by done. simpl.
  by rewrite !RegexFacts.app_assoc.
Qed.

(** X9: the cache key does not escape its separators, so the query
    [timezone=Z&k=x] and the query whose single parameter [timezone] has the
    value [Z&k=x] share a key (for a name [k] that sorts after [timezone]).
    Hence, within 1000 ms of a computed answer to the first, the second is
    answered from the cache with the very response of the first, though
    its own timezone value is another. *)
Theorem cache_answers_colliding_request st (reqA reqB : Request)
    (now tryTime now' tryTime' : Z) (timezone k x : string) :
  searchParams reqB = [("timezone", timezone); (k, x)] →
  searchParams reqA = [("timezone", timezone +:+ "&" +:+ k +:+ "=" +:+ x)] →
  String.le "timezone" k → k ≠ "timezone" →
  method reqA ≠ "OPTIONS" →
  reachesRateLimiter st reqB now →
  status (onRequest v st reqB now tryTime).2 = 200 →
  now' - now ≤ 1000 →
  generateCacheKey (searchParams reqA) = generateCacheKey (searchParams reqB) ∧
  URLSearchParams.get (searchParams reqA) "timezone"
  ≠ URLSearchParams.get (searchParams reqB) "timezone" ∧
  onRequest v (onRequest v st reqB now tryTime).1 reqA now' tryTime'
  = ((onRequest v st reqB now tryTime).1, (onRequest v st reqB now tryTime).2).
Proof.
  intros HB HA Hle Hne Hmethod Hpath Hstatus Hsoon.
  assert (generateCacheKey (searchParams reqA) = generateCacheKey (searchParams reqB)) as Hkey.
  { rewrite HA, HB. apply generateCacheKey_unescaped; [|done].
    apply code_unit_le_ascii; [|done]. by repeat constructor. }
  split; [done|]. split.
  - rewrite HA, HB. simpl.
    intros [= Heq]. rewrite <-(RegexFacts.app_nil_r timezone) in Heq at 2.
    by apply (inj (String.app timezone)) in Heq.
  - destruct (onRequest_computed v st reqB now tryTime Hpath Hstatus) as (payload & -> & Hentry).
    rewrite <-Hkey in Hentry.
    by rewrite (onRequest_hit v _ reqA now' tryTime' _ Hmethod Hentry).
Qed.

End HandlerProperties.

Section WindowBoundary.

(** While the count stays within the limit, a run of requests inside the
    window is admitted whole and only raises the count. *)
Lemma rateLimitSeries_under_limit (ip : string) (start : Z) (times : list Z) :
  Forall (λ now, now - start < 60000) times →
  ∀ (limits : gmap string RateData) (c : Z),
    limits !! ip = Some {| count := c; last := start |} →
    c + Z.of_nat (length times) ≤ 100 →
    rateLimitSeries limits ip times
    = (<[ip := {| count := c + Z.of_nat (length times); last := start |}]> limits,
       replicate (length times) false).
Proof.
  induction 1 as [|now times Hnow _ IH]; intros limits c Hstored Hlimit.
  - simpl. rewrite Z.add_0_r. by rewrite insert_id.
  - rewrite length_cons, Nat2Z.inj_succ in Hlimit |- *.
    cbn [rateLimitSeries replicate]. rewrite rateLimit_unfold, Hstored.
    cbn [default from_option id count last].
    unfold RATE_LIMIT_WINDOW_MS, RATE_LIMIT_MAX_REQUESTS.
    rewrite bool_decide_eq_true_2 by lia.
    rewrite bool_decide_eq_false_2 by lia.
    rewrite (IH _ (c + 1)); [|by rewrite lookup_insert_eq | lia].
    rewrite insert_insert_eq.
    by replace (c + 1 + Z.of_nat (length times)) with (c + Z.succ (Z.of_nat (length times))) by lia.
Qed.

Lemma rateLimitSeries_app (limits : gmap string RateData) (ip : string) (l1 l2 : list Z) :
  rateLimitSeries limits ip (l1 ++ l2)
  = ((rateLimitSeries (rateLimitSeries limits ip l1).1 ip l2).1,
     (rateLimitSeries limits ip l1).2 ++ (rateLimitSeries (rateLimitSeries limits ip l1).1 ip l2).2).
Proof.
  revert limits. induction l1 as [|now l1 IH]; intros limits; simpl.
  - by destruct (rateLimitSeries limits ip l2).
  - destruct (rateLimit limits ip now) as [limits' rejected].
    rewrite IH. destruct (rateLimitSeries limits' ip l1) as [final verdicts]. simpl.
    by destruct (rateLimitSeries final ip l2).
Qed.

(** A new client's first hundred requests inside one window and a further
    hundred that start 60000 ms or more after the first are all let
    through. *)
Lemma rateLimitSeries_two_windows (limits : gmap string RateData) (ip : string)
    (first second : Z) (later1 later2 : list Z) :
  limits !! ip = None →
  Forall (λ now, now - first < 60000) later1 → length later1 = 99%nat →
  60000 ≤ second - first →
  Forall (λ now, now - second < 60000) later2 → length later2 = 99%nat →
  (rateLimitSeries limits ip ((first :: later1) ++ (second :: later2))).2
  = replicate 200 false.
Proof.
  intros Hnew Hin1 Hlen1 Hgap Hin2 Hlen2.
  rewrite rateLimitSeries_app. cbn [snd].
  assert (rateLimitSeries limits ip (first :: later1)
          = (<[ip := {| count := 100; last := first |}]> limits, replicate 100 false)) as ->.
  { cbn [rateLimitSeries]. rewrite rateLimit_unfold, Hnew. simpl.
    unfold RATE_LIMIT_WINDOW_MS, RATE_LIMIT_MAX_REQUESTS.
    rewrite bool_decide_eq_true_2 by lia.
    rewrite (rateLimitSeries_under_limit ip first later1 Hin1 _ 1);
      [|by rewrite lookup_insert_eq | lia].
    rewrite insert_insert_eq, Hlen1. done. }
  cbn [fst snd rateLimitSeries]. rewrite rateLimit_unfold, lookup_insert_eq. simpl.
  unfold RATE_LIMIT_WINDOW_MS.
  rewrite bool_decide_eq_false_2 by lia.
  rewrite (rateLimitSeries_under_limit ip second later2 Hin2 _ 1);
    [|by rewrite lookup_insert_eq | lia].
  rewrite Hlen2. done.
Qed.

(** X6: the window is fixed, not sliding.  From the empty maps, a hundred
    requests of one client inside one window followed by a hundred more
    that start 60000 ms or more after the first (each of them again inside
    60000 ms of the first of these) are all let through the rate limiter:
    none of the 200 is answered 429, however close in time the two hundreds
    are to one another. *)
Theorem burst_across_window_boundary (v : Variant) (ip : string)
    (first second : Request * Z * Z) (later1 later2 : list (Request * Z * Z)) :
  Forall (λ call, method call.1.1 ≠ "OPTIONS" ∧
                  URLSearchParams.get (searchParams call.1.1) "timezone" = None ∧
                  clientIp call.1.1 = ip) ((first :: later1) ++ (second :: later2)) →
  Forall (λ call, call.1.2 - first.1.2 < 60000) later1 → length later1 = 99%nat →
  60000 ≤ second.1.2 - first.1.2 →
  Forall (λ call, call.1.2 - second.1.2 < 60000) later2 → length later2 = 99%nat →
  (onRequests v initial ((first :: later1) ++ (second :: later2))).2
  = replicate 200 missingTimezoneResponse.
Proof.
  intros Hcalls Hin1 Hlen1 Hgap Hin2 Hlen2.
  rewrite (onRequests_without_timezone v ip _ Hcalls initial) by done.
  rewrite fmap_app, !fmap_cons. simpl rateLimitMap.
  rewrite (rateLimitSeries_two_windows ∅ ip first.1.2 second.1.2);
    [done | done | by apply Forall_fmap | by rewrite length_fmap | done
    | by apply Forall_fmap | by rewrite length_fmap].
Qed.

End WindowBoundary.

Section PatternLanguage.

Lemma chars_app (s1 s2 : string) :
  String.list_ascii_of_string (s1 +:+ s2)
  = String.list_ascii_of_string s1 ++ String.list_ascii_of_string s2.
Proof.
  induction s1 as [|c s1 IH]; [done|].
  rewrite RegexFacts.app_cons. cbn [String.list_ascii_of_string]. by rewrite IH.
Qed.

Lemma segment_chars (s : string) :
  Spec.isSegment s →
  Forall (λ c, letter_or_underscore c = true ∨ c = "/"%char) (String.list_ascii_of_string s).
Proof. intros [_ Hall]. eapply Forall_impl; [done|]. auto. Qed.

Lemma slashed_chars (segments : list string) :
  Forall Spec.isSegment segments →
  Forall (λ c, letter_or_underscore c = true ∨ c = "/"%char)
    (String.list_ascii_of_string (slashed segments)).
Proof.
  induction 1 as [|segment segments Hsegment _ IH]; cbn [slashed foldr]; [constructor|].
  rewrite !chars_app. apply Forall_app. split; [apply Forall_singleton; by right|].
  apply Forall_app. split; [by apply segment_chars | done].
Qed.

(** X11: the pattern of the pre-filter accepts exactly the identifiers made
    of two or more nonempty runs of ASCII letters and underscores joined by
    slashes.  So an identifier with any other character, a digit, a plus or
    a hyphen as in Etc/GMT+1 or America/Port-au-Prince, never passes it. *)
Theorem timezonePattern_language (timezone : string) :
  (Regex.test timezonePattern timezone = true ↔ Spec.wellFormed timezone) ∧
  (Regex.test timezonePattern timezone = true →
   Forall (λ c, letter_or_underscore c = true ∨ c = "/"%char)
     (String.list_ascii_of_string timezone)) ∧
  Regex.test timezonePattern "Etc/GMT+1" = false ∧
  Regex.test timezonePattern "America/Port-au-Prince" = false ∧
  Regex.test timezonePattern "America/Argentina/Buenos_Aires" = true.
Proof.
  split; [apply PatternFacts.timezonePattern_wellFormed|]. split; [|done].
  intros (region & city & subregions & Hregion & Hcity & Hsub & ->)
    %PatternFacts.timezonePattern_wellFormed.
  rewrite PatternFacts.js_join_slashed, chars_app. apply Forall_app.
  split; [by apply segment_chars|]. apply slashed_chars. by constructor.
Qed.

End PatternLanguage.

(** ** The payload of the Intl variant *)

Section Payload.

Import JSDate CalendarFacts ParseFacts IntlFacts.

Lemma formatUTCOffset_integer (offset : Z) :
  formatUTCOffset (Num offset) = Spec.utcOffsetDisplay offset.
Proof.
  unfold formatUTCOffset, Spec.utcOffsetDisplay.
  unfold Math_abs, Math_floor_div, js_rem, num_map, num_geb.
  rewrite Z.rem_mod_nonneg by lia.
  rewrite !js_String_nonneg by (try apply Z.div_pos; try apply Z.mod_pos_bound; lia).
  by rewrite !padStart_two_zero by (try apply Z.div_pos; try apply Z.mod_pos_bound; lia).
Qed.

(** X12: in the Intl variant, on a host that renders the instant as the
    wall clock of a zone [o] minutes from UTC (less than a day, four-digit
    local year), the [try] block succeeds and every field of the payload
    describes that one offset and that one instant: [local_time] is the
    wall clock with the offset as suffix, [offset] its display string,
    [offset_milliseconds] is 60000 times [o], [timestamp_milliseconds] is
    the instant; [iso_week_number] is the week of the UTC date. *)
Theorem tryBlock_payload (host : IntlHost) (date : Z) (timezone : string)
    (parts : list (string * string)) (o : Z) (abbreviation weekday : string) :
  formatToParts_datetime host timezone date = Some parts →
  rendersWallClock parts (date + o * 60000) →
  Z.abs o ≤ 1439 →
  1000 ≤ YearFromTime (date + o * 60000) ≤ 9999 →
  IntlVariant.getTimezoneAbbreviation host date timezone = Some abbreviation →
  IntlVariant.getDayOfWeek host date timezone = Some weekday →
  ∃ utc,
    toISOString (Num date) = Some utc ∧
    IntlHandler.tryBlock host date timezone
    = Some [("local_time", JSON.JStr (localString (date + o * 60000) o));
            ("utc_time", JSON.JStr utc);
            ("timezone", JSON.JStr timezone);
            ("offset", JSON.JStr (Spec.utcOffsetDisplay o));
            ("offset_milliseconds", JSON.JNum (Num (o * 60000)));
            ("timezone_abbreviation", JSON.JStr abbreviation);
            ("day_of_week", JSON.JStr weekday);
            ("iso_week_number", JSON.JNum (Num (weekOfUtcDate date)));
            ("timestamp_milliseconds", JSON.JNum (Num date))].
Proof.
  intros Hparts Hrenders Ho Hyear Habbreviation Hweekday.
  pose proof (offset_of_parts host date timezone parts o Hparts Hrenders Hyear) as Hoffset.
  destruct (local_string_reads_back host date timezone o) as (Hlocal & Hparse & Hrange); [done..|].
  pose proof (getISOWeekNumber_of_parse host date timezone _ _ Hlocal Hparse Hrange) as Hweek.
  rewrite weekOfUtcDate_seconds in Hweek.
  assert (∃ utc, toISOString (Num date) = Some utc) as [utc Hutc]
    by (unfold toISOString; eauto).
  exists utc. split; [done|].
  unfold IntlHandler.tryBlock, IntlVariant.calculateUTCOffset.
  rewrite Hlocal, Hoffset, Habbreviation, Hweekday, Hweek, Hutc.
  rewrite !bind_Some. by rewrite formatUTCOffset_integer.
Qed.

End Payload.

(** ** The further properties on concrete requests *)

Section FurtherInstances.

Lemma auckland_offset :
  IntlVariant.getTimezoneOffsetInMinutes SampleHost.summer sunday_evening_utc_123
    "Pacific/Auckland" = Some (Num 780).
Proof. by vm_compute. Qed.

Lemma auckland_local_year :
  1000 ≤ JSDate.YearFromTime (sunday_evening_utc_123 + 780 * 60000) ≤ 9999.
Proof.
  assert (JSDate.YearFromTime (sunday_evening_utc_123 + 780 * 60000) = 2024) as ->
    by (by vm_compute).
  lia.
Qed.

Lemma auckland_parts :
  formatToParts_datetime SampleHost.summer "Pacific/Auckland" sunday_evening_utc_123
  = Some monday_noon_parts.
Proof. by vm_compute. Qed.

Lemma auckland_renders :
  rendersWallClock monday_noon_parts (sunday_evening_utc_123 + 780 * 60000).
Proof. unfold rendersWallClock. split_and!; by vm_compute. Qed.

(** The instant 2024-12-29T23:00:00.123Z in Pacific/Auckland. *)
Lemma getLocalISOString_reads_back_witness :
  ∃ s,
    IntlVariant.getLocalISOString SampleHost.summer sunday_evening_utc_123 "Pacific/Auckland"
    = Some s ∧
    JSDate.parse s = Num sunday_evening_utc.
Proof.
  destruct (getLocalISOString_reads_back SampleHost.summer sunday_evening_utc_123
              "Pacific/Auckland" 780) as (s & Hlocal & _ & Hparse).
  - exact auckland_offset.
  - simpl. lia.
  - exact auckland_local_year.
  - exists s. split; [exact Hlocal | exact Hparse].
Defined.

Lemma getTimezoneOffsetInMinutes_recovers_offset_witness :
  IntlVariant.getTimezoneOffsetInMinutes SampleHost.summer sunday_evening_utc_123
    "Pacific/Auckland" = Some (Num 780).
Proof.
  apply (getTimezoneOffsetInMinutes_recovers_offset SampleHost.summer sunday_evening_utc_123
           "Pacific/Auckland" monday_noon_parts 780).
  - exact auckland_parts.
  - exact auckland_renders.
  - exact auckland_local_year.
Defined.

Lemma getISOWeekNumber_is_utc_week_witness :
  IntlVariant.getISOWeekNumber SampleHost.summer sunday_evening_utc_123 "Pacific/Auckland"
  = Some (Num (weekOfUtcDate sunday_evening_utc_123)).
Proof.
  apply (getISOWeekNumber_is_utc_week SampleHost.summer sunday_evening_utc_123
           "Pacific/Auckland" 780).
  - exact auckland_offset.
  - simpl. lia.
  - exact auckland_local_year.
Defined.

Lemma tryBlock_payload_witness :
  ∃ utc,
    JSDate.toISOString (Num sunday_evening_utc_123) = Some utc ∧
    IntlHandler.tryBlock SampleHost.summer sunday_evening_utc_123 "Pacific/Auckland"
    = Some [("local_time", JSON.JStr (localString (sunday_evening_utc_123 + 780 * 60000) 780));
            ("utc_time", JSON.JStr utc);
            ("timezone", JSON.JStr "Pacific/Auckland");
            ("offset", JSON.JStr (Spec.utcOffsetDisplay 780));
            ("offset_milliseconds", JSON.JNum (Num (780 * 60000)));
            ("timezone_abbreviation", JSON.JStr "GMT+13");
            ("day_of_week", JSON.JStr "Monday");
            ("iso_week_number", JSON.JNum (Num (weekOfUtcDate sunday_evening_utc_123)));
            ("timestamp_milliseconds", JSON.JNum (Num sunday_evening_utc_123))].
Proof.
  apply (tryBlock_payload SampleHost.summer sunday_evening_utc_123 "Pacific/Auckland"
           monday_noon_parts 780 "GMT+13" "Monday").
  - exact auckland_parts.
  - exact auckland_renders.
  - simpl. lia.
  - exact auckland_local_year.
  - vm_compute. reflexivity.
  - vm_compute. reflexivity.
Defined.

Lemma bare_calls (calls : list (Request * Z * Z)) :
  Forall (λ call, call.1.1 = bare_request) calls →
  Forall (λ call, method call.1.1 ≠ "OPTIONS" ∧
                  URLSearchParams.get (searchParams call.1.1) "timezone" = None ∧
                  clientIp call.1.1 = "203.0.113.9") calls.
Proof.
  intros Hcalls. eapply Forall_impl; [exact Hcalls|].
  intros [[req now] tryTime]. simpl. by intros ->.
Qed.

(** A hundred requests by the end of one window and a hundred at the
    start of the next, all inside two milliseconds. *)
Lemma burst_across_window_boundary_witness :
  (onRequests intl_handler initial
     (((bare_request, 0, 0) :: replicate 99 (bare_request, 59999, 59999))
      ++ ((bare_request, 60000, 60000) :: replicate 99 (bare_request, 60001, 60001)))).2
  = replicate 200 missingTimezoneResponse.
Proof.
  apply (burst_across_window_boundary intl_handler "203.0.113.9").
  - apply bare_calls, Forall_app. split; (apply Forall_cons; split; [reflexivity|]);
      apply Forall_replicate; reflexivity.
  - apply Forall_replicate. simpl. lia.
  - apply length_replicate.
  - simpl. lia.
  - apply Forall_replicate. simpl. lia.
  - apply length_replicate.
Defined.

Lemma burst_101st_is_429_witness :
  (onRequests intl_handler initial
     ((bare_request, 0, 0) :: replicate 100 (bare_request, 1, 1))).2 !! 100%nat
  = Some rateLimitedResponse.
Proof.
  destruct (burst_101st_is_429 intl_handler "203.0.113.9" (bare_request, 0, 0)
              (replicate 100 (bare_request, 1, 1))) as [Hlast _].
  - apply bare_calls. apply Forall_cons. split; [reflexivity|].
    apply Forall_replicate. reflexivity.
  - apply Forall_replicate. simpl. lia.
  - apply length_replicate.
  - exact Hlast.
Defined.

Lemma auckland_reaches_limiter : reachesRateLimiter initial auckland_request 5000.
Proof. split; [done|]. intros entry Hentry. simpl in Hentry. by rewrite lookup_empty in Hentry. Qed.

Lemma second_request_identical_witness :
  onRequest intl_handler warm auckland_request 5500 5501
  = (warm, (onRequest intl_handler initial auckland_request 5000 5001).2).
Proof.
  apply (second_request_identical intl_handler initial auckland_request 5000 5001 5500 5501).
  - exact auckland_reaches_limiter.
  - vm_compute. reflexivity.
  - lia.
Defined.

Lemma computed_only_when_valid_witness :
  ∃ timezone payload,
    URLSearchParams.get (searchParams auckland_request) "timezone" = Some timezone ∧
    timezone ∈ validTimezones intl_handler ∧
    compute intl_handler 5001 timezone = Some payload.
Proof.
  destruct (computed_only_when_valid intl_handler initial auckland_request 5000 5001)
    as (timezone & payload & Hget & _ & Hvalid & _ & _ & Hcompute & _).
  - exact auckland_reaches_limiter.
  - vm_compute. reflexivity.
  - exists timezone, payload. split; [exact Hget|]. split; [exact Hvalid | exact Hcompute].
Defined.

(** The second request names no supported timezone, and is answered 200
    with the payload for Pacific/Auckland. *)
Lemma cache_answers_colliding_request_witness :
  ("Pacific/Auckland&x=1" ∉ validTimezones intl_handler) ∧
  onRequest intl_handler
    (onRequest intl_handler initial two_parameter_request 5000 5001).1
    ampersand_request 5500 5501
  = ((onRequest intl_handler initial two_parameter_request 5000 5001).1,
     (onRequest intl_handler initial two_parameter_request 5000 5001).2).
Proof.
  split; [apply (bool_decide_unpack _); vm_compute; exact I|].
  destruct (cache_answers_colliding_request intl_handler initial ampersand_request
              two_parameter_request 5000 5001 5500 5501 "Pacific/Auckland" "x" "1")
    as (_ & _ & Hserved).
  - reflexivity.
  - reflexivity.
  - vm_compute. exact I.
  - discriminate.
  - discriminate.
  - split; [discriminate|]. intros entry Hentry. simpl in Hentry.
    rewrite lookup_empty in Hentry. discriminate.
  - vm_compute. reflexivity.
  - lia.
  - exact Hserved.
Defined.

End FurtherInstances.

(** ** More on the helpers and on the validated path *)

Section More.

Import JSDate CalendarFacts ParseFacts IntlFacts.

(** X13: [getTimezoneAbbreviation] returns the value of the first part of
    type [timeZoneName] the formatter yields, and the empty string, not an
    error, when there is no such part. *)
Theorem getTimezoneAbbreviation_first_name (host : IntlHost) (date : Z) (timezone : string)
    (parts : list (string * string)) :
  formatToParts_zoneName host timezone date = Some parts →
  (Forall (λ part, part.1 ≠ "timeZoneName") parts →
   IntlVariant.getTimezoneAbbreviation host date timezone = Some "") ∧
  (∀ before name after,
     parts = before ++ ("timeZoneName", name) :: after →
     Forall (λ part, part.1 ≠ "timeZoneName") before →
     IntlVariant.getTimezoneAbbreviation host date timezone = Some name).
Proof.
  intros Hparts. unfold IntlVariant.getTimezoneAbbreviation.
  rewrite Hparts, bind_Some. split.
  - intros Hnone.
    destruct (list_find (λ part, part.1 = "timeZoneName") parts) as [[i part]|] eqn:Hfind;
      [|done].
    apply list_find_Some in Hfind as (Hi & Hpart & _).
    rewrite Forall_forall in Hnone.
    destruct (Hnone part); [|done]. by eapply list_elem_of_lookup_2.
  - intros before name after -> Hbefore.
    assert (list_find (λ part : string * string, part.1 = "timeZoneName")
              (before ++ ("timeZoneName", name) :: after)
            = Some (length before, ("timeZoneName", name))) as ->; [|done].
    apply list_find_Some. split_and!.
    + by rewrite list_lookup_middle.
    + done.
    + intros j part Hj Hlt. rewrite lookup_app_l in Hj by done.
      rewrite Forall_forall in Hbefore. apply Hbefore. by eapply list_elem_of_lookup_2.
Qed.

Lemma isoWeek_of_day (dayNumber : Z) :
  Spec.isoWeek (civil_from_days dayNumber).1.1 (civil_from_days dayNumber).1.2
    (civil_from_days dayNumber).2
  = (yearOfDay (dayNumber - Spec.weekdayFromMonday dayNumber + 3),
     (dayNumber - Spec.weekdayFromMonday dayNumber + 3
      - january1 (yearOfDay (dayNumber - Spec.weekdayFromMonday dayNumber + 3))) `div` 7 + 1).
Proof.
  pose proof (civil_from_days_spec dayNumber) as (_ & _ & Hday).
  unfold Spec.isoWeek. by rewrite Hday.
Qed.

Lemma isoWeek_range (dayNumber : Z) :
  1 ≤ (Spec.isoWeek (civil_from_days dayNumber).1.1 (civil_from_days dayNumber).1.2
         (civil_from_days dayNumber).2).2 ≤ 53.
Proof.
  rewrite isoWeek_of_day. cbn [snd].
  pose proof (year_bounds (dayNumber - Spec.weekdayFromMonday dayNumber + 3)).
  pose proof (january1_step (yearOfDay (dayNumber - Spec.weekdayFromMonday dayNumber + 3))).
  div_lia.
Qed.

Lemma month_of_time (t : Z) : MonthFromTime t + 1 = (civil_from_days (Day t)).1.2.
Proof. unfold MonthFromTime. lia. Qed.

(** X15: where [getISOWeekNumber] is right.  Under the conditions of X3,
    when the local date is the UTC date and the Friday of its week is not
    January 1, the result is the ISO 8601 week number of the local date,
    between 1 and 53. *)
Theorem getISOWeekNumber_right_on_same_date (host : IntlHost) (date : Z)
    (timezone : string) (o : Z) :
  IntlVariant.getTimezoneOffsetInMinutes host date timezone = Some (Num o) →
  Z.abs o ≤ 1439 →
  1000 ≤ YearFromTime (date + o * 60000) ≤ 9999 →
  Day (date + o * 60000) = Day date →
  ¬ fridayStartsYear (Day date) →
  let local := date + o * 60000 in
  let week := (Spec.isoWeek (YearFromTime local) (MonthFromTime local + 1)
                 (DateFromTime local)).2 in
  IntlVariant.getISOWeekNumber host date timezone = Some (Num week) ∧ 1 ≤ week ≤ 53.
Proof.
  intros Hoffset Ho Hyear Hsame Hfriday. cbv zeta.
  destruct (local_string_reads_back host date timezone o) as (Hlocal & Hparse & Hrange); [done..|].
  rewrite (getISOWeekNumber_of_parse host date timezone _ _ Hlocal Hparse Hrange).
  rewrite weekOfUtcDate_seconds.
  rewrite !month_of_time. unfold YearFromTime, DateFromTime. rewrite Hsame.
  split; [|apply isoWeek_range].
  unfold weekOfUtcDate. rewrite month_of_time. unfold YearFromTime, DateFromTime.
  unfold fridayStartsYear in Hfriday. cbv zeta in Hfriday.
  by rewrite bool_decide_eq_true_2 by (by apply dec_stable).
Qed.

Variable v : Variant.

(** X14: the outcome of a validated request.  When a request has passed
    the cache lookup and the rate limiter and carries a non-empty, supported
    [timezone] (matching the pattern where the pre-filter is on), then: if
    the [try] block returns a payload, the answer is 200 with it and the
    payload is stored under the request's key with the request time; if it
    throws, the answer is 500, the cache is untouched and one line naming
    the key goes to the console.  In both cases the request has been
    counted by the rate limiter. *)
Theorem validated_request_outcome (st : State) (req : Request) (now tryTime : Z)
    (timezone : string) :
  admitted st req now →
  URLSearchParams.get (searchParams req) "timezone" = Some timezone →
  timezone ≠ "" →
  (structuralPrefilter v = true → Regex.test timezonePattern timezone = true) →
  timezone ∈ validTimezones v →
  let key := generateCacheKey (searchParams req) in
  let limits := (rateLimit (rateLimitMap st) (clientIp req) now).1 in
  onRequest v st req now tryTime =
  match compute v tryTime timezone with
  | Some payload =>
      ({| responseCache := <[key := {| response := payload; timestamp := now |}]> (responseCache st);
          rateLimitMap := limits;
          console := console st |},
       successResponse payload)
  | None =>
      ({| responseCache := responseCache st;
          rateLimitMap := limits;
          console := console st ++ ["Error processing request for key '" +:+ key +:+ "':"] |},
       internalErrorResponse)
  end.
Proof.
  intros [[Hmethod Hmiss%cacheLookup_None] Hpass] Hparameter Hne Hformat Hvalid. simpl.
  unfold onRequest. rewrite decide_False by done. rewrite Hmiss.
  destruct (rateLimit _ _ _) as [limits rejected]. simpl in *. subst rejected.
  rewrite Hparameter. rewrite decide_False by done.
  assert (structuralPrefilter v && negb (Regex.test timezonePattern timezone) = false) as ->.
  { destruct (structuralPrefilter v); [|done]. by rewrite Hformat. }
  rewrite bool_decide_eq_true_2 by done. simpl.
  by destruct (compute v tryTime timezone).
Qed.

End More.

Section MoreInstances.

Lemma getTimezoneAbbreviation_first_name_witness :
  IntlVariant.getTimezoneAbbreviation SampleHost.summer sunday_evening_utc "Pacific/Auckland"
  = Some "GMT+13".
Proof.
  destruct (getTimezoneAbbreviation_first_name SampleHost.summer sunday_evening_utc
              "Pacific/Auckland"
              [("month", "12"); ("literal", "/"); ("day", "30"); ("literal", "/");
               ("year", "2024"); ("literal", ", "); ("timeZoneName", "GMT+13")])
    as [_ Hname].
  - vm_compute. reflexivity.
  - apply (Hname [("month", "12"); ("literal", "/"); ("day", "30"); ("literal", "/");
                  ("year", "2024"); ("literal", ", ")] "GMT+13" []).
    + reflexivity.
    + repeat (apply Forall_cons; split; [discriminate|]). apply Forall_nil. exact I.
Defined.

Lemma validated_request_outcome_witness :
  status (onRequest intl_handler initial auckland_request 5000 5001).2 = 200 ∧
  is_Some (responseCache (onRequest intl_handler initial auckland_request 5000 5001).1
             !! "timezone=Pacific/Auckland").
Proof.
  rewrite (validated_request_outcome intl_handler initial auckland_request 5000 5001
             "Pacific/Auckland").
  - vm_compute. split; [reflexivity|]. eexists. reflexivity.
  - split; [exact auckland_reaches_limiter|]. vm_compute. reflexivity.
  - reflexivity.
  - discriminate.
  - intros _. vm_compute. reflexivity.
  - apply (bool_decide_unpack _). vm_compute. exact I.
Defined.

(** In the zone UTC the local date is the UTC date. *)
Lemma getISOWeekNumber_right_on_same_date_witness :
  IntlVariant.getISOWeekNumber SampleHost.summer sunday_evening_utc_123 "UTC" = Some (Num 52) ∧
  Spec.isoWeek 2024 12 29 = (2024, 52).
Proof.
  destruct (getISOWeekNumber_right_on_same_date SampleHost.summer sunday_evening_utc_123
              "UTC" 0) as [Hweek _].
  - vm_compute. reflexivity.
  - simpl. lia.
  - assert (JSDate.YearFromTime (sunday_evening_utc_123 + 0 * 60000) = 2024) as ->
      by (vm_compute; reflexivity).
    lia.
  - vm_compute. reflexivity.
  - unfold fridayStartsYear. cbv zeta. intros Hne. apply Hne. vm_compute. reflexivity.
  - rewrite Hweek. split; vm_compute; reflexivity.
Defined.

End MoreInstances.
